(** * ASTControl2: device control and closed-loop guiding

    A shallow embedding of the device-control core of the telescope
    controller:

    - [utilities/config.py]             (module [Config])
    - [utilities/logger.py]             (module [Logger])
    - [utilities/indigo_json_client.py] (modules [Json] and [Indigo])
    - [modules/arduino_module.py]       (module [Arduino])
    - [modules/mount_module.py]         (module [Mount])
    - [modules/guide_module.py]         (module [Guide])

    Python values are modelled as the code has them: dictionaries as
    finite maps, strings as strings, [int] as [Z], and the IEEE doubles
    that the coordinate formatters print digit by digit as primitive
    floats.  Wall-clock times and pixel errors, which the code only
    compares, subtracts and scales, are exact rationals.  Exceptions are
    explicit: a function that can raise returns a [Py.result], together
    with the state it leaves behind.  The outside world (sockets, the
    clock, the thread scheduler) is a script of events handed to the
    functions. *)

From Stdlib Require Import ZArith QArith Qabs Floats String Ascii List Lia.
From Stdlib Require Import DecimalString.
From Equations Require Import Equations.
From stdpp Require Import base option gmap strings.
Import ListNotations.

Local Open Scope string_scope.
Local Open Scope Z_scope.

(* ===================================================================== *)
(** * Python runtime fragments shared by the modules                      *)
(* ===================================================================== *)

Module Py.

(** The exception classes the modelled code can meet. *)
Inductive exn : Type :=
| Exception
| TypeError
| ValueError
| JSONDecodeError
| UnicodeDecodeError
| ArithmeticError
| OverflowError
| AttributeError
| LookupError
| KeyError
| OSError
| ConnectionError
| BrokenPipeError
| ConnectionRefusedError
| ConnectionResetError
| socket_timeout.

Definition exn_eqb (a b : exn) : bool :=
  match a, b with
  | Exception, Exception | TypeError, TypeError | ValueError, ValueError
  | JSONDecodeError, JSONDecodeError
  | UnicodeDecodeError, UnicodeDecodeError
  | ArithmeticError, ArithmeticError | OverflowError, OverflowError
  | AttributeError, AttributeError | LookupError, LookupError
  | KeyError, KeyError | OSError, OSError
  | ConnectionError, ConnectionError | BrokenPipeError, BrokenPipeError
  | ConnectionRefusedError, ConnectionRefusedError
  | ConnectionResetError, ConnectionResetError
  | socket_timeout, socket_timeout => true
  | _, _ => false
  end.

(** Direct base class ([None] for the root [Exception]). *)
Definition base_class (e : exn) : option exn :=
  match e with
  | Exception => None
  | TypeError | ValueError | ArithmeticError | AttributeError
  | LookupError | OSError => Some Exception
  | JSONDecodeError | UnicodeDecodeError => Some ValueError
  | OverflowError => Some ArithmeticError
  | KeyError => Some LookupError
  | ConnectionError | socket_timeout => Some OSError
  | BrokenPipeError | ConnectionRefusedError | ConnectionResetError =>
      Some ConnectionError
  end.

(** [isinstance e cls]: the hierarchy above is four levels deep. *)
Fixpoint isinstance_upto (n : nat) (e cls : exn) : bool :=
  exn_eqb e cls ||
  match n with
  | O => false
  | S n' => match base_class e with
            | Some b => isinstance_upto n' b cls
            | None => false
            end
  end.

Definition isinstance (e cls : exn) : bool := isinstance_upto 4 e cls.

(** [except (c1, c2, ...)] catches [e] when it is an instance of one of
    the listed classes. *)
Definition caught_by (classes : list exn) (e : exn) : bool :=
  existsb (isinstance e) classes.

(** Outcome of a call: a value, or a raised exception. *)
Inductive result (A : Type) : Type :=
| Ok (a : A)
| Raise (e : exn).
Arguments Ok {A} a.
Arguments Raise {A} e.

Definition bind {A B} (r : result A) (k : A -> result B) : result B :=
  match r with
  | Ok a => k a
  | Raise e => Raise e
  end.

Definition raises {A} (r : result A) : bool :=
  match r with Ok _ => false | Raise _ => true end.

(** ** Strings *)

Definition nl : ascii := ascii_of_nat 10.

Definition is_upper (c : ascii) : bool :=
  let n := nat_of_ascii c in (65 <=? n)%nat && (n <=? 90)%nat.
Definition is_lower (c : ascii) : bool :=
  let n := nat_of_ascii c in (97 <=? n)%nat && (n <=? 122)%nat.

Definition lower_char (c : ascii) : ascii :=
  if is_upper c then ascii_of_nat (nat_of_ascii c + 32) else c.
Definition upper_char (c : ascii) : ascii :=
  if is_lower c then ascii_of_nat (nat_of_ascii c - 32) else c.

(** [str.lower] and [str.upper] on ASCII text (bytes above 127 are left
    alone). *)
Fixpoint lower (s : string) : string :=
  match s with
  | EmptyString => EmptyString
  | String c s' => String (lower_char c) (lower s')
  end.
Fixpoint upper (s : string) : string :=
  match s with
  | EmptyString => EmptyString
  | String c s' => String (upper_char c) (upper s')
  end.

(** A [str] is kept as its UTF-8 bytes.  [code_points] reads them back:
    every character with its code point and its bytes.  (A byte that
    starts no sequence stands for itself; decoded text holds none.) *)
Definition byte (c : ascii) : Z := Z.of_nat (nat_of_ascii c).
Definition continuation (c : ascii) : bool :=
  (128 <=? byte c)%Z && (byte c <? 192)%Z.
Definition low6 (c : ascii) : Z := (byte c - 128)%Z.

Fixpoint code_points (s : string) : list (Z * string) :=
  match s with
  | EmptyString => []
  | String b0 s0 =>
      let one := (byte b0, String b0 EmptyString) :: code_points s0 in
      if (byte b0 <? 192)%Z then one
      else
        match s0 with
        | String b1 s1 =>
            if negb (continuation b1) then one
            else if (byte b0 <? 224)%Z then
              (((byte b0 - 192) * 64 + low6 b1)%Z,
               String b0 (String b1 EmptyString)) :: code_points s1
            else
              match s1 with
              | String b2 s2 =>
                  if negb (continuation b2) then one
                  else if (byte b0 <? 240)%Z then
                    ((((byte b0 - 224) * 64 + low6 b1) * 64 + low6 b2)%Z,
                     String b0 (String b1 (String b2 EmptyString)))
                    :: code_points s2
                  else
                    match s2 with
                    | String b3 s3 =>
                        if negb (continuation b3) then one
                        else
                          ((((((byte b0 - 240) * 64 + low6 b1) * 64
                              + low6 b2) * 64 + low6 b3))%Z,
                           String b0
                             (String b1 (String b2 (String b3 EmptyString))))
                          :: code_points s3
                    | EmptyString => one
                    end
              | EmptyString => one
              end
        | EmptyString => one
        end
  end.

Fixpoint text_of (points : list (Z * string)) : string :=
  match points with
  | [] => EmptyString
  | (_, bytes) :: rest => bytes ++ text_of rest
  end.

(** Characters for which [str.isspace] holds: the ASCII ones, NEL,
    NBSP and the Unicode space separators. *)
Definition is_space (cp : Z) : bool :=
  ((9 <=? cp) && (cp <=? 13) || (28 <=? cp) && (cp <=? 32)
   || (cp =? 0x85) || (cp =? 0xa0) || (cp =? 0x1680)
   || (0x2000 <=? cp) && (cp <=? 0x200a)
   || (cp =? 0x2028) || (cp =? 0x2029) || (cp =? 0x202f)
   || (cp =? 0x205f) || (cp =? 0x3000))%Z.

Fixpoint lstrip (points : list (Z * string)) : list (Z * string) :=
  match points with
  | (cp, bytes) :: rest => if is_space cp then lstrip rest else points
  | [] => []
  end.

(** [rstrip]: drop the trailing run of whitespace. *)
Fixpoint rstrip (points : list (Z * string)) : list (Z * string) :=
  match points with
  | [] => []
  | (cp, bytes) :: rest =>
      match rstrip rest with
      | [] => if is_space cp then [] else [(cp, bytes)]
      | r => (cp, bytes) :: r
      end
  end.

(** [s.strip()] *)
Definition strip (s : string) : string :=
  text_of (rstrip (lstrip (code_points s))).

Fixpoint startswith (s p : string) : bool :=
  match p, s with
  | EmptyString, _ => true
  | String a p', String b s' => Ascii.eqb a b && startswith s' p'
  | String _ _, EmptyString => false
  end.

(** [s.split(sep)] for a one-character separator: never empty. *)
Fixpoint split (sep : ascii) (s : string) : list string :=
  match s with
  | EmptyString => [EmptyString]
  | String c s' =>
      if Ascii.eqb c sep then EmptyString :: split sep s'
      else match split sep s' with
           | f :: fs => String c f :: fs
           | [] => [String c EmptyString]
           end
  end.

(** [sep in s] *)
Fixpoint contains (sep : ascii) (s : string) : bool :=
  match s with
  | EmptyString => false
  | String c s' => Ascii.eqb c sep || contains sep s'
  end.

(** [x or default] for an optional string: [None] and [""] are falsy. *)
Definition str_or (x : option string) (default : string) : string :=
  match x with
  | Some (String c s) => String c s
  | _ => default
  end.

(** [str(n)] for an [int]. *)
Definition str_of_int (n : Z) : string := NilZero.string_of_int (Z.to_int n).

(** ** [int(text)]

    As CPython reads it.  The text is first brought to ASCII: a
    character below 127 stays, any other white space becomes a blank, a
    decimal digit of any script becomes the ASCII digit of its value,
    and the first character that is none of these becomes a question
    mark that ends the text.  Then the white space of the C locale is
    dropped on both sides, one sign is allowed, then decimal digits with
    single underscores between them; anything else is a [ValueError]. *)

(** Code points of the digit zero of every script but ASCII, in the
    Unicode database of CPython 3.11 (Unicode 14.0); the nine that
    follow each are its digits one to nine. *)
Definition decimal_zeros : list Z :=
  Eval cbv in
  ([0x660; 0x6f0; 0x7c0; 0x966; 0x9e6; 0xa66; 0xae6; 0xb66; 0xbe6;
   0xc66; 0xce6; 0xd66; 0xde6; 0xe50; 0xed0; 0xf20; 0x1040; 0x1090;
   0x17e0; 0x1810; 0x1946; 0x19d0; 0x1a80; 0x1a90; 0x1b50; 0x1bb0;
   0x1c40; 0x1c50; 0xa620; 0xa8d0; 0xa900; 0xa9d0; 0xa9f0; 0xaa50;
   0xabf0; 0xff10; 0x104a0; 0x10d30; 0x11066; 0x110f0; 0x11136;
   0x111d0; 0x112f0; 0x11450; 0x114d0; 0x11650; 0x116c0; 0x11730;
   0x118e0; 0x11950; 0x11c50; 0x11d50; 0x11da0; 0x16a60; 0x16ac0;
   0x16b50; 0x1d7ce; 0x1d7d8; 0x1d7e2; 0x1d7ec; 0x1d7f6; 0x1e140;
   0x1e2f0; 0x1e950; 0x1fbf0]%Z).

(** The decimal value of a character outside ASCII, if it has one. *)
Definition decimal (cp : Z) : option Z :=
  match List.find (fun z => (z <=? cp) && (cp <? z + 10))%Z decimal_zeros with
  | Some z => Some (cp - z)%Z
  | None => None
  end.

Definition ascii_of (n : Z) : ascii := ascii_of_nat (Z.to_nat n).

Fixpoint to_ascii (points : list (Z * string)) : string :=
  match points with
  | [] => EmptyString
  | (cp, _) :: rest =>
      if (cp <? 127)%Z then String (ascii_of cp) (to_ascii rest)
      else if is_space cp then String " " (to_ascii rest)
      else
        match decimal cp with
        | Some d => String (ascii_of (48 + d)) (to_ascii rest)
        | None => String "?" EmptyString
        end
  end.

(** White space of the C locale. *)
Definition is_c_space (c : ascii) : bool :=
  ((9 <=? byte c) && (byte c <=? 13) || (byte c =? 32))%Z.

Fixpoint lstrip_c (s : string) : string :=
  match s with
  | String c s' => if is_c_space c then lstrip_c s' else s
  | EmptyString => EmptyString
  end.

Fixpoint rstrip_c (s : string) : string :=
  match s with
  | EmptyString => EmptyString
  | String c s' =>
      match rstrip_c s' with
      | EmptyString =>
          if is_c_space c then EmptyString else String c EmptyString
      | r => String c r
      end
  end.

Definition digit_of (c : ascii) : option Z :=
  let n := nat_of_ascii c in
  if (48 <=? n)%nat && (n <=? 57)%nat then Some (Z.of_nat (n - 48)) else None.

Definition underscore : ascii := ascii_of_nat 95.

(** [digits_from acc prev_digit s]: [prev_digit] tells whether the
    previous character was a digit (an underscore must sit between two
    digits). *)
Fixpoint digits_from (acc : Z) (prev_digit : bool) (s : string) : option Z :=
  match s with
  | EmptyString => if prev_digit then Some acc else None
  | String c s' =>
      match digit_of c with
      | Some d => digits_from (10 * acc + d) true s'
      | None =>
          if Ascii.eqb c underscore && prev_digit then
            match s' with
            | String c' _ =>
                match digit_of c' with
                | Some _ => digits_from acc false s'
                | None => None
                end
            | EmptyString => None
            end
          else None
      end
  end.

Definition int_of_str (text : string) : result Z :=
  let body := rstrip_c (lstrip_c (to_ascii (code_points text))) in
  let parse neg digits :=
    match digits with
    | EmptyString => Raise ValueError
    | String c _ =>
        match digit_of c, digits_from 0 false digits with
        | Some _, Some n => Ok (if neg : bool then - n else n)
        | _, _ => Raise ValueError
        end
    end in
  match body with
  | String "-" rest => parse true rest
  | String "+" rest => parse false rest
  | _ => parse false body
  end.

(** ** Floats *)

(** [int(x)] for a double: truncation toward zero; [ValueError] for a
    NaN, [OverflowError] for an infinity. *)
Definition int_of_float (x : float) : result Z :=
  match Prim2SF x with
  | S754_zero _ => Ok 0
  | S754_infinity _ => Raise OverflowError
  | S754_nan => Raise ValueError
  | S754_finite s m e =>
      let mag := if 0 <=? e then Z.pos m * 2 ^ e
                 else Z.pos m / 2 ^ (- e) in
      Ok (if s then - mag else mag)
  end.

(** [float(n)] for an [int]: nearest double, ties to even;
    [OverflowError] when the magnitude is out of range. *)
Definition float_of_int (n : Z) : result float :=
  let f := SF2Prim (SpecFloat.binary_normalize prec emax n 0 false) in
  if PrimFloat.is_infinity f then Raise OverflowError else Ok f.

(** ** Format specifications *)

Fixpoint zeros (n : nat) : string :=
  match n with O => EmptyString | S n' => String "0" (zeros n') end.

(** Zero fill to [width] with the sign kept in front (the [0] flag). *)
Definition zero_pad (width : nat) (neg : bool) (body : string) : string :=
  let sign := if neg then "-" else "" in
  sign ++ zeros (width - String.length sign - String.length body) ++ body.

(** [format(n, "02")] for an [int]. *)
Definition fmt_02 (n : Z) : string :=
  zero_pad 2 (n <? 0) (str_of_int (Z.abs n)).

(** [m * 2^e * 100] rounded to the nearest integer, ties to even: the
    decimal conversion of [format] is correctly rounded on the exact
    binary value. *)
Definition hundredths (m : positive) (e : Z) : Z :=
  if 0 <=? e then Z.pos m * 100 * 2 ^ e
  else
    let num := Z.pos m * 100 in
    let den := 2 ^ (- e) in
    let q := num / den in
    let r := num mod den in
    match 2 * r ?= den with
    | Lt => q
    | Gt => q + 1
    | Eq => if Z.even q then q else q + 1
    end.

Definition two_digits (n : Z) : string :=
  if n <? 10 then "0" ++ str_of_int n else str_of_int n.

(** [format(x, "05.2f")] for a double. *)
Definition fmt_05_2f (x : float) : string :=
  match Prim2SF x with
  | S754_nan => zero_pad 5 false "nan"
  | S754_infinity s => zero_pad 5 s "inf"
  | S754_zero s => zero_pad 5 s "0.00"
  | S754_finite s m e =>
      let h := hundredths m e in
      zero_pad 5 s (str_of_int (h / 100) ++ "." ++ two_digits (h mod 100))
  end.

End Py.

(** [Py.result] is a monad; stdpp's [x ← r; k] notation sequences calls and
    lets the first exception escape. *)
#[export] Instance result_ret : MRet Py.result := @Py.Ok.
#[export] Instance result_bind : MBind Py.result :=
  fun A B k r => Py.bind r k.

(* ===================================================================== *)
(** * utilities/config.py                                                 *)
(* ===================================================================== *)

Module Config.

Definition RASPBERRY_PI_IP : string := "192.168.1.147".

End Config.

(* ===================================================================== *)
(** * utilities/logger.py                                                 *)
(* ===================================================================== *)

Module Logger.

(** [log_buffer]: the module-level list of emitted lines, oldest first.
    The wall-clock prefix that [emit_log] puts in front of each line is
    left out of the stored text. *)
Definition log_buffer := list string.

(** [emit_log(msg)].  The function has exactly one parameter, and the
    call sites pass positional arguments only, so a call is modelled by
    the list of its positional arguments: Python raises [TypeError]
    before the body runs when their number is not one.  Otherwise the
    line is appended and the buffer is trimmed to its last 300 lines. *)
Definition emit_log (args : list string) (buf : log_buffer)
  : Py.result log_buffer :=
  match args with
  | [msg] =>
      let buf' := (buf ++ [msg])%list in
      Py.Ok (if (300 <? length buf')%nat then tl buf' else buf')
  | _ => Py.Raise Py.TypeError
  end.

(** A call with one argument cannot raise: its effect on the buffer. *)
Definition logged (msg : string) (buf : log_buffer) : log_buffer :=
  let buf' := (buf ++ [msg])%list in
  if (300 <? length buf')%nat then tl buf' else buf'.

(** [get_log_history()] *)
Definition get_log_history (buf : log_buffer) : log_buffer := buf.

(** A run of [emit_log] calls, one message each. *)
Definition emit_logs (msgs : list string) (buf : log_buffer) : log_buffer :=
  fold_left (fun b msg => logged msg b) msgs buf.

End Logger.

(* ===================================================================== *)
(** * Decoded JSON values                                                 *)
(* ===================================================================== *)

Module Json.

(** What [json.loads] returns: [None], [bool], numbers, [str], [list]
    and [dict] (members in insertion order, keys unique). *)
#[local] Unset Elimination Schemes.
Inductive value : Type :=
| Null
| Bool (b : bool)
| Num (q : Q)
| Str (s : string)
| Arr (items : list value)
| Obj (members : list (string * value)).
#[local] Set Elimination Schemes.

(** Python truth value, as the [or] operator tests it. *)
Definition truthy (v : value) : bool :=
  match v with
  | Null => false
  | Bool b => b
  | Num q => negb (Qeq_bool q 0)
  | Str s => negb (String.eqb s "")
  | Arr items => match items with [] => false | _ => true end
  | Obj members => match members with [] => false | _ => true end
  end.

Fixpoint assoc (key : string) (members : list (string * value))
  : option value :=
  match members with
  | [] => None
  | (k, v) :: rest => if String.eqb k key then Some v else assoc key rest
  end.

(** [msg.get(key)]: only a [dict] has the method; a missing key gives
    [None]. *)
Definition get (key : string) (msg : value) : Py.result value :=
  match msg with
  | Obj members => Py.Ok (default Null (assoc key members))
  | _ => Py.Raise Py.AttributeError
  end.

(** Lists and dictionaries cannot be hashed. *)
Definition hashable (v : value) : bool :=
  match v with
  | Arr _ | Obj _ => false
  | _ => true
  end.

(** ** A reference decoder

    Recursive descent over the JSON the device protocol exchanges:
    objects, arrays, strings without escapes, integers and the three
    literals.  The client below is parametric in its decoder; this one
    instantiates it on concrete wire text. *)

Definition is_ws (c : ascii) : bool :=
  let n := nat_of_ascii c in
  (n =? 32)%nat || (n =? 9)%nat || (n =? 10)%nat || (n =? 13)%nat.

Fixpoint skip_ws (s : string) : string :=
  match s with
  | String c s' => if is_ws c then skip_ws s' else s
  | EmptyString => EmptyString
  end.

Definition quote : ascii := ascii_of_nat 34.
Definition backslash : ascii := ascii_of_nat 92.

(** Characters up to the closing quote. *)
Fixpoint scan_string (s : string) : option (string * string) :=
  match s with
  | EmptyString => None
  | String c s' =>
      if Ascii.eqb c quote then Some (EmptyString, s')
      else if Ascii.eqb c backslash || (nat_of_ascii c <? 32)%nat then None
      else match scan_string s' with
           | Some (body, rest) => Some (String c body, rest)
           | None => None
           end
  end.

Fixpoint scan_digits (acc : Z) (s : string) : Z * string :=
  match s with
  | String c s' =>
      match Py.digit_of c with
      | Some d => scan_digits (10 * acc + d) s'
      | None => (acc, s)
      end
  | EmptyString => (acc, s)
  end.

Definition scan_int (neg : bool) (s : string) : option (value * string) :=
  match s with
  | String c s' =>
      match Py.digit_of c with
      | Some d =>
          let '(n, rest) := scan_digits 0 s in
          if (d =? 0) && negb (n =? 0) then None
          else if (d =? 0) && Py.startswith s' "0" then None
          else Some (Num (inject_Z (if neg then - n else n)), rest)
      | None => None
      end
  | EmptyString => None
  end.

Definition expect (lit : string) (v : value) (s : string)
  : option (value * string) :=
  if Py.startswith s lit
  then Some (v, String.substring (String.length lit)
                  (String.length s - String.length lit) s)
  else None.

(** [d[k] = v] on a dictionary kept in insertion order: a repeated key
    keeps its place and takes the later value. *)
Fixpoint setitem (k : string) (v : value) (members : list (string * value))
  : list (string * value) :=
  match members with
  | [] => [(k, v)]
  | (k', v') :: rest =>
      if String.eqb k' k then (k, v) :: rest
      else (k', v') :: setitem k v rest
  end.

Definition dict_of (pairs : list (string * value)) : list (string * value) :=
  fold_left (fun d kv => setitem (fst kv) (snd kv) d) pairs [].

(** [parse_value fuel s]: one value at the head of [s] and the text left
    after it.  [parse_items] and [parse_members] read what follows an
    opening bracket. *)
Fixpoint parse_value (fuel : nat) (s : string) : option (value * string) :=
  match fuel with
  | O => None
  | S fuel' =>
      let parse_items :=
        fix items (n : nat) (s : string) : option (list value * string) :=
          match n with
          | O => None
          | S n' =>
              match parse_value fuel' s with
              | Some (v, rest) =>
                  match skip_ws rest with
                  | String "," rest' =>
                      match items n' rest' with
                      | Some (vs, rest'') => Some (v :: vs, rest'')
                      | None => None
                      end
                  | String "]" rest' => Some ([v], rest')
                  | _ => None
                  end
              | None => None
              end
          end in
      let parse_members :=
        fix members (n : nat) (s : string)
          : option (list (string * value) * string) :=
          match n with
          | O => None
          | S n' =>
              match skip_ws s with
              | String c s1 =>
                  if Ascii.eqb c quote then
                    match scan_string s1 with
                    | Some (k, s2) =>
                        match skip_ws s2 with
                        | String ":" s3 =>
                            match parse_value fuel' s3 with
                            | Some (v, s4) =>
                                match skip_ws s4 with
                                | String "," s5 =>
                                    match members n' s5 with
                                    | Some (kvs, s6) =>
                                        Some ((k, v) :: kvs, s6)
                                    | None => None
                                    end
                                | String "}" s5 => Some ([(k, v)], s5)
                                | _ => None
                                end
                            | None => None
                            end
                        | _ => None
                        end
                    | None => None
                    end
                  else None
              | EmptyString => None
              end
          end in
      match skip_ws s with
      | String "{" s1 =>
          match skip_ws s1 with
          | String "}" s2 => Some (Obj [], s2)
          | _ => match parse_members fuel' s1 with
                 | Some (kvs, rest) => Some (Obj (dict_of kvs), rest)
                 | None => None
                 end
          end
      | String "[" s1 =>
          match skip_ws s1 with
          | String "]" s2 => Some (Arr [], s2)
          | _ => match parse_items fuel' s1 with
                 | Some (vs, rest) => Some (Arr vs, rest)
                 | None => None
                 end
          end
      | String "-" s1 => scan_int true s1
      | String c s1 =>
          if Ascii.eqb c quote then
            match scan_string s1 with
            | Some (body, rest) => Some (Str body, rest)
            | None => None
            end
          else if Ascii.eqb c "t" then expect "true" (Bool true) (String c s1)
          else if Ascii.eqb c "f" then expect "false" (Bool false) (String c s1)
          else if Ascii.eqb c "n" then expect "null" Null (String c s1)
          else scan_int false (String c s1)
      | EmptyString => None
      end
  end.

Definition decode (text : string) : option value :=
  match parse_value (S (String.length text)) text with
  | Some (v, rest) =>
      match skip_ws rest with
      | EmptyString => Some v
      | _ => None
      end
  | None => None
  end.

End Json.

(* ===================================================================== *)
(** * utilities/indigo_json_client.py                                     *)
(* ===================================================================== *)

Module Indigo.

(** ** Outbound messages: the dictionaries handed to [send]. *)

Inductive item_value : Type :=
| Switch (on : bool)
| Number (x : Q).

Record vector : Type := Vector {
  device : string;
  name : string;
  items : list (string * item_value)
}.

Inductive message : Type :=
| newNumberVector (v : vector)
| newSwitchVector (v : vector)
| getProperties (dev nm : string).

(** ** What the client does to the outside world, oldest first. *)
Inductive event : Type :=
| ConnectAttempt                 (* socket.create_connection *)
| Slept (seconds : Z)            (* time.sleep *)
| ListenerStarted                (* listener_thread.start() *)
| Printed (text : string)        (* print *)
| Wrote (m : message)            (* sock.sendall of one JSON line *)
| Delivered (callback : nat) (msg : Json.value)  (* callbacks[kind](msg) *)
| SockClosed.                    (* sock.close() *)

(** ** [IndigoJSONClient]: the instance attributes (the send mutex and
    the thread handle apart), and the log buffer and event trace the
    instance writes to.  A callback is named by a number; calling it is
    the event [Delivered]. *)
Record client : Type := Client {
  host : string;
  port : Z;
  sock : bool;                   (* self.sock is not None *)
  callbacks : gmap string nat;
  connected : bool;
  reconnect_interval : Z;
  retry_count : Z;
  stop_flag : bool;
  log : Logger.log_buffer;
  trace : list event
}.

(** [IndigoJSONClient(host)] *)
Definition init (host_ : string) : client :=
  Client host_ 7624 false ∅ false 5 0 false [] [].

Definition set_sock (b : bool) (c : client) : client :=
  Client (host c) (port c) b (callbacks c) (connected c) (reconnect_interval c)
         (retry_count c) (stop_flag c) (log c) (trace c).
Definition set_callbacks (m : gmap string nat) (c : client) : client :=
  Client (host c) (port c) (sock c) m (connected c) (reconnect_interval c)
         (retry_count c) (stop_flag c) (log c) (trace c).
Definition set_connected (b : bool) (c : client) : client :=
  Client (host c) (port c) (sock c) (callbacks c) b (reconnect_interval c)
         (retry_count c) (stop_flag c) (log c) (trace c).
Definition set_retry_count (n : Z) (c : client) : client :=
  Client (host c) (port c) (sock c) (callbacks c) (connected c) (reconnect_interval c)
         n (stop_flag c) (log c) (trace c).
Definition set_stop_flag (b : bool) (c : client) : client :=
  Client (host c) (port c) (sock c) (callbacks c) (connected c) (reconnect_interval c)
         (retry_count c) b (log c) (trace c).
Definition emit_log (msg : string) (c : client) : client :=
  Client (host c) (port c) (sock c) (callbacks c) (connected c) (reconnect_interval c)
         (retry_count c) (stop_flag c) (Logger.logged msg (log c)) (trace c).
Definition record (e : event) (c : client) : client :=
  Client (host c) (port c) (sock c) (callbacks c) (connected c) (reconnect_interval c)
         (retry_count c) (stop_flag c) (log c) (trace c ++ [e])%list.

Definition is_attempt (e : event) : bool :=
  match e with ConnectAttempt => true | _ => false end.

(** Number of connection attempts made so far. *)
Definition attempts (c : client) : nat :=
  length (List.filter is_attempt (trace c)).

Definition delivered (c : client) : list (nat * Json.value) :=
  flat_map (fun e => match e with
                     | Delivered cb msg => [(cb, msg)]
                     | _ => []
                     end) (trace c).

(** Text of [str(e)] in a log line.  The message an exception carries
    is not modelled: the name of its class stands for it, and no
    property depends on which text it is. *)
Definition exn_text (e : Py.exn) : string :=
  match e with
  | Py.Exception => "Exception"
  | Py.TypeError => "TypeError"
  | Py.ValueError => "ValueError"
  | Py.JSONDecodeError => "JSONDecodeError"
  | Py.UnicodeDecodeError => "UnicodeDecodeError"
  | Py.ArithmeticError => "ArithmeticError"
  | Py.OverflowError => "OverflowError"
  | Py.AttributeError => "AttributeError"
  | Py.LookupError => "LookupError"
  | Py.KeyError => "KeyError"
  | Py.OSError => "OSError"
  | Py.ConnectionError => "ConnectionError"
  | Py.BrokenPipeError => "BrokenPipeError"
  | Py.ConnectionRefusedError => "ConnectionRefusedError"
  | Py.ConnectionResetError => "ConnectionResetError"
  | Py.socket_timeout => "timeout"
  end.

(** ** [connect]

    [peer k] is what the [k]-th call of [socket.create_connection] made
    by this client meets: [None] when the connection is accepted,
    [Some e] when the call raises [e]. *)

(** The [try] body after [create_connection] returned. *)
Definition on_connected (c : client) : client :=
  record ListenerStarted
    (emit_log "[INDIGO] Connected."
       (set_retry_count 0 (set_connected true (set_sock true c)))).

(** The first line of the [try] body and the call itself. *)
Definition on_attempt (c : client) : client :=
  record ConnectAttempt
    (emit_log ("[INDIGO] Connecting to " ++ host c ++ ":"
               ++ Py.str_of_int (port c) ++ "... (Attempt "
               ++ Py.str_of_int (retry_count c + 1) ++ ")") c).

(** The [except] clause. *)
Definition on_refused (e : Py.exn) (c : client) : client :=
  let c1 := emit_log ("[INDIGO] Connection failed: " ++ exn_text e
                      ++ ". Retrying in "
                      ++ Py.str_of_int (reconnect_interval c) ++ "s...") c in
  let c2 := record (Slept (reconnect_interval c)) c1 in
  set_retry_count (retry_count c + 1) c2.

(** What follows the [while] loop. *)
Definition on_give_up (max_retries : Z) (c : client) : client :=
  set_connected false
    (record (Printed ("[INDIGO] Failed to connect after "
                      ++ Py.str_of_int max_retries ++ " attempts.")) c).

Equations? connect (peer : nat -> option Py.exn) (max_retries : Z)
  (c : client) : client * Py.result unit
  by wf (Z.to_nat (max_retries - retry_count c)) lt :=
  connect peer max_retries c
    with stop_flag c, Z_lt_dec (retry_count c) max_retries => {
    | false, left Hlt with peer (attempts c) => {
        | None := (on_connected (on_attempt c), Py.Ok tt)
        | Some e
            with Py.caught_by [Py.socket_timeout; Py.ConnectionRefusedError;
                               Py.OSError] e => {
            | true := connect peer max_retries (on_refused e (on_attempt c))
            | false := (on_attempt c, Py.Raise e) } }
    | _, _ := (on_give_up max_retries c, Py.Ok tt) }.
Proof. simpl. lia. Qed.

(** ** [send] *)

(** [send(message, quiet)].  [io] is what [sock.sendall] does when it is
    reached: it returns, or raises.  The state comes back with the
    exception, since [connected] is cleared before the re-raise. *)
Definition send (message_ : message) (quiet : bool) (io : Py.result unit)
  (c : client) : client * Py.result unit :=
  if negb (connected c) || negb (sock c) then
    ((if quiet then c
      else emit_log "[INDIGO] Not connected — skipping send." c),
     Py.Ok tt)
  else
    match io with
    | Py.Ok _ => (record (Wrote message_) c, Py.Ok tt)
    | Py.Raise e =>
        if Py.caught_by [Py.BrokenPipeError; Py.OSError] e then
          let c1 := if quiet then c
                    else emit_log ("[INDIGO] Send failed: " ++ exn_text e) c in
          let c2 := set_connected false c1 in
          if quiet then (c2, Py.Ok tt) else (c2, Py.Raise e)
        else (c, Py.Raise e)
    end.

(** [on(kind, callback)] *)
Definition on (kind : string) (callback : nat) (c : client) : client :=
  set_callbacks (<[kind := callback]> (callbacks c)) c.

(** [is_connected()] *)
Definition is_connected (c : client) : bool := connected c && sock c.

(** [close()] *)
Definition close (c : client) : client :=
  let c1 := set_connected false (set_stop_flag true c) in
  let c2 := if sock c1 then record SockClosed c1 else c1 in
  emit_log "[INDIGO] Client closed." c2.

Section Listener.

(** [json.loads] on one line: [None] when it raises
    [json.JSONDecodeError].  [py_str] is [str(msg)] of a decoded
    value. *)
Variable json_loads : string -> option Json.value.
Variable py_str : Json.value -> string.

(** [msg.get("action") or msg.get("name")] *)
Definition kind_of (msg : Json.value) : Py.result Json.value :=
  action ← Json.get "action" msg;
  if Json.truthy action then Py.Ok action else Json.get "name" msg.

(** [_dispatch(line)] *)
Definition _dispatch (line : string) (c : client)
  : client * Py.result unit :=
  match json_loads line with
  | Some msg =>
      match kind_of msg with
      | Py.Raise e => (c, Py.Raise e)
      | Py.Ok kind =>
          (* [kind in self.callbacks] hashes [kind] *)
          if negb (Json.hashable kind) then (c, Py.Raise Py.TypeError)
          else
            match kind with
            | Json.Str k =>
                match callbacks c !! k with
                | Some cb => (record (Delivered cb msg) c, Py.Ok tt)
                | None =>
                    (emit_log ("[INDIGO] Unhandled message: " ++ py_str msg) c,
                     Py.Ok tt)
                end
            | _ =>
                (emit_log ("[INDIGO] Unhandled message: " ++ py_str msg) c,
                 Py.Ok tt)
            end
      end
  | None =>
      (* except json.JSONDecodeError: emit_log("[INDIGO] Failed to parse:", line) *)
      match Logger.emit_log ["[INDIGO] Failed to parse:"; line] (log c) with
      | Py.Ok buf =>
          (Client (host c) (port c) (sock c) (callbacks c) (connected c)
                  (reconnect_interval c) (retry_count c) (stop_flag c)
                  buf (trace c), Py.Ok tt)
      | Py.Raise e => (c, Py.Raise e)
      end
  end.

(** What one iteration of the read loop meets at the socket. *)
Inductive sock_event : Type :=
| NotReady                     (* select timed out after one second *)
| Data (text : string)         (* recv(4096).decode(); "" at end of stream *)
| Fails (e : Py.exn).          (* select, recv or decode raised *)

(** Where the listener thread is once the events are used up. *)
Inductive listener : Type :=
| Listening (buffer : string)          (* still in the loop *)
| Exited (uncaught : option Py.exn).   (* thread ended; the exception that
                                          ended it, if one escaped *)

(** The complete lines of [buffer] and the unfinished rest: what the
    inner [while '\n' in buffer] loop peels off with
    [buffer.split('\n', 1)]. *)
Definition take_lines (buffer : string) : list string * string :=
  let parts := Py.split Py.nl buffer in
  (List.removelast parts, List.last parts "").

(** The inner loop: dispatch each complete line in turn; the first
    exception ends it. *)
Fixpoint dispatch_lines (lines : list string) (c : client)
  : client * Py.result unit :=
  match lines with
  | [] => (c, Py.Ok tt)
  | line :: rest =>
      match _dispatch (Py.strip line) c with
      | (c', Py.Ok _) => dispatch_lines rest c'
      | (c', Py.Raise e) => (c', Py.Raise e)
      end
  end.

(** The [finally] clause of [_listen_loop]. *)
Definition on_listener_exit (c : client) : client :=
  emit_log "[INDIGO] Reconnection skipped after listener exit."
    (emit_log "[INDIGO] Disconnected. Attempting to reconnect..."
       (record SockClosed (set_connected false c))).

(** An exception reaching the [try] of [_listen_loop]. *)
Definition on_listener_error (e : Py.exn) (c : client)
  : client * listener :=
  if Py.caught_by [Py.ConnectionResetError; Py.socket_timeout; Py.OSError] e
  then (on_listener_exit (emit_log ("[INDIGO] Listener error: "
                                    ++ exn_text e) c), Exited None)
  else (on_listener_exit c, Exited (Some e)).

(** [_listen_loop()], one socket event per iteration. *)
Fixpoint _listen_loop (evs : list sock_event) (buffer : string)
  (c : client) : client * listener :=
  if stop_flag c then (on_listener_exit c, Exited None)
  else
    match evs with
    | [] => (c, Listening buffer)
    | NotReady :: evs' => _listen_loop evs' buffer c
    | Fails e :: _ => on_listener_error e c
    | Data "" :: _ =>
        (on_listener_exit
           (emit_log "[INDIGO] Connection closed by remote." c),
         Exited None)
    | Data text :: evs' =>
        let '(lines, rest) := take_lines (buffer ++ text) in
        match dispatch_lines lines c with
        | (c', Py.Ok _) => _listen_loop evs' rest c'
        | (c', Py.Raise e) => on_listener_error e c'
        end
    end.

End Listener.

End Indigo.
(* ===================================================================== *)
(** * modules/arduino_module.py                                           *)
(* ===================================================================== *)

Module Arduino.

(** Values held by the shared [state] dictionary. *)
Inductive pyval : Type :=
| PNone
| PBool (b : bool)
| PInt (n : Z)
| PStr (s : string).

(** [config.ARDUINO_STATE] *)
Definition ARDUINO_STATE : gmap string pyval :=
  <["dome" := PStr "UNKNOWN"]>
  (<["etalon1" := PInt 90]>
  (<["etalon2" := PInt 90]>
  (<["last_updated" := PNone]>
  (<["connected" := PBool false]> ∅)))).

(** Truth value of [state.get(key)]. *)
Definition state_truthy (state : gmap string pyval) (key : string) : bool :=
  match state !! key with
  | Some (PBool b) => b
  | Some (PInt n) => negb (n =? 0)
  | Some (PStr s) => negb (String.eqb s "")
  | Some PNone | None => false
  end.

(** [ArduinoTCPClient]: the instance attributes (the mutex and the
    watcher thread handle apart). *)
Record ArduinoTCPClient : Type := TCPClient {
  host : string;
  port : Z;
  sock : bool;                   (* self.sock is not None *)
  last_used : Q;
  idle_timeout : Q;
  last_fail_time : Q;
  fail_count : Z;
  max_log_interval : Q;
  max_warns : Z;
  warn_sent : bool
}.

(** [ArduinoTCPClient()] created at time [now]. *)
Definition new_client (now : Q) : ArduinoTCPClient :=
  TCPClient Config.RASPBERRY_PI_IP 5555 false now 20 0 0 15 3 false.

(** What is pushed to the status sink. *)
Inductive emission : Type :=
| ServerLog (text : string)
| ArduinoState (snapshot : gmap string pyval).

(** The module globals: [_client], [state], [_socketio] (attached or
    not, with what was emitted through it) and the log buffer. *)
Record world : Type := World {
  _client : ArduinoTCPClient;
  state : gmap string pyval;
  _socketio : bool;
  emitted : list emission;
  log : Logger.log_buffer
}.

Definition init (now : Q) : world :=
  World (new_client now) ARDUINO_STATE false [] [].

(** [set_socketio(sio)]: attach a sink, or none. *)
Definition set_socketio (sio : bool) (w : world) : world :=
  World (_client w) (state w) sio (emitted w) (log w).

Definition with_client (f : ArduinoTCPClient -> ArduinoTCPClient)
  (w : world) : world :=
  World (f (_client w)) (state w) (_socketio w) (emitted w) (log w).
Definition set_state (key : string) (v : pyval) (w : world) : world :=
  World (_client w) (<[key := v]> (state w)) (_socketio w) (emitted w) (log w).
(** [_socketio.emit]: the sink takes what is pushed to it.  (Where the
    module pushes, it catches an exception of the sink and logs it.) *)
Definition emit (e : emission) (w : world) : world :=
  World (_client w) (state w) (_socketio w) (emitted w ++ [e])%list (log w).
Definition emit_log (msg : string) (w : world) : world :=
  World (_client w) (state w) (_socketio w) (emitted w)
        (Logger.logged msg (log w)).

Definition set_sock (b : bool) (c : ArduinoTCPClient) : ArduinoTCPClient :=
  TCPClient (host c) (port c) b (last_used c) (idle_timeout c) (last_fail_time c)
            (fail_count c) (max_log_interval c) (max_warns c) (warn_sent c).
Definition set_last_used (t : Q) (c : ArduinoTCPClient) : ArduinoTCPClient :=
  TCPClient (host c) (port c) (sock c) t (idle_timeout c) (last_fail_time c)
            (fail_count c) (max_log_interval c) (max_warns c) (warn_sent c).
Definition set_last_fail_time (t : Q) (c : ArduinoTCPClient)
  : ArduinoTCPClient :=
  TCPClient (host c) (port c) (sock c) (last_used c) (idle_timeout c) t
            (fail_count c) (max_log_interval c) (max_warns c) (warn_sent c).
Definition set_fail_count (n : Z) (c : ArduinoTCPClient) : ArduinoTCPClient :=
  TCPClient (host c) (port c) (sock c) (last_used c) (idle_timeout c) (last_fail_time c)
            n (max_log_interval c) (max_warns c) (warn_sent c).
Definition set_warn_sent (b : bool) (c : ArduinoTCPClient) : ArduinoTCPClient :=
  TCPClient (host c) (port c) (sock c) (last_used c) (idle_timeout c) (last_fail_time c)
            (fail_count c) (max_log_interval c) (max_warns c) b.

(** ** [_connect]

    [conn] is what [socket.create_connection] does: [None] when the
    board accepts, [Some e] when the call raises [e]. *)
Definition _connect (conn : option Py.exn) (now : Q) (w : world) : world :=
  if max_warns (_client w) <=? fail_count (_client w) then w
  else
    match conn with
    | None =>
        emit_log "[ARDUINO-TCP] ✅ Connected to servo_daemon."
          (with_client (fun c => set_warn_sent false
                                   (set_fail_count 0 (set_sock true c)))
             (set_state "connected" (PBool true) w))
    | Some e =>
        let w1 := set_state "connected" (PBool false) w in
        let w2 := with_client
                    (fun c => set_fail_count (fail_count c + 1) c) w1 in
        let w3 :=
          if Qlt_le_dec (max_log_interval (_client w2))
                        (now - last_fail_time (_client w2))
          then with_client (set_last_fail_time now)
                 (emit_log ("[ARDUINO-TCP] ❌ Connection attempt "
                            ++ Py.str_of_int (fail_count (_client w2))
                            ++ ": " ++ Indigo.exn_text e) w2)
          else w2 in
        let w4 :=
          if _socketio w3 && negb (warn_sent (_client w3))
             && (fail_count (_client w3) =? max_warns (_client w3))
          then with_client (set_warn_sent true)
                 (emit (ServerLog "⚠️ Arduino unreachable after 5 retries.") w3)
          else w3 in
        with_client (set_sock false) w4
    end.

(** ** [send] *)

(** What one [recv(1024).decode()] gives. *)
Inductive recv_event : Type :=
| Chunk (text : string)          (* "" when the board closed the stream *)
| RecvFails (e : Py.exn).

(** The receive loop: read until the buffer holds a newline.  The socket
    has a three-second timeout, so a board that stops answering makes
    [recv] raise [socket.timeout]: the end of the script. *)
Fixpoint recv_line (recvs : list recv_event) (buffer : string)
  : Py.result string :=
  match recvs with
  | [] => Py.Raise Py.socket_timeout
  | RecvFails e :: _ => Py.Raise e
  | Chunk "" :: _ => Py.Raise Py.ConnectionError
  | Chunk data :: rest =>
      let buffer' := buffer ++ data in
      if Py.contains Py.nl buffer' then Py.Ok buffer'
      else recv_line rest buffer'
  end.

(** The socket script of one [send]. *)
Record io : Type := IO {
  now : Q;                       (* time.time() *)
  conn : option Py.exn;          (* create_connection, if reached *)
  sendall : option Py.exn;       (* sock.sendall, if reached *)
  recvs : list recv_event
}.

(** The [try] body of [send]. *)
Definition send_body (message_ : string) (x : io) (w : world)
  : world * Py.result string :=
  let w1 := if sock (_client w) then w else _connect (conn x) (now x) w in
  if negb (sock (_client w1)) then (w1, Py.Ok "")
  else
    match sendall x with
    | Some e => (w1, Py.Raise e)
    | None =>
        match recv_line (recvs x) "" with
        | Py.Raise e => (w1, Py.Raise e)
        | Py.Ok buffer =>
            (set_state "connected" (PBool true)
               (with_client (set_last_used (now x)) w1),
             Py.Ok (Py.strip buffer))
        end
    end.

(** [ArduinoTCPClient.send(message)]: the body under
    [except Exception]. *)
Definition send (message_ : string) (x : io) (w : world)
  : world * Py.result string :=
  match send_body message_ x w with
  | (w', Py.Ok response) => (w', Py.Ok response)
  | (w', Py.Raise e) =>
      if Py.isinstance e Py.Exception then
        (with_client (set_sock false)
           (emit_log ("[ARDUINO-TCP] Send failed: " ++ Indigo.exn_text e)
              (set_state "connected" (PBool false) w')),
         Py.Ok "")
      else (w', Py.Raise e)
  end.

(** [_idle_watcher], one wake-up at time [t]. *)
Definition idle_watch (t : Q) (w : world) : world :=
  if sock (_client w)
     && (if Qlt_le_dec (idle_timeout (_client w)) (t - last_used (_client w))
         then true else false)
  then with_client (set_sock false)
         (emit_log "[ARDUINO-TCP] Closed idle socket." w)
  else w.

(** [_update()]; [stamp] is the formatted local time. *)
Definition _update (stamp : string) (w : world) : world :=
  let w1 := set_state "last_updated" (PStr stamp) w in
  if _socketio w1 then emit (ArduinoState (state w1)) w1 else w1.

(** ** Public API *)

(** [set_dome(state_cmd)] *)
Definition set_dome (state_cmd : string) (x : io) (stamp : string)
  (w : world) : world * Py.result bool :=
  if negb (String.eqb state_cmd "open" || String.eqb state_cmd "close")
  then (w, Py.Ok false)
  else
    match send ("dome " ++ (if String.eqb state_cmd "open" then "180" else "0"))
               x w with
    | (w1, Py.Raise e) => (w1, Py.Raise e)
    | (w1, Py.Ok res) =>
        if Py.startswith res "dome:" then
          (_update stamp (set_state "dome" (PStr (Py.upper state_cmd)) w1),
           Py.Ok true)
        else (w1, Py.Ok false)
    end.

(** [set_etalon(index, value)] *)
Definition set_etalon (index value : Z) (x : io) (stamp : string)
  (w : world) : world * Py.result bool :=
  if negb ((index =? 1) || (index =? 2)) || negb ((0 <=? value) && (value <=? 180))
  then (w, Py.Ok false)
  else
    match send ("et" ++ Py.str_of_int index ++ " " ++ Py.str_of_int value)
               x w with
    | (w1, Py.Raise e) => (w1, Py.Raise e)
    | (w1, Py.Ok res) =>
        if Py.startswith res ("et" ++ Py.str_of_int index ++ ":") then
          (_update stamp
             (set_state ("etalon" ++ Py.str_of_int index) (PInt value) w1),
           Py.Ok true)
        else (w1, Py.Ok false)
    end.

(** [get_dome()] *)
Definition get_dome (w : world) : pyval :=
  default (PStr "UNKNOWN") (state w !! "dome").

(** ** The poll loop *)

(** [int(line.split(":")[1])]; the line starts with a [key:] prefix, so
    the split has a second field. *)
Definition field_int (line : string) : Py.result Z :=
  match Py.split ":" line with
  | _ :: field :: _ => Py.int_of_str field
  | _ => Py.Raise Py.LookupError
  end.

(** The classification of the raw dome angle. *)
Definition dome_label (dome_pos : Z) : string :=
  if 170 <=? dome_pos then "OPEN"
  else if dome_pos <=? 10 then "CLOSED"
  else "Moving (" ++ Py.str_of_int dome_pos ++ "°)".

(** One turn of [for line in dome.split("\n")]. *)
Definition parse_status_line (line : string) (w : world)
  : world * Py.result unit :=
  if Py.startswith line "dome:" then
    match field_int line with
    | Py.Ok dome_pos =>
        (set_state "dome" (PStr (dome_label dome_pos))
           (set_state "dome_raw" (PInt dome_pos) w), Py.Ok tt)
    | Py.Raise e => (w, Py.Raise e)
    end
  else if Py.startswith line "et1:" then
    match field_int line with
    | Py.Ok n => (set_state "etalon1" (PInt n) w, Py.Ok tt)
    | Py.Raise e => (w, Py.Raise e)
    end
  else if Py.startswith line "et2:" then
    match field_int line with
    | Py.Ok n => (set_state "etalon2" (PInt n) w, Py.Ok tt)
    | Py.Raise e => (w, Py.Raise e)
    end
  else (w, Py.Ok tt).

Fixpoint parse_status_lines (lines : list string) (w : world)
  : world * Py.result unit :=
  match lines with
  | [] => (w, Py.Ok tt)
  | line :: rest =>
      match parse_status_line line w with
      | (w', Py.Ok _) => parse_status_lines rest w'
      | (w', Py.Raise e) => (w', Py.Raise e)
      end
  end.

(** The [try] statement of [_poll_loop]: query, parse, publish; any
    exception is logged and marks the board disconnected. *)
Definition poll_status (x : io) (stamp : string) (w : world) : world :=
  let attempt :=
    match send "status" x w with
    | (w1, Py.Raise e) => (w1, Py.Raise e)
    | (w1, Py.Ok dome) =>
        match parse_status_lines (Py.split Py.nl (Py.strip dome)) w1 with
        | (w2, Py.Ok _) => (_update stamp w2, Py.Ok tt)
        | (w2, Py.Raise e) => (w2, Py.Raise e)
        end
    end in
  match attempt with
  | (w', Py.Ok _) => w'
  | (w', Py.Raise e) =>
      set_state "connected" (PBool false)
        (emit_log ("[Arduino Monitor Error] " ++ Indigo.exn_text e) w')
  end.

(** One iteration of [while _running]: [None] when the iteration only
    waits out the retry delay.  [reconnect] is the outcome of the
    loop's own [_connect] call, [x] the script of the status query. *)
Definition poll_once (reconnect : option Py.exn) (x : io) (stamp : string)
  (w : world) : option world :=
  if negb (state_truthy (state w) "connected") then
    if fail_count (_client w) <? max_warns (_client w)
    then Some (poll_status x stamp (_connect reconnect (now x) w))
    else None
  else Some (poll_status x stamp w).

End Arduino.

(* ===================================================================== *)
(** * modules/mount_module.py                                             *)
(* ===================================================================== *)

Module Mount.

(** ** Formatting helpers *)

(** [MountControl.format_ra]: decimal hours to [HH:MM:SS.ss]. *)
Definition format_ra (ra_h : option float) : Py.result string :=
  match ra_h with
  | None => Py.Ok "--:--:--"
  | Some ra_h =>
      hours ← Py.int_of_float ra_h;
      hours_f ← Py.float_of_int hours;
      let minutes_f := ((ra_h - hours_f) * 60)%float in
      minutes ← Py.int_of_float minutes_f;
      minutes_fl ← Py.float_of_int minutes;
      let seconds := ((minutes_f - minutes_fl) * 60)%float in
      Py.Ok (Py.fmt_02 hours ++ ":" ++ Py.fmt_02 minutes ++ ":"
             ++ Py.fmt_05_2f seconds)%string
  end.

(** [MountControl.format_dec]: decimal degrees to [±DD:MM:SS.ss]. *)
Definition format_dec (dec_deg : option float) : Py.result string :=
  match dec_deg with
  | None => Py.Ok "--:--:--"
  | Some dec_deg =>
      let sign := if (dec_deg <? 0)%float then "-" else "+" in
      let d := PrimFloat.abs dec_deg in
      degrees ← Py.int_of_float d;
      degrees_f ← Py.float_of_int degrees;
      let minutes_f := ((d - degrees_f) * 60)%float in
      minutes ← Py.int_of_float minutes_f;
      minutes_fl ← Py.float_of_int minutes;
      let seconds := ((minutes_f - minutes_fl) * 60)%float in
      Py.Ok (sign ++ Py.fmt_02 degrees ++ ":" ++ Py.fmt_02 minutes ++ ":"
             ++ Py.fmt_05_2f seconds)%string
  end.

(** ** Commands *)

Definition device : string := "Mount Agent".

Definition switch_vector (nm : string) (switches : list (string * bool))
  : Indigo.message :=
  Indigo.newSwitchVector
    (Indigo.Vector device nm
       (map (fun kv => (fst kv, Indigo.Switch (snd kv))) switches)).

(** [_map_ui_rate] *)
Definition _map_ui_rate (ui_rate : option string) : string :=
  let ui := Py.lower (Py.str_or ui_rate "solar") in
  if String.eqb ui "slow" then "CENTERING"
  else if String.eqb ui "fast" then "MAX"
  else "GUIDE".

(** The message of [_set_slew_rate_switch]. *)
Definition slew_rate_msg (ui_rate : option string) : Indigo.message :=
  let want := _map_ui_rate ui_rate in
  switch_vector "MOUNT_SLEW_RATE"
    [("GUIDE", String.eqb want "GUIDE");
     ("CENTERING", String.eqb want "CENTERING");
     ("FIND", String.eqb want "FIND");
     ("MAX", String.eqb want "MAX")].

Inductive axis : Type := RA | DEC.

(** [direction in ("east", "west")], else
    [direction in ("north", "south")]. *)
Definition axis_of (direction : string) : option axis :=
  if String.eqb direction "east" || String.eqb direction "west" then Some RA
  else if String.eqb direction "north" || String.eqb direction "south"
       then Some DEC
       else None.

(** The switch vector that starts motion toward [direction]. *)
Definition motion_on (a : axis) (direction : string) : Indigo.message :=
  match a with
  | RA => switch_vector "MOUNT_MOTION_RA"
            [("WEST", String.eqb direction "west");
             ("EAST", String.eqb direction "east")]
  | DEC => switch_vector "MOUNT_MOTION_DEC"
             [("NORTH", String.eqb direction "north");
              ("SOUTH", String.eqb direction "south")]
  end.

(** The switch vector that stops an axis. *)
Definition motion_off (a : axis) : Indigo.message :=
  match a with
  | RA => switch_vector "MOUNT_MOTION_RA" [("WEST", false); ("EAST", false)]
  | DEC => switch_vector "MOUNT_MOTION_DEC" [("NORTH", false); ("SOUTH", false)]
  end.

Definition abort_motion : Indigo.message :=
  switch_vector "MOUNT_ABORT_MOTION" [("ABORT_MOTION", true)].

(** Name of the vector a message writes. *)
Definition vector_name (m : Indigo.message) : string :=
  match m with
  | Indigo.newNumberVector v | Indigo.newSwitchVector v => Indigo.name v
  | Indigo.getProperties _ nm => nm
  end.

Definition is_motion (m : Indigo.message) : bool :=
  String.eqb (vector_name m) "MOUNT_MOTION_RA"
  || String.eqb (vector_name m) "MOUNT_MOTION_DEC".

(** The messages each command hands to [client.send(..., quiet=True)],
    in order. *)
Definition set_location_msgs (latitude longitude elevation : Q)
  : list Indigo.message :=
  [Indigo.newNumberVector
     (Indigo.Vector device "GEOGRAPHIC_COORDINATES"
        [("LAT", Indigo.Number latitude);
         ("LONG", Indigo.Number longitude);
         ("ELEVATION", Indigo.Number elevation)])].

Definition slew_msgs (direction rate : option string)
  : list Indigo.message :=
  let direction := Py.lower (Py.str_or direction "") in
  slew_rate_msg rate ::
  match axis_of direction with
  | Some a => [motion_on a direction]
  | None => []
  end.

Definition stop_msgs : list Indigo.message :=
  [motion_off DEC; motion_off RA; abort_motion].

Definition park_msgs : list Indigo.message :=
  [switch_vector "MOUNT_PARK" [("PARKED", true); ("UNPARKED", false)]].

Definition unpark_msgs : list Indigo.message :=
  [switch_vector "MOUNT_PARK" [("PARKED", false); ("UNPARKED", true)]].

Definition monitor_msgs : list Indigo.message :=
  map (Indigo.getProperties device)
    ["AGENT_MOUNT_EQUATORIAL_COORDINATES"; "MOUNT_EQUATORIAL_COORDINATES";
     "MOUNT_HORIZONTAL_COORDINATES"; "MOUNT_SLEW_RATE"; "MOUNT_MOTION_RA";
     "MOUNT_MOTION_DEC"; "MOUNT_PARK"].

(** A command's sends against the client: every one with [quiet=True],
    each meeting the next socket outcome of [ios]; an exception ends the
    command. *)
Fixpoint send_all (msgs : list Indigo.message) (ios : list (Py.result unit))
  (c : Indigo.client) : Indigo.client * Py.result unit :=
  match msgs with
  | [] => (c, Py.Ok tt)
  | m :: rest =>
      match Indigo.send m true (hd (Py.Ok tt) ios) c with
      | (c', Py.Ok _) => send_all rest (tl ios) c'
      | (c', Py.Raise e) => (c', Py.Raise e)
      end
  end.

(** ** Pulses *)

(** [ms = max(20, min(int(ms), 5000))] *)
Definition clamp_ms (ms : Z) : Z := Z.max 20 (Z.min ms 5000).

(** Where a pulse thread stands in [_pulse]. *)
Inductive pc : Type :=
| Spawned                        (* started, nothing executed yet *)
| Holding                        (* motion on, in the [while True] loop *)
| Releasing                      (* at the [finally] clause *)
| Done.

(** One pulse thread: the variables its closure captured, its program
    point, [start], and the time its current [time.sleep(0.01)] ends. *)
Record pulse : Type := Pulse {
  direction : string;
  ms : Z;
  rate : option string;
  at_ : pc;
  start : Q;
  wake : Q
}.

(** The controller as the pulse logic sees it.  [pending] is a [nudge]
    call between its two critical sections: its arguments after
    normalisation and the time its ten-millisecond sleep ends.  [sent]
    lists the [client.send] calls with the thread that made them
    ([None] for the caller of the public API). *)
Record mount : Type := MountState {
  _pulse_active : bool;
  pulses : list pulse;
  pending : option (string * Z * option string * Q);
  sent : list (option nat * Indigo.message);
  log : Logger.log_buffer;
  clock : Q
}.

Definition init : mount := MountState false [] None [] [] 0.

(** What the scheduler can let happen next.  Threads interleave at lock
    acquisitions and sleeps; [time.sleep(d)] returns [d] seconds later or
    after that, never before, so a sleeper may run once its wake-up time
    has passed and runs when the scheduler picks it. *)
Inductive action : Type :=
| Tick (dt : Q)                  (* time passes *)
| NudgeEnter (direction : option string) (ms : Z) (rate : option string)
                                 (* nudge(): normalise, clear the flag *)
| NudgeArm                       (* nudge(): after the sleep, set the flag
                                    and start the thread *)
| Stop                           (* stop() *)
| Run (tid : nat).               (* pulse thread [tid] runs to its next
                                    lock acquisition or sleep *)

Definition set_pulse (tid : nat) (p : pulse) (m : mount) : mount :=
  MountState (_pulse_active m) (<[tid := p]> (pulses m)) (pending m)
             (sent m) (log m) (clock m).
Definition set_active (b : bool) (m : mount) : mount :=
  MountState b (pulses m) (pending m) (sent m) (log m) (clock m).
Definition send_as (who : option nat) (msg : Indigo.message) (m : mount)
  : mount :=
  MountState (_pulse_active m) (pulses m) (pending m)
             (sent m ++ [(who, msg)])%list (log m) (clock m).
Definition emit_log (msg : string) (m : mount) : mount :=
  MountState (_pulse_active m) (pulses m) (pending m) (sent m)
             (Logger.logged msg (log m)) (clock m).

Definition at_pc (p : pulse) (l : pc) : pulse :=
  Pulse (direction p) (ms p) (rate p) l (start p) (wake p).

(** Elapsed time test of the hold loop:
    [(time.time() - start) * 1000.0 >= ms]. *)
Definition elapsed (now : Q) (p : pulse) : bool :=
  Qle_bool (inject_Z (ms p)) ((now - start p) * 1000)%Q.

(** One run of pulse thread [tid], standing at [p]. *)
Definition run_pulse (tid : nat) (p : pulse) (m : mount) : option mount :=
  match at_ p with
  | Spawned =>
      let m1 := send_as (Some tid) (slew_rate_msg (rate p)) m in
      match axis_of (direction p) with
      | Some a =>
          let m2 := send_as (Some tid) (motion_on a (direction p)) m1 in
          Some (set_pulse tid
                  (Pulse (direction p) (ms p) (rate p) Holding
                         (clock m) (clock m)) m2)
      | None =>
          Some (set_pulse tid (at_pc p Releasing)
                  (emit_log ("[MOUNT] ERROR invalid nudge direction: "
                             ++ direction p) m1))
      end
  | Holding =>
      if Qle_bool (wake p) (clock m) then
        if negb (_pulse_active m) then Some (set_pulse tid (at_pc p Releasing) m)
        else if elapsed (clock m) p
             then Some (set_pulse tid (at_pc p Releasing) m)
             else Some (set_pulse tid
                          (Pulse (direction p) (ms p) (rate p) Holding
                                 (start p) (clock m + (1 # 100))%Q) m)
      else None
  | Releasing =>
      let m1 := match axis_of (direction p) with
                | Some a => send_as (Some tid) (motion_off a) m
                | None => m
                end in
      Some (set_active false (set_pulse tid (at_pc p Done) m1))
  | Done => None
  end.

(** One scheduler step; [None] when the action cannot happen in [m]. *)
Definition step (a : action) (m : mount) : option mount :=
  match a with
  | Tick dt =>
      if Qle_bool 0 dt
      then Some (MountState (_pulse_active m) (pulses m) (pending m)
                            (sent m) (log m) (clock m + dt)%Q)
      else None
  | NudgeEnter direction_ ms_ rate_ =>
      match pending m with
      | Some _ => None
      | None =>
          let direction_ := Py.lower (Py.str_or direction_ "") in
          let ms_ := clamp_ms ms_ in
          Some (MountState false (pulses m)
                  (Some (direction_, ms_, rate_, (clock m + (1 # 100))%Q))
                  (sent m) (log m) (clock m))
      end
  | NudgeArm =>
      match pending m with
      | Some (direction_, ms_, rate_, awake) =>
          if Qle_bool awake (clock m)
          then Some (MountState true
                       (pulses m ++ [Pulse direction_ ms_ rate_ Spawned 0 0])
                       None (sent m) (log m) (clock m))
          else None
      | None => None
      end
  | Stop =>
      Some (send_as None abort_motion
              (send_as None (motion_off RA)
                 (send_as None (motion_off DEC)
                    (set_active false (emit_log "[MOUNT] Stop motion" m)))))
  | Run tid =>
      match pulses m !! tid with
      | Some p => run_pulse tid p m
      | None => None
      end
  end.

(** A schedule: the actions in order. *)
Fixpoint run (schedule : list action) (m : mount) : option mount :=
  match schedule with
  | [] => Some m
  | a :: rest =>
      match step a m with
      | Some m' => run rest m'
      | None => None
      end
  end.

(** [nudge(direction, ms, rate)] as its caller runs it when no other
    thread is scheduled in between: clear the flag, sleep ([slept], ten
    milliseconds or more), set the flag and start the pulse thread. *)
Definition nudge (direction_ : option string) (ms_ : Z)
  (rate_ : option string) (slept : Q) : list action :=
  [NudgeEnter direction_ ms_ rate_; Tick slept; NudgeArm].

(** The active pulse sessions: the threads that are holding a motion
    switch on. *)
Definition holding (m : mount) : list nat :=
  map fst (List.filter (fun ip => match at_ (snd ip) with
                                  | Holding => true
                                  | _ => false
                                  end)
             (imap (fun i p => (i, p)) (pulses m))).

End Mount.

(* ===================================================================== *)
(** * modules/mount_module.py: the cached state and the switch handler    *)
(* ===================================================================== *)

Module MountCache.

(** [self._state] *)
Record state : Type := State {
  ra_h : option float;
  dec_deg : option float;
  alt_deg : option float;
  az_deg : option float;
  slew_rate : string;
  parked : bool;
  moving_ra : bool;
  moving_dec : bool
}.

(** The dictionary [__init__] builds. *)
Definition initial : state :=
  State None None None None "GUIDE" false false false.

Definition set_slew_rate (r : string) (s : state) : state :=
  State (ra_h s) (dec_deg s) (alt_deg s) (az_deg s) r (parked s)
        (moving_ra s) (moving_dec s).
Definition set_parked (b : bool) (s : state) : state :=
  State (ra_h s) (dec_deg s) (alt_deg s) (az_deg s) (slew_rate s) b
        (moving_ra s) (moving_dec s).
Definition set_moving_ra (b : bool) (s : state) : state :=
  State (ra_h s) (dec_deg s) (alt_deg s) (az_deg s) (slew_rate s) (parked s)
        b (moving_dec s).
Definition set_moving_dec (b : bool) (s : state) : state :=
  State (ra_h s) (dec_deg s) (alt_deg s) (az_deg s) (slew_rate s) (parked s)
        (moving_ra s) b.

(** What the handlers read and write: the cached state, whether a
    socket sink is attached, the [mount_status] events emitted through
    it, and the log. *)
Record view : Type := View {
  _state : state;
  _socketio : bool;
  emitted : list string;
  log : Logger.log_buffer
}.

Definition init : view := View initial false [] [].

Definition with_state (s : state) (v : view) : view :=
  View s (_socketio v) (emitted v) (log v).

(** [get_status()] *)
Definition get_status (v : view) : string :=
  if parked (_state v) then "PARKED"
  else if moving_ra (_state v) || moving_dec (_state v) then "SLEWING"
  else "IDLE".

(** [_emit_status()].  [emit_] is what [_socketio.emit] does when it is
    reached: it returns, or raises; nothing catches the exception, so
    the log line that follows is not written then. *)
Definition _emit_status (emit_ : Py.result unit) (v : view)
  : view * Py.result unit :=
  let status :=
    if parked (_state v) then "PARKED"
    else if moving_ra (_state v) || moving_dec (_state v) then "SLEWING"
    else "IDLE" in
  if _socketio v then
    match emit_ with
    | Py.Ok _ =>
        (View (_state v) (_socketio v) (emitted v ++ [status])%list
              (Logger.logged ("[MOUNT] Status: " ++ status) (log v)),
         Py.Ok tt)
    | Py.Raise e => (v, Py.Raise e)
    end
  else
    (View (_state v) (_socketio v) (emitted v)
          (Logger.logged ("[MOUNT] Status: " ++ status) (log v)),
     Py.Ok tt).

(** [x != s] and [x == s] for a decoded value and a string. *)
Definition ne_str (x : Json.value) (s : string) : bool :=
  match x with
  | Json.Str t => negb (String.eqb t s)
  | _ => true
  end.
Definition eq_str (x : Json.value) (s : string) : bool := negb (ne_str x s).

(** [msg.get(key, default)] on a dictionary. *)
Definition get_or (key : string) (default_ : Json.value) (msg : Json.value)
  : Py.result Json.value :=
  match msg with
  | Json.Obj members => Py.Ok (default default_ (Json.assoc key members))
  | _ => Py.Raise Py.AttributeError
  end.

(** What a [for] loop over a decoded value goes through: the elements
    of a list, the characters of a string, the keys of a dictionary;
    nothing else can be iterated. *)
Definition iterate (x : Json.value) : Py.result (list Json.value) :=
  match x with
  | Json.Arr elements => Py.Ok elements
  | Json.Str s =>
      Py.Ok (map (fun c => Json.Str (String c "")) (list_ascii_of_string s))
  | Json.Obj members => Py.Ok (map (fun kv => Json.Str (fst kv)) members)
  | _ => Py.Raise Py.TypeError
  end.

(** [it[key]] *)
Definition subscript (key : string) (it : Json.value) : Py.result Json.value :=
  match it with
  | Json.Obj members =>
      match Json.assoc key members with
      | Some x => Py.Ok x
      | None => Py.Raise Py.KeyError
      end
  | _ => Py.Raise Py.TypeError
  end.

(** [{it["name"]: it.get("value") for it in ...}], as far as string keys
    can tell: a later item replaces an earlier one of the same name, and
    a name that cannot be hashed raises. *)
Fixpoint items_dict (its : list Json.value) (d : gmap string Json.value)
  : Py.result (gmap string Json.value) :=
  match its with
  | [] => Py.Ok d
  | it :: rest =>
      name ← subscript "name" it;
      value ← Json.get "value" it;
      if negb (Json.hashable name) then Py.Raise Py.TypeError
      else items_dict rest match name with
                           | Json.Str k => <[k := value]> d
                           | _ => d
                           end
  end.

(** [items.get(key, False)] in a condition. *)
Definition item_on (items : gmap string Json.value) (key : string) : bool :=
  match items !! key with
  | Some x => Json.truthy x
  | None => false
  end.

(** [_handle_switch_vector(msg)]; the state is written before
    [_emit_status] runs, so it comes back changed with an exception of
    the emit. *)
Definition _handle_switch_vector (msg : Json.value) (emit_ : Py.result unit)
  (v : view) : view * Py.result unit :=
  match Json.get "device" msg with
  | Py.Raise e => (v, Py.Raise e)
  | Py.Ok dev =>
      if ne_str dev Mount.device then (v, Py.Ok tt)
      else
        match (name ← Json.get "name" msg;
               its ← get_or "items" (Json.Arr []) msg;
               elements ← iterate its;
               items ← items_dict elements ∅;
               Py.Ok (name, items)) with
        | Py.Raise e => (v, Py.Raise e)
        | Py.Ok (name, items) =>
            let s := _state v in
            let s' :=
              if eq_str name "MOUNT_SLEW_RATE" then
                match List.find (item_on items)
                        ["GUIDE"; "CENTERING"; "FIND"; "MAX"] with
                | Some rate => set_slew_rate rate s
                | None => s
                end
              else if eq_str name "MOUNT_MOTION_RA" then
                set_moving_ra (item_on items "WEST" || item_on items "EAST") s
              else if eq_str name "MOUNT_MOTION_DEC" then
                set_moving_dec (item_on items "NORTH" || item_on items "SOUTH")
                               s
              else if eq_str name "MOUNT_PARK" then
                set_parked (item_on items "PARKED") s
              else s in
            _emit_status emit_ (with_state s' v)
        end
  end.

End MountCache.

(* ===================================================================== *)
(** * modules/guide_module.py                                             *)
(* ===================================================================== *)

Module Guide.

(** [GuiderConfig]: the tunables [_guide] reads. *)
Record GuiderConfig : Type := Config {
  lock_radius_px : Z;
  lock_hold_frames : Z;
  deadband_px : Z;
  kp_ms_per_px : Q;
  min_pulse_ms : Z;
  max_pulse_ms : Z;
  min_axis_interval_ms : Z
}.

(** The dataclass defaults. *)
Definition default_config : GuiderConfig :=
  Config 8 10 5 4 40 600 120.

(** One call [mount.nudge(direction, ms=ms, rate="solar")]. *)
Record nudge_call : Type := Nudge {
  direction : string;
  ms : Z;
  rate : string
}.

(** [AutoGuider]: the attributes [_guide] reads and writes, the two
    entries of [_last_pulse_time], and the calls made on the mount,
    oldest first. *)
Record guider : Type := Guider {
  _locked : bool;
  _lock_streak : Z;
  last_pulse_ra : Q;             (* _last_pulse_time["ra"] *)
  last_pulse_dec : Q;            (* _last_pulse_time["dec"] *)
  nudges : list nudge_call
}.

(** [AutoGuider(mount, config)] *)
Definition init : guider := Guider false 0 0 0 [].

(** [int(x)]: truncation toward zero. *)
Definition trunc (x : Q) : Z := Z.quot (Qnum x) (Z.pos (Qden x)).

Definition Qlt_bool (a b : Q) : bool := negb (Qle_bool b a).

(** The lock logic at the head of [_guide]. *)
Definition next_streak (cfg : GuiderConfig) (r : Q) (streak : Z) : Z :=
  if Qle_bool r (inject_Z (lock_radius_px cfg))
  then Z.min (streak + 1) (lock_hold_frames cfg)
  else Z.max (streak - 1) 0.

(** [ms = int(kp * r)], clamped to the pulse range.  The product is a
    product of two doubles, rounded to a double before [int] truncates
    it; [int_of_product kp r] stands for the integer the interpreter
    gets for the doubles of values [kp] and [r]. *)
Definition pulse_ms (int_of_product : Q -> Q -> Z) (cfg : GuiderConfig)
  (r : Q) : Z :=
  Z.max (min_pulse_ms cfg)
        (Z.min (int_of_product (kp_ms_per_px cfg) r) (max_pulse_ms cfg)).

(** [int(kp * r)] where the product of the two doubles is exact, as it
    is for a gain that is a power of two (the default gain is 4.0). *)
Definition int_of_exact_product (kp r : Q) : Z := trunc (kp * r).

(** The refractory test of one axis:
    [(now - last) * 1000.0 >= min_axis_interval_ms]. *)
Definition rested (cfg : GuiderConfig) (now last : Q) : bool :=
  Qle_bool (inject_Z (min_axis_interval_ms cfg)) ((now - last) * 1000).

(** [abs(d) > deadband_px] *)
Definition off_axis (cfg : GuiderConfig) (d : Q) : bool :=
  Qlt_bool (inject_Z (deadband_px cfg)) (Qabs d).

(** [_guide(dx, dy, r)], run at wall-clock time [now]. *)
Definition _guide (int_of_product : Q -> Q -> Z) (cfg : GuiderConfig)
  (now dx dy r : Q) (g : guider) : guider :=
  let streak := next_streak cfg r (_lock_streak g) in
  let locked := lock_hold_frames cfg <=? streak in
  let g1 := Guider locked streak (last_pulse_ra g) (last_pulse_dec g)
                   (nudges g) in
  if Qle_bool r (inject_Z (deadband_px cfg)) then g1
  else
    let ms_ := pulse_ms int_of_product cfg r in
    let g2 :=
      if off_axis cfg dx && rested cfg now (last_pulse_ra g1) then
        let ra_dir := if Qlt_bool 0 dx then "east" else "west" in
        Guider (_locked g1) (_lock_streak g1) now (last_pulse_dec g1)
               (nudges g1 ++ [Nudge ra_dir ms_ "solar"])
      else g1 in
    if off_axis cfg dy && rested cfg now (last_pulse_dec g2) then
      let dec_dir := if Qlt_bool 0 dy then "south" else "north" in
      Guider (_locked g2) (_lock_streak g2) (last_pulse_ra g2) now
             (nudges g2 ++ [Nudge dec_dir ms_ "solar"])
    else g2.

(** One found frame: the time of the iteration and the error vector. *)
Record frame : Type := Frame { at_time : Q; dx : Q; dy : Q; r : Q }.

(** Successive iterations of the loop that found the target. *)
Definition guide_frames (int_of_product : Q -> Q -> Z) (cfg : GuiderConfig)
  (frames : list frame) (g : guider) : guider :=
  fold_left (fun g f => _guide int_of_product cfg (at_time f) (dx f) (dy f)
                               (r f) g)
            frames g.

(** The calls made on one axis. *)
Definition on_axis (a : Mount.axis) (c : nudge_call) : bool :=
  match Mount.axis_of (direction c), a with
  | Some Mount.RA, Mount.RA | Some Mount.DEC, Mount.DEC => true
  | _, _ => false
  end.

Definition calls_on (a : Mount.axis) (g : guider) : list nudge_call :=
  List.filter (on_axis a) (nudges g).

(** A correction opportunity on an axis: the error is outside the
    deadband, overall and along that axis. *)
Definition opportunity (cfg : GuiderConfig) (a : Mount.axis) (f : frame)
  : bool :=
  negb (Qle_bool (r f) (inject_Z (deadband_px cfg)))
  && off_axis cfg (match a with Mount.RA => dx f | Mount.DEC => dy f end).

Definition last_pulse (a : Mount.axis) (g : guider) : Q :=
  match a with Mount.RA => last_pulse_ra g | Mount.DEC => last_pulse_dec g end.

(** [_odd(n)]: [n if n % 2 else n + 1] *)
Definition _odd (n : Z) : Z := if n mod 2 =? 0 then n + 1 else n.

(** The contour choice of [_process_frame], on the list of
    [cv2.contourArea] values: the loop keeps the index of the best
    contour so far and its area, starting from no contour and area 0. *)
Fixpoint choose_contour (min_contour_area : Z) (areas : list Q) (i : nat)
  (best : option nat) (best_area : Q) : option nat * Q :=
  match areas with
  | [] => (best, best_area)
  | a :: rest =>
      if Qlt_bool best_area a && Qle_bool (inject_Z min_contour_area) a
      then choose_contour min_contour_area rest (S i) (Some i) a
      else choose_contour min_contour_area rest (S i) best best_area
  end.

Definition best_contour (cfg_min_contour_area : Z) (areas : list Q)
  : option nat :=
  fst (choose_contour cfg_min_contour_area areas 0 None 0).

End Guide.

(* ===================================================================== *)
(** * Vocabulary of the properties                                        *)
(* ===================================================================== *)

(** Every pulse, started or about to be, carries a clamped duration. *)
Definition durations_clamped (m : Mount.mount) : Prop :=
  Forall (fun p => 20 <= Mount.ms p <= 5000) (Mount.pulses m)
  /\ match Mount.pending m with
     | Some (_, ms_, _, _) => 20 <= ms_ <= 5000
     | None => True
     end.

(** Every pulse thread that has ended after turning a motion switch on
    has sent the switch-off for its axis. *)
Definition released_when_done (m : Mount.mount) : Prop :=
  forall tid p a,
    Mount.pulses m !! tid = Some p ->
    Mount.at_ p = Mount.Done ->
    Mount.axis_of (Mount.direction p) = Some a ->
    In (Some tid, Mount.motion_off a) (Mount.sent m).

(** A frame inside the lock radius. *)
Definition centred (cfg : Guide.GuiderConfig) (f : Guide.frame) : Prop :=
  (Guide.r f <= inject_Z (Guide.lock_radius_px cfg))%Q.

(** The second of two instants is inside the refractory interval that
    starts at the first. *)
Definition within_refractory (cfg : Guide.GuiderConfig) (t1 t2 : Q) : Prop :=
  ((t2 - t1) * 1000 < inject_Z (Guide.min_axis_interval_ms cfg))%Q.

(** The client [server_module] creates. *)
Definition indigo_client : Indigo.client :=
  Indigo.init Config.RASPBERRY_PI_IP.

(** A peer that refuses every connection. *)
Definition refusing : nat -> option Py.exn :=
  fun _ => Some Py.ConnectionRefusedError.

(** Wire text: a line feed, a quoted JSON string, and one update of the
    mount agent as one JSON line. *)
Definition lf : string := String Py.nl "".

Definition quoted (s : string) : string :=
  String Json.quote (s ++ String Json.quote "").

Definition coordinate_update : string :=
  "{" ++ quoted "action" ++ ": " ++ quoted "setNumberVector" ++ ", "
  ++ quoted "device" ++ ": " ++ quoted "Mount Agent" ++ "}".

(** The board's acknowledgement of a dome command, as one received chunk
    at time 0. *)
Definition dome_reply (degrees : string) : Arduino.io :=
  Arduino.IO 0 None None [Arduino.Chunk ("dome:" ++ degrees ++ lf)].

(** A client with a live connection and the mount's callback for
    number vectors. *)
Definition listening_client : Indigo.client :=
  Indigo.on "setNumberVector" 1%nat
    (Indigo.set_connected true (Indigo.set_sock true indigo_client)).

(** What a socket call can do: succeed, or fail with an [OSError]
    (closed socket, broken pipe, refused or reset connection,
    timeout). *)
Definition io_outcome (io : Py.result unit) : Prop :=
  match io with
  | Py.Ok _ => True
  | Py.Raise e => Py.isinstance e Py.OSError = true
  end.

(** The dome status of the data model, and the text each member is
    stored as in [state["dome"]]: the initial value of the
    configuration and the three texts the poll loop writes. *)
Inductive DomeStatus : Type :=
| Open
| Closed
| Moving (angleDeg : Z)
| Unknown.

Definition dome_text (d : DomeStatus) : string :=
  match d with
  | Open => "OPEN"
  | Closed => "CLOSED"
  | Moving angleDeg => "Moving (" ++ Py.str_of_int angleDeg ++ "°)"
  | Unknown => "UNKNOWN"
  end.

Definition is_dome_status (v : Arduino.pyval) : Prop :=
  exists d, v = Arduino.PStr (dome_text d).

(** The poll loop's classification, as a member of the enum. *)
Definition classify (dome_pos : Z) : DomeStatus :=
  if 170 <=? dome_pos then Open
  else if dome_pos <=? 10 then Closed
  else Moving dome_pos.

(** Two [nudge] calls 5 ms apart in wall-clock terms: the first pulse
    polls once, the second call clears the flag while that pulse sleeps
    and sets it again 10 ms later, the pulse wakes 5 ms late from its
    10 ms sleep and finds the flag set. *)
Definition overlap_schedule : list Mount.action :=
  [ Mount.NudgeEnter (Some "east") 5000 None;
    Mount.Tick (1 # 100);
    Mount.NudgeArm;                (* t = 10 ms: pulse 0 started *)
    Mount.Run 0;                   (* pulse 0: rate, EAST on, enters its loop *)
    Mount.Run 0;                   (* pulse 0 polls, sleeps until t = 20 ms *)
    Mount.Tick (5 # 1000);
    Mount.NudgeEnter (Some "west") 5000 None;
                                   (* t = 15 ms: flag cleared *)
    Mount.Tick (1 # 100);
    Mount.NudgeArm;                (* t = 25 ms: flag set, pulse 1 started *)
    Mount.Run 0;                   (* pulse 0 polls at t = 25 ms: flag set *)
    Mount.Run 1 ].                 (* pulse 1: rate, WEST on, enters its loop *)

(** The same overlap with no late wake-up: the second call arrives
    before the first pulse thread has run at all. *)
Definition early_overlap_schedule : list Mount.action :=
  [ Mount.NudgeEnter (Some "east") 5000 None;
    Mount.Tick (1 # 100);
    Mount.NudgeArm;
    Mount.NudgeEnter (Some "west") 5000 None;
    Mount.Tick (1 # 100);
    Mount.NudgeArm;
    Mount.Run 0; Mount.Run 0;
    Mount.Run 1; Mount.Run 1 ].

(** Whether an iteration corrects an axis: it is an opportunity there
    and the axis has rested; and the call it then makes. *)
Definition fires (cfg : Guide.GuiderConfig) (a : Mount.axis)
  (f : Guide.frame) (g : Guide.guider) : bool :=
  Guide.opportunity cfg a f
  && Guide.rested cfg (Guide.at_time f) (Guide.last_pulse a g).

Definition correction (int_of_product : Q -> Q -> Z)
  (cfg : Guide.GuiderConfig) (a : Mount.axis) (f : Guide.frame)
  : Guide.nudge_call :=
  Guide.Nudge
    match a with
    | Mount.RA => if Guide.Qlt_bool 0 (Guide.dx f) then "east" else "west"
    | Mount.DEC => if Guide.Qlt_bool 0 (Guide.dy f) then "south" else "north"
    end
    (Guide.pulse_ms int_of_product cfg (Guide.r f)) "solar".

Definition corrections (int_of_product : Q -> Q -> Z)
  (cfg : Guide.GuiderConfig) (f : Guide.frame) (g : Guide.guider)
  : list Guide.nudge_call :=
  ((if fires cfg Mount.RA f g
    then [correction int_of_product cfg Mount.RA f] else [])
   ++ (if fires cfg Mount.DEC f g
       then [correction int_of_product cfg Mount.DEC f] else []))%list.

(** One guider iteration on a found frame. *)
Definition guide_frame (int_of_product : Q -> Q -> Z)
  (cfg : Guide.GuiderConfig) (f : Guide.frame) (g : Guide.guider)
  : Guide.guider :=
  Guide._guide int_of_product cfg (Guide.at_time f) (Guide.dx f)
    (Guide.dy f) (Guide.r f) g.

(** A frame outside the lock radius. *)
Definition off_centre (cfg : Guide.GuiderConfig) (f : Guide.frame) : Prop :=
  (inject_Z (Guide.lock_radius_px cfg) < Guide.r f)%Q.

(** A call the mount takes as it is: a direction it knows, the solar
    rate, a duration inside the guider's pulse range that the mount's own
    clamp leaves alone. *)
Definition accepted_call (cfg : Guide.GuiderConfig) (c : Guide.nudge_call)
  : Prop :=
  Guide.min_pulse_ms cfg <= Guide.ms c <= Guide.max_pulse_ms cfg
  /\ Mount.clamp_ms (Guide.ms c) = Guide.ms c
  /\ Guide.rate c = "solar"
  /\ Mount.axis_of (Py.lower (Py.str_or (Some (Guide.direction c)) ""))
     <> None.

(** The lock state the code keeps: the streak stays between 0 and the
    hold count, and [locked] says the streak is at the hold count. *)
Definition lock_consistent (cfg : Guide.GuiderConfig) (g : Guide.guider)
  : Prop :=
  0 <= Guide._lock_streak g <= Guide.lock_hold_frames cfg
  /\ Guide._locked g
     = (Guide._lock_streak g =? Guide.lock_hold_frames cfg).

(** The messages written to the socket, oldest first. *)
Definition written (c : Indigo.client) : list Indigo.message :=
  flat_map (fun e => match e with
                     | Indigo.Wrote m => [m]
                     | _ => []
                     end) (Indigo.trace c).

(** A use of the client: one of its methods called by the application,
    or its listener thread running on through some socket events. *)
Inductive client_call : Type :=
| CallConnect (peer : nat -> option Py.exn) (max_retries : Z)
| CallSend (m : Indigo.message) (quiet : bool) (io : Py.result unit)
| CallOn (kind : string) (callback : nat)
| CallClose
| CallListen (evs : list Indigo.sock_event) (buffer : string).

Definition call (json_loads : string -> option Json.value)
  (py_str : Json.value -> string) (k : client_call) (c : Indigo.client)
  : Indigo.client :=
  match k with
  | CallConnect peer max_retries => fst (Indigo.connect peer max_retries c)
  | CallSend m quiet io => fst (Indigo.send m quiet io c)
  | CallOn kind callback => Indigo.on kind callback c
  | CallClose => Indigo.close c
  | CallListen evs buffer =>
      fst (Indigo._listen_loop json_loads py_str evs buffer c)
  end.

Definition calls (json_loads : string -> option Json.value)
  (py_str : Json.value -> string) (ks : list client_call)
  (c : Indigo.client) : Indigo.client :=
  fold_left (fun c k => call json_loads py_str k c) ks c.

(** The events of [k] refused attempts: each is the attempt and the
    sleep before the next. *)
Definition refused_attempts (k : nat) (interval : Z) : list Indigo.event :=
  concat (replicate k [Indigo.ConnectAttempt; Indigo.Slept interval]).

(** The writes of a command that succeed before the first one that
    fails, out of [n] writes meeting the socket outcomes [ios]. *)
Fixpoint writes_before_failure (n : nat) (ios : list (Py.result unit))
  : nat :=
  match n with
  | O => O
  | S n' =>
      match hd (Py.Ok tt) ios with
      | Py.Ok _ => S (writes_before_failure n' (tl ios))
      | Py.Raise _ => O
      end
  end.

(** No connection attempt and no write between two states of the
    client. *)
Definition no_traffic (c c' : Indigo.client) : Prop :=
  Indigo.attempts c' = Indigo.attempts c /\ written c' = written c.

(** The dictionary of an outbound message, as the commands build it:
    the verb is the only top-level key. *)
Definition wire_item (it : string * Indigo.item_value) : Json.value :=
  Json.Obj [("name", Json.Str (fst it));
            ("value", match snd it with
                      | Indigo.Switch b => Json.Bool b
                      | Indigo.Number x => Json.Num x
                      end)].

Definition wire_vector (v : Indigo.vector) : Json.value :=
  Json.Obj [("device", Json.Str (Indigo.device v));
            ("name", Json.Str (Indigo.name v));
            ("items", Json.Arr (map wire_item (Indigo.items v)))].

Definition wire (m : Indigo.message) : Json.value :=
  match m with
  | Indigo.newNumberVector v =>
      Json.Obj [("newNumberVector", wire_vector v)]
  | Indigo.newSwitchVector v =>
      Json.Obj [("newSwitchVector", wire_vector v)]
  | Indigo.getProperties dev nm =>
      Json.Obj [("getProperties",
                 Json.Obj [("device", Json.Str dev); ("name", Json.Str nm)])]
  end.

(** A use of the actuator module: a public call, one turn of the poll
    loop (which only waits when [poll_once] gives nothing), or one
    wake-up of the idle watcher. *)
Inductive arduino_call : Type :=
| ASend (message_ : string) (x : Arduino.io)
| ASetDome (state_cmd : string) (x : Arduino.io) (stamp : string)
| ASetEtalon (index value : Z) (x : Arduino.io) (stamp : string)
| APoll (reconnect : option Py.exn) (x : Arduino.io) (stamp : string)
| AIdle (t : Q).

Definition arduino_call_on (k : arduino_call) (w : Arduino.world)
  : Arduino.world :=
  match k with
  | ASend message_ x => fst (Arduino.send message_ x w)
  | ASetDome state_cmd x stamp => fst (Arduino.set_dome state_cmd x stamp w)
  | ASetEtalon index value x stamp =>
      fst (Arduino.set_etalon index value x stamp w)
  | APoll reconnect x stamp =>
      default w (Arduino.poll_once reconnect x stamp w)
  | AIdle t => Arduino.idle_watch t w
  end.

Definition arduino_calls (ks : list arduino_call) (w : Arduino.world)
  : Arduino.world :=
  fold_left (fun w k => arduino_call_on k w) ks w.

(** The client has stopped retrying: [_connect] returns at once. *)
Definition gave_up (w : Arduino.world) : Prop :=
  Arduino.max_warns (Arduino._client w)
  <= Arduino.fail_count (Arduino._client w).

(** What the module keeps true of its client: failures are counted from
    0 up to [max_warns], and while any are counted there is no socket and
    the board is marked disconnected. *)
Definition client_consistent (w : Arduino.world) : Prop :=
  0 < Arduino.max_warns (Arduino._client w)
  /\ 0 <= Arduino.fail_count (Arduino._client w)
       <= Arduino.max_warns (Arduino._client w)
  /\ (Arduino.fail_count (Arduino._client w) = 0
      \/ (Arduino.sock (Arduino._client w) = false
          /\ Arduino.state_truthy (Arduino.state w) "connected" = false)).

(** The text of some received chunks put together. *)
Definition joined (parts : list string) : string :=
  fold_right String.append "" parts.

(** The messages one pulse thread has sent, oldest first. *)
Definition sent_by (tid : nat) (m : Mount.mount) : list Indigo.message :=
  map snd (List.filter (fun wm => match fst wm with
                                  | Some t => Nat.eqb t tid
                                  | None => false
                                  end) (Mount.sent m)).

(** What a pulse thread standing at its program point has sent: the slew
    rate, then, for a direction the mount knows, the motion switch on,
    and once it has ended the same switch off. *)
Definition pulse_sends (p : Mount.pulse) : list Indigo.message :=
  match Mount.at_ p with
  | Mount.Spawned => []
  | Mount.Holding | Mount.Releasing =>
      Mount.slew_rate_msg (Mount.rate p)
      :: match Mount.axis_of (Mount.direction p) with
         | Some a => [Mount.motion_on a (Mount.direction p)]
         | None => []
         end
  | Mount.Done =>
      Mount.slew_rate_msg (Mount.rate p)
      :: match Mount.axis_of (Mount.direction p) with
         | Some a => [Mount.motion_on a (Mount.direction p);
                      Mount.motion_off a]
         | None => []
         end
  end.

(** Every pulse thread has sent what its program point says, a thread in
    its hold loop has a direction the mount knows, and nothing is
    attributed to a thread that does not exist. *)
Definition pulses_follow_protocol (m : Mount.mount) : Prop :=
  forall tid,
    match Mount.pulses m !! tid with
    | Some p =>
        sent_by tid m = pulse_sends p
        /\ (Mount.at_ p = Mount.Holding ->
            Mount.axis_of (Mount.direction p) <> None)
    | None => sent_by tid m = []
    end.

(** The dictionary a command puts under the verb of a message: device,
    name and, for a vector, items. *)
Definition payload (m : Indigo.message) : Json.value :=
  match m with
  | Indigo.newNumberVector v | Indigo.newSwitchVector v => wire_vector v
  | Indigo.getProperties dev nm =>
      Json.Obj [("device", Json.Str dev); ("name", Json.Str nm)]
  end.

(** A decoded message that carries the vector [m] writes: the handler's
    three reads give that vector's device, name and items, whatever
    else the message holds. *)
Definition carries (m : Indigo.message) (msg : Json.value) : Prop :=
  match m with
  | Indigo.newNumberVector v | Indigo.newSwitchVector v =>
      Json.get "device" msg = Py.Ok (Json.Str (Indigo.device v))
      /\ Json.get "name" msg = Py.Ok (Json.Str (Indigo.name v))
      /\ MountCache.get_or "items" (Json.Arr []) msg
         = Py.Ok (Json.Arr (map wire_item (Indigo.items v)))
  | Indigo.getProperties _ _ => False
  end.

(** The switch handler called on some decoded messages in turn, each
    status emit returning; an exception ends the run. *)
Fixpoint handled (msgs : list Json.value) (v : MountCache.view)
  : MountCache.view * Py.result unit :=
  match msgs with
  | [] => (v, Py.Ok tt)
  | msg :: rest =>
      match MountCache._handle_switch_vector msg (Py.Ok tt) v with
      | (v', Py.Ok _) => handled rest v'
      | (v', Py.Raise e) => (v', Py.Raise e)
      end
  end.

Definition set_moving (a : Mount.axis) (b : bool) (s : MountCache.state)
  : MountCache.state :=
  match a with
  | Mount.RA => MountCache.set_moving_ra b s
  | Mount.DEC => MountCache.set_moving_dec b s
  end.

(** A cached state that differs from another in one flag at most. *)
Definition one_flag_apart (s s' : MountCache.state) : Prop :=
  s' = s
  \/ (exists r, In r ["GUIDE"; "CENTERING"; "FIND"; "MAX"]
                /\ s' = MountCache.set_slew_rate r s)
  \/ (exists b, s' = MountCache.set_moving_ra b s)
  \/ (exists b, s' = MountCache.set_moving_dec b s)
  \/ (exists b, s' = MountCache.set_parked b s).

(** A call that does not raise the retry limit above [N]. *)
Definition within_retries (N : Z) (k : client_call) : Prop :=
  match k with
  | CallConnect _ max_retries => max_retries <= N
  | _ => True
  end.

(* ===================================================================== *)
(** * Properties: coordinate formatting                                   *)
(* ===================================================================== *)

Section Formatting.

(** C8.  The coordinate formatters are functions of their argument, and
    on the documented inputs they give: [format_ra(None)] the
    placeholder, [format_ra(13.5)] = 13:30:00.00, [format_dec(-5.25)] =
    -05:15:00.00 and [format_dec(None)] the placeholder. *)
Theorem format_coordinates_examples :
  Mount.format_ra None = Py.Ok "--:--:--"
  /\ Mount.format_ra (Some 13.5%float) = Py.Ok "13:30:00.00"
  /\ Mount.format_dec (Some (-5.25)%float) = Py.Ok "-05:15:00.00"
  /\ Mount.format_dec None = Py.Ok "--:--:--".
Proof.
  split; [reflexivity|].
  split; [vm_compute; reflexivity|].
  split; [vm_compute; reflexivity|reflexivity].
Qed.

(** The sign of a declination is always printed, and seconds are not
    carried into the minutes. *)
Example format_dec_positive :
  Mount.format_dec (Some 35.5%float) = Py.Ok "+35:30:00.00".
Proof. vm_compute; reflexivity. Qed.

Example format_ra_not_a_number :
  Mount.format_ra (Some PrimFloat.nan) = Py.Raise Py.ValueError.
Proof. vm_compute; reflexivity. Qed.

End Formatting.

(* ===================================================================== *)
(** * Properties: the pulse duration clamp                                *)
(* ===================================================================== *)

Section Clamp.

Lemma clamp_ms_range (d : Z) : 20 <= Mount.clamp_ms d <= 5000.
Proof. unfold Mount.clamp_ms. lia. Qed.

Lemma clamp_ms_fixed (d : Z) : 20 <= d <= 5000 -> Mount.clamp_ms d = d.
Proof. unfold Mount.clamp_ms. lia. Qed.

Lemma clamp_ms_idempotent (d : Z) :
  Mount.clamp_ms (Mount.clamp_ms d) = Mount.clamp_ms d.
Proof. apply clamp_ms_fixed, clamp_ms_range. Qed.

Lemma clamp_ms_monotone (d1 d2 : Z) :
  d1 <= d2 -> Mount.clamp_ms d1 <= Mount.clamp_ms d2.
Proof. unfold Mount.clamp_ms. lia. Qed.

Lemma durations_clamped_init : durations_clamped Mount.init.
Proof. split; [constructor | exact I]. Qed.

Lemma run_pulse_keeps_durations tid p m m' :
  Mount.pulses m !! tid = Some p ->
  Mount.run_pulse tid p m = Some m' ->
  durations_clamped m -> durations_clamped m'.
Proof.
  intros Hp Hrun [Hall Hpend].
  assert (Hms : 20 <= Mount.ms p <= 5000).
  { eapply Forall_lookup_1 in Hall; eauto. }
  unfold Mount.run_pulse in Hrun.
  destruct (Mount.at_ p);
    repeat match type of Hrun with
      | context [match ?b with _ => _ end] => destruct b
      end;
    try discriminate; injection Hrun as <-;
    (split; [cbn; apply Forall_insert; [assumption | exact Hms]
            | exact Hpend]).
Qed.

Lemma step_keeps_durations a m m' :
  Mount.step a m = Some m' -> durations_clamped m -> durations_clamped m'.
Proof.
  intros Hstep Hinv. destruct a as [dt|d ms_ r| | |tid]; cbn in Hstep.
  - destruct (Qle_bool 0 dt); [|discriminate]. injection Hstep as <-.
    exact Hinv.
  - destruct (Mount.pending m) eqn:E; [discriminate|].
    injection Hstep as <-. destruct Hinv as [Hall _].
    split; [exact Hall | cbn; apply clamp_ms_range].
  - destruct Hinv as [Hall Hpend].
    destruct (Mount.pending m) as [[[[d ms_] r] awake]|]; [|discriminate].
    destruct (Qle_bool awake (Mount.clock m)); [|discriminate].
    injection Hstep as <-. split; [|exact I]. cbn.
    apply Forall_app; split; [exact Hall|]. constructor; [exact Hpend|constructor].
  - injection Hstep as <-. exact Hinv.
  - destruct (Mount.pulses m !! tid) as [p|] eqn:E; [|discriminate].
    eapply run_pulse_keeps_durations; eauto.
Qed.

Lemma run_keeps_durations schedule : forall m m',
  Mount.run schedule m = Some m' -> durations_clamped m -> durations_clamped m'.
Proof.
  induction schedule as [|a rest IH]; intros m m' Hrun Hinv; cbn in Hrun.
  - injection Hrun as <-. exact Hinv.
  - destruct (Mount.step a m) as [m1|] eqn:E; [|discriminate].
    eapply IH; [exact Hrun|]. eapply step_keeps_durations; eauto.
Qed.

(** The hold loop of an uncancelled pulse, at a poll. *)
Lemma hold_poll_continues tid p m :
  Mount.pulses m !! tid = Some p ->
  Mount.at_ p = Mount.Holding ->
  Mount._pulse_active m = true ->
  (Mount.wake p <= Mount.clock m)%Q ->
  ((Mount.clock m - Mount.start p) * 1000 < inject_Z (Mount.ms p))%Q ->
  exists m' p',
    Mount.step (Mount.Run tid) m = Some m'
    /\ Mount.pulses m' !! tid = Some p'
    /\ Mount.at_ p' = Mount.Holding.
Proof.
  intros Hp Hat Hact Hwake Hlt. cbn. rewrite Hp.
  unfold Mount.run_pulse. rewrite Hat, Hact.
  apply Qle_bool_iff in Hwake. rewrite Hwake. cbn.
  destruct (Mount.elapsed _ _) eqn:E.
  - unfold Mount.elapsed in E. apply Qle_bool_iff in E.
    exfalso. eapply Qlt_not_le; eauto.
  - eexists _, _. split; [reflexivity|]. cbn.
    split; [apply list_lookup_insert_eq; eapply lookup_lt_Some; eauto|].
    reflexivity.
Qed.

Lemma hold_poll_releases tid p m :
  Mount.pulses m !! tid = Some p ->
  Mount.at_ p = Mount.Holding ->
  (Mount.wake p <= Mount.clock m)%Q ->
  (inject_Z (Mount.ms p) <= (Mount.clock m - Mount.start p) * 1000)%Q ->
  exists m' p',
    Mount.step (Mount.Run tid) m = Some m'
    /\ Mount.pulses m' !! tid = Some p'
    /\ Mount.at_ p' = Mount.Releasing.
Proof.
  intros Hp Hat Hwake Hge. cbn. rewrite Hp.
  unfold Mount.run_pulse. rewrite Hat.
  apply Qle_bool_iff in Hwake. rewrite Hwake.
  unfold Mount.elapsed. apply Qle_bool_iff in Hge. rewrite Hge.
  destruct (negb (Mount._pulse_active m));
    (eexists _, _; split; [reflexivity|]; cbn;
     split; [apply list_lookup_insert_eq; eapply lookup_lt_Some; eauto|];
     reflexivity).
Qed.

(** C9.  The duration clamp of [nudge] is idempotent and monotone and
    lands in 20..5000; every pulse of every reachable controller state
    carries such a duration; and the hold loop honours it: while the
    pulse is not cancelled, a poll before 20 ms have elapsed keeps
    holding, and a poll at 5000 ms or later releases. *)
Theorem nudge_duration_clamped :
  (forall d, Mount.clamp_ms (Mount.clamp_ms d) = Mount.clamp_ms d)
  /\ (forall d1 d2, d1 <= d2 -> Mount.clamp_ms d1 <= Mount.clamp_ms d2)
  /\ (forall d, 20 <= Mount.clamp_ms d <= 5000)
  /\ (forall schedule m p,
        Mount.run schedule Mount.init = Some m ->
        In p (Mount.pulses m) -> 20 <= Mount.ms p <= 5000)
  /\ (forall schedule m tid p,
        Mount.run schedule Mount.init = Some m ->
        Mount.pulses m !! tid = Some p ->
        Mount.at_ p = Mount.Holding ->
        (Mount.wake p <= Mount.clock m)%Q ->
        (Mount._pulse_active m = true ->
         ((Mount.clock m - Mount.start p) * 1000 < 20)%Q ->
         exists m' p',
           Mount.step (Mount.Run tid) m = Some m'
           /\ Mount.pulses m' !! tid = Some p'
           /\ Mount.at_ p' = Mount.Holding)
        /\ ((5000 <= (Mount.clock m - Mount.start p) * 1000)%Q ->
            exists m' p',
              Mount.step (Mount.Run tid) m = Some m'
              /\ Mount.pulses m' !! tid = Some p'
              /\ Mount.at_ p' = Mount.Releasing)).
Proof.
  split; [exact clamp_ms_idempotent|].
  split; [exact clamp_ms_monotone|].
  split; [exact clamp_ms_range|].
  assert (Hreach : forall schedule m p,
             Mount.run schedule Mount.init = Some m ->
             In p (Mount.pulses m) -> 20 <= Mount.ms p <= 5000).
  { intros schedule m p Hrun Hin.
    destruct (run_keeps_durations _ _ _ Hrun durations_clamped_init)
      as [Hall _].
    rewrite List.Forall_forall in Hall. apply Hall, Hin. }
  split; [exact Hreach|].
  intros schedule m tid p Hrun Hp Hat Hwake.
  assert (Hms : 20 <= Mount.ms p <= 5000).
  { eapply Hreach; [exact Hrun|].
    apply list_elem_of_In. eapply list_elem_of_lookup_2; eauto. }
  split.
  - intros Hact Hlt. eapply hold_poll_continues; eauto.
    eapply Qlt_le_trans; [exact Hlt|].
    change (inject_Z 20 <= inject_Z (Mount.ms p))%Q.
    rewrite <- Zle_Qle. lia.
  - intros Hge. eapply hold_poll_releases; eauto.
    eapply Qle_trans; [|exact Hge].
    change (inject_Z (Mount.ms p) <= inject_Z 5000)%Q.
    rewrite <- Zle_Qle. lia.
Qed.

End Clamp.

(* ===================================================================== *)
(** * Properties: the guider's lock and refractory logic                  *)
(* ===================================================================== *)

Section Guider.

Variable int_of_product : Q -> Q -> Z.
Variable cfg : Guide.GuiderConfig.

(** The lock logic does not depend on the correction policy. *)
Lemma guide_streak now dx dy r g :
  Guide._lock_streak (Guide._guide int_of_product cfg now dx dy r g)
  = Guide.next_streak cfg r (Guide._lock_streak g).
Proof.
  unfold Guide._guide.
  repeat match goal with
    | |- context [if ?b then _ else _] => destruct b
    end; reflexivity.
Qed.

Lemma guide_locked now dx dy r g :
  Guide._locked (Guide._guide int_of_product cfg now dx dy r g)
  = (Guide.lock_hold_frames cfg
     <=? Guide.next_streak cfg r (Guide._lock_streak g)).
Proof.
  unfold Guide._guide.
  repeat match goal with
    | |- context [if ?b then _ else _] => destruct b
    end; reflexivity.
Qed.

Lemma next_streak_centred r streak :
  (r <= inject_Z (Guide.lock_radius_px cfg))%Q ->
  Guide.next_streak cfg r streak
  = Z.min (streak + 1) (Guide.lock_hold_frames cfg).
Proof.
  intros H. unfold Guide.next_streak.
  apply Qle_bool_iff in H. rewrite H. reflexivity.
Qed.

Lemma next_streak_off r streak :
  (inject_Z (Guide.lock_radius_px cfg) < r)%Q ->
  Guide.next_streak cfg r streak = Z.max (streak - 1) 0.
Proof.
  intros H. unfold Guide.next_streak.
  destruct (Qle_bool r _) eqn:E; [|reflexivity].
  apply Qle_bool_iff in E. exfalso. eapply Qlt_not_le; eauto.
Qed.

(** The streak after a run of centred frames: one more per frame, capped
    at the hold count. *)
Lemma streak_after_centred frames : forall g,
  Forall (centred cfg) frames ->
  0 <= Guide._lock_streak g <= Guide.lock_hold_frames cfg ->
  Guide._lock_streak (Guide.guide_frames int_of_product cfg frames g)
  = Z.min (Guide._lock_streak g + Z.of_nat (length frames))
          (Guide.lock_hold_frames cfg).
Proof.
  induction frames as [|f rest IH]; intros g Hall Hs.
  - cbn. lia.
  - inversion Hall as [|? ? Hf Hrest]; subst.
    change (Guide.guide_frames int_of_product cfg (f :: rest) g)
      with (Guide.guide_frames int_of_product cfg rest
              (Guide._guide int_of_product cfg (Guide.at_time f) (Guide.dx f)
                            (Guide.dy f) (Guide.r f) g)).
    rewrite IH; [|exact Hrest|];
      rewrite guide_streak, (next_streak_centred _ _ Hf).
    + cbn [length]. lia.
    + lia.
Qed.

Lemma locked_after_frames frames f g :
  Guide._locked (Guide.guide_frames int_of_product cfg (frames ++ [f]) g)
  = (Guide.lock_hold_frames cfg
     <=? Guide.next_streak cfg (Guide.r f)
           (Guide._lock_streak (Guide.guide_frames int_of_product cfg frames g))).
Proof.
  unfold Guide.guide_frames. rewrite fold_left_app. cbn.
  apply guide_locked.
Qed.

(** C2, as the code has it.  From a fresh guider with a hold count of at
    least one, a run of centred frames makes [locked] true exactly at
    the hold-count-th frame (false after fewer, true from then on); one
    frame outside the lock radius after that takes the streak down by
    one, to hold count minus one, and clears [locked] in that same
    iteration. *)
Theorem lock_acquired_at_hold_count_lost_at_first_miss :
  1 <= Guide.lock_hold_frames cfg ->
  forall frames, Forall (centred cfg) frames ->
    Guide._locked (Guide.guide_frames int_of_product cfg frames Guide.init)
    = (Guide.lock_hold_frames cfg <=? Z.of_nat (length frames))
    /\ forall miss,
        Guide.lock_hold_frames cfg <= Z.of_nat (length frames) ->
        (inject_Z (Guide.lock_radius_px cfg) < Guide.r miss)%Q ->
        let g := Guide.guide_frames int_of_product cfg (frames ++ [miss]) Guide.init in
        Guide._lock_streak g = Guide.lock_hold_frames cfg - 1
        /\ Guide._locked g = false.
Proof.
  intros Hhold frames Hall.
  assert (Hinit : 0 <= Guide._lock_streak Guide.init
                  <= Guide.lock_hold_frames cfg) by (cbn; lia).
  split.
  - destruct frames as [|f rest _] using rev_ind.
    + cbn. symmetry. apply Z.leb_gt. lia.
    + apply Forall_app in Hall as [Hrest Hf].
      inversion Hf as [|? ? Hc _]; subst.
      rewrite locked_after_frames, (next_streak_centred _ _ Hc).
      rewrite (streak_after_centred rest _ Hrest Hinit).
      rewrite length_app. cbn [length Guide.init Guide._lock_streak].
      destruct (Z.leb_spec (Guide.lock_hold_frames cfg)
                  (Z.of_nat (length rest + 1))).
      * apply Z.leb_le. lia.
      * apply Z.leb_gt. lia.
  - intros miss Hlen Hmiss g. subst g.
    rewrite locked_after_frames.
    unfold Guide.guide_frames at 1. rewrite fold_left_app. cbn [fold_left].
    rewrite guide_streak.
    change (fold_left _ frames Guide.init)
      with (Guide.guide_frames int_of_product cfg frames Guide.init).
    rewrite (next_streak_off _ _ Hmiss).
    rewrite (streak_after_centred frames _ Hall Hinit).
    cbn [Guide.init Guide._lock_streak].
    split; [lia|]. apply Z.leb_gt. lia.
Qed.

(** ** Refractory interval *)

Lemma calls_on_app a g extra :
  List.filter (Guide.on_axis a) (Guide.nudges g ++ extra)
  = (Guide.calls_on a g ++ List.filter (Guide.on_axis a) extra)%list.
Proof. unfold Guide.calls_on. apply List.filter_app. Qed.

Lemma not_rested t1 t2 :
  within_refractory cfg t1 t2 -> Guide.rested cfg t2 t1 = false.
Proof.
  intros H. unfold Guide.rested.
  destruct (Qle_bool _ _) eqn:E; [|reflexivity].
  apply Qle_bool_iff in E. exfalso. eapply Qlt_not_le; eauto.
Qed.

Ltac axis_calls :=
  unfold Guide.calls_on;
  cbn [Guide.nudges Guide.last_pulse_ra Guide.last_pulse_dec Guide.ms];
  rewrite ?List.filter_app; cbn; rewrite ?app_nil_r; auto.

(** What one iteration does on an axis when it is an opportunity there:
    a call and a new timestamp if the axis has rested, nothing if not. *)
Lemma guide_on_axis a f g :
  Guide.opportunity cfg a f = true ->
  let g' := Guide._guide int_of_product cfg (Guide.at_time f) (Guide.dx f) (Guide.dy f)
                         (Guide.r f) g in
  if Guide.rested cfg (Guide.at_time f) (Guide.last_pulse a g)
  then exists c,
      Guide.calls_on a g' = (Guide.calls_on a g ++ [c])%list
      /\ Guide.ms c = Guide.pulse_ms int_of_product cfg (Guide.r f)
      /\ Guide.last_pulse a g' = Guide.at_time f
  else Guide.calls_on a g' = Guide.calls_on a g
       /\ Guide.last_pulse a g' = Guide.last_pulse a g.
Proof.
  unfold Guide.opportunity. intros Hopp.
  apply andb_prop in Hopp as [Hr Hoff].
  apply negb_true_iff in Hr.
  unfold Guide._guide. rewrite Hr.
  destruct a; cbn [Guide.last_pulse] in *; rewrite Hoff.
  - cbn [andb Guide.last_pulse_ra].
    destruct (Guide.rested cfg (Guide.at_time f) (Guide.last_pulse_ra g));
      [exists (Guide.Nudge (if Guide.Qlt_bool 0 (Guide.dx f)
                            then "east" else "west")
                           (Guide.pulse_ms int_of_product cfg (Guide.r f)) "solar")|];
      destruct (Guide.off_axis cfg (Guide.dy f) && _);
      destruct (Guide.Qlt_bool 0 (Guide.dx f));
      destruct (Guide.Qlt_bool 0 (Guide.dy f));
      axis_calls.
  - destruct (Guide.off_axis cfg (Guide.dx f) && _);
      cbn [andb Guide.last_pulse_dec];
      (destruct (Guide.rested cfg (Guide.at_time f) (Guide.last_pulse_dec g));
       [exists (Guide.Nudge (if Guide.Qlt_bool 0 (Guide.dy f)
                             then "south" else "north")
                            (Guide.pulse_ms int_of_product cfg (Guide.r f)) "solar")|]);
      destruct (Guide.Qlt_bool 0 (Guide.dx f));
      destruct (Guide.Qlt_bool 0 (Guide.dy f));
      axis_calls.
Qed.

(** C7.  On either axis, when two iterations are both correction
    opportunities there, the first finds the axis rested and the second
    comes within the refractory interval of the first, the two
    iterations make exactly one [nudge] call on that axis: the first
    one, whose time is recorded; the second makes none. *)
Theorem refractory_one_nudge_per_interval (a : Mount.axis)
  (f1 f2 : Guide.frame) (g : Guide.guider) :
  Guide.opportunity cfg a f1 = true ->
  Guide.opportunity cfg a f2 = true ->
  Guide.rested cfg (Guide.at_time f1) (Guide.last_pulse a g) = true ->
  within_refractory cfg (Guide.at_time f1) (Guide.at_time f2) ->
  let g1 := Guide.guide_frames int_of_product cfg [f1] g in
  let g2 := Guide.guide_frames int_of_product cfg [f1; f2] g in
  exists c,
    Guide.calls_on a g1 = (Guide.calls_on a g ++ [c])%list
    /\ Guide.last_pulse a g1 = Guide.at_time f1
    /\ Guide.calls_on a g2 = Guide.calls_on a g1
    /\ length (Guide.calls_on a g2) = S (length (Guide.calls_on a g))
    /\ Guide.last_pulse a g2 = Guide.at_time f1.
Proof.
  intros Hopp1 Hopp2 Hrested Hwithin g1 g2.
  pose proof (guide_on_axis a f1 g Hopp1) as H1. cbv zeta in H1.
  rewrite Hrested in H1. destruct H1 as (c & Hc & _ & Hlast).
  pose proof (guide_on_axis a f2 g1 Hopp2) as H2. cbv zeta in H2.
  change (Guide.guide_frames int_of_product cfg [f1] g)
    with (Guide._guide int_of_product cfg (Guide.at_time f1) (Guide.dx f1) (Guide.dy f1)
                       (Guide.r f1) g) in g1.
  subst g1. rewrite Hlast, (not_rested _ _ Hwithin) in H2.
  destruct H2 as [Hsame Hlast2].
  exists c. subst g2. cbn [Guide.guide_frames fold_left].
  rewrite Hsame, Hlast2, Hc, Hlast, length_app. cbn [length].
  repeat split; try reflexivity. lia.
Qed.

End Guider.

(** C2 as stated fails: with the default configuration (lock radius 8,
    hold count 10), ten centred frames lock the guider, and one frame at
    radius 8.01 right after them clears the lock. *)
Lemma lock_not_kept_through_one_miss :
  let cfg := Guide.default_config in
  let centred_frames := repeat (Guide.Frame 0 0 0 0) 10 in
  let miss := Guide.Frame 0 (801 # 100) 0 (801 # 100) in
  Z.of_nat (length centred_frames) = Guide.lock_hold_frames cfg
  /\ Forall (centred cfg) centred_frames
  /\ (inject_Z (Guide.lock_radius_px cfg) < Guide.r miss)%Q
  /\ Guide._locked (Guide.guide_frames Guide.int_of_exact_product cfg centred_frames Guide.init) = true
  /\ Guide._locked
       (Guide.guide_frames Guide.int_of_exact_product cfg (centred_frames ++ [miss]) Guide.init) = false.
Proof.
  cbv zeta. split; [reflexivity|].
  split; [repeat constructor; unfold centred; cbn; discriminate|].
  split; [reflexivity|]. split; reflexivity.
Qed.

(** The amended C2 at the default configuration. *)
Lemma lock_default_config_witness :
  let cfg := Guide.default_config in
  let frames := repeat (Guide.Frame 0 0 0 0) 12 in
  Guide._locked (Guide.guide_frames Guide.int_of_exact_product cfg frames Guide.init)
  = (Guide.lock_hold_frames cfg <=? Z.of_nat (length frames))
  /\ forall miss,
      Guide.lock_hold_frames cfg <= Z.of_nat (length frames) ->
      (inject_Z (Guide.lock_radius_px cfg) < Guide.r miss)%Q ->
      let g := Guide.guide_frames Guide.int_of_exact_product cfg (frames ++ [miss]) Guide.init in
      Guide._lock_streak g = Guide.lock_hold_frames cfg - 1
      /\ Guide._locked g = false.
Proof.
  apply (lock_acquired_at_hold_count_lost_at_first_miss
           Guide.int_of_exact_product Guide.default_config).
  - cbn. lia.
  - repeat constructor; unfold centred; cbn; discriminate.
Defined.

(** C7 on the RA axis with the defaults: a fresh guider, a first
    opportunity at t = 1000 s and a second 50 ms later. *)
Lemma refractory_witness :
  let cfg := Guide.default_config in
  let f1 := Guide.Frame 1000 20 0 20 in
  let f2 := Guide.Frame (100005 # 100) 20 0 20 in
  let g1 := Guide.guide_frames Guide.int_of_exact_product cfg [f1] Guide.init in
  let g2 := Guide.guide_frames Guide.int_of_exact_product cfg [f1; f2] Guide.init in
  exists c,
    Guide.calls_on Mount.RA g1 = (Guide.calls_on Mount.RA Guide.init ++ [c])%list
    /\ Guide.last_pulse Mount.RA g1 = Guide.at_time f1
    /\ Guide.calls_on Mount.RA g2 = Guide.calls_on Mount.RA g1
    /\ length (Guide.calls_on Mount.RA g2)
       = S (length (Guide.calls_on Mount.RA Guide.init))
    /\ Guide.last_pulse Mount.RA g2 = Guide.at_time f1.
Proof.
  apply (refractory_one_nudge_per_interval Guide.int_of_exact_product
           Guide.default_config Mount.RA
           (Guide.Frame 1000 20 0 20) (Guide.Frame (100005 # 100) 20 0 20)
           Guide.init).
  - reflexivity.
  - reflexivity.
  - reflexivity.
  - unfold within_refractory. cbn. reflexivity.
Defined.

(* ===================================================================== *)
(** * Properties: the protocol client                                     *)
(* ===================================================================== *)

Section Connect.

Lemma attempts_on_refused e c :
  Indigo.attempts (Indigo.on_refused e (Indigo.on_attempt c))
  = S (Indigo.attempts c).
Proof.
  unfold Indigo.attempts. cbn.
  rewrite !List.filter_app, !length_app. cbn. lia.
Qed.

Lemma attempts_on_give_up n c :
  Indigo.attempts (Indigo.on_give_up n c) = Indigo.attempts c.
Proof.
  unfold Indigo.attempts. cbn.
  rewrite !List.filter_app, !length_app. cbn. lia.
Qed.

(** One turn of the [while] loop of [connect]. *)
Lemma connect_unfold peer max_retries c :
  Indigo.connect peer max_retries c
  = if Indigo.stop_flag c then (Indigo.on_give_up max_retries c, Py.Ok tt)
    else if Indigo.retry_count c <? max_retries then
      match peer (Indigo.attempts c) with
      | None => (Indigo.on_connected (Indigo.on_attempt c), Py.Ok tt)
      | Some e =>
          if Py.caught_by [Py.socket_timeout; Py.ConnectionRefusedError;
                           Py.OSError] e
          then Indigo.connect peer max_retries
                 (Indigo.on_refused e (Indigo.on_attempt c))
          else (Indigo.on_attempt c, Py.Raise e)
      end
    else (Indigo.on_give_up max_retries c, Py.Ok tt).
Proof.
  funelim (Indigo.connect peer max_retries c).
  all: repeat match goal with
         | H : Z_lt_dec _ _ = _ |- _ => clear H
         | H : Indigo.stop_flag _ = _ |- _ => rewrite ?H; clear H
         | H : _ = None |- _ => rewrite ?H; clear H
         | H : _ = Some _ |- _ => rewrite ?H; clear H
         | H : Py.caught_by _ _ = _ |- _ => rewrite ?H; clear H
         | H : (_ < _)%Z |- _ => apply Z.ltb_lt in H; rewrite ?H; clear H
         | H : ~ (_ < _)%Z |- _ => apply Z.ltb_nlt in H; rewrite ?H; clear H
         end; try destruct (Indigo.stop_flag _); reflexivity.
Qed.

(** From any state of the client: the retries left are what the retry
    counter leaves of [max_retries]. *)
Lemma connect_refused_from peer max_retries c :
  (forall k, peer k = Some Py.ConnectionRefusedError) ->
  Indigo.stop_flag c = false ->
  exists c',
    Indigo.connect peer max_retries c = (c', Py.Ok tt)
    /\ Indigo.attempts c'
       = (Indigo.attempts c
          + Z.to_nat (max_retries - Indigo.retry_count c))%nat
    /\ Indigo.connected c' = false
    /\ Indigo.retry_count c' = Z.max max_retries (Indigo.retry_count c).
Proof.
  intros Hpeer. funelim (Indigo.connect peer max_retries c); intros Hstop;
    try congruence.
  - (* the loop condition fails: no retry left *)
    eexists. split; [reflexivity|].
    rewrite attempts_on_give_up. cbn. split; [lia|].
    split; [reflexivity|lia].
  - (* refused, caught by the handler: one attempt made, loop again *)
    match goal with
    | IH : _ -> _ -> exists _, _ |- _ =>
        destruct (IH Hpeer Hstop) as (c' & Hc' & Hatt & Hconn & Hretry)
    end.
    exists c'. split; [exact Hc'|].
    rewrite Hatt, attempts_on_refused, Hretry. cbn.
    split; [lia|]. split; [exact Hconn | lia].
  - (* refused with an exception the handler does not list: not this peer *)
    rewrite Hpeer in *.
    match goal with
    | E : Some _ = Some e |- _ => injection E as <-
    end. discriminate.
Qed.

(** C5.  On a client that has not exhausted retries before (a fresh one,
    or one whose last connect succeeded) and has not been closed,
    [connect(max_retries=N)] against a peer that always refuses makes
    exactly [N] connection attempts, returns, and leaves [connected]
    false. *)
Theorem connect_refused_makes_N_attempts (N : Z) (c : Indigo.client) :
  0 <= N ->
  Indigo.retry_count c = 0 ->
  Indigo.stop_flag c = false ->
  exists c',
    Indigo.connect refusing N c = (c', Py.Ok tt)
    /\ Indigo.attempts c' = (Indigo.attempts c + Z.to_nat N)%nat
    /\ Indigo.connected c' = false
    /\ Indigo.is_connected c' = false.
Proof.
  intros HN Hretry Hstop.
  destruct (connect_refused_from refusing N c) as (c' & Hc' & Hatt & Hconn & _);
    [reflexivity | exact Hstop |].
  exists c'. split; [exact Hc'|]. rewrite Hatt, Hretry, Z.sub_0_r.
  split; [reflexivity|]. split; [exact Hconn|].
  unfold Indigo.is_connected. rewrite Hconn. reflexivity.
Qed.

End Connect.

(** C5 on a new client with the default of ten retries. *)
Lemma connect_refused_witness :
  exists c',
    Indigo.connect refusing 10 indigo_client = (c', Py.Ok tt)
    /\ Indigo.attempts c' = (Indigo.attempts indigo_client + Z.to_nat 10)%nat
    /\ Indigo.connected c' = false
    /\ Indigo.is_connected c' = false.
Proof.
  apply (connect_refused_makes_N_attempts 10 indigo_client).
  - lia.
  - reflexivity.
  - reflexivity.
Defined.

(** The retry counter is only reset by a successful connection: a second
    [connect] after the retries ran out makes no attempt at all. *)
Example connect_again_after_giving_up :
  let c1 := fst (Indigo.connect refusing 10 indigo_client) in
  let c2 := fst (Indigo.connect refusing 10 c1) in
  Indigo.attempts c1 = 10%nat /\ Indigo.attempts c2 = 10%nat.
Proof. vm_compute. split; reflexivity. Qed.

Section ReadLoop.

Variable json_loads : string -> option Json.value.
Variable py_str : Json.value -> string.

(** The handler for a line that is not JSON calls [emit_log] with two
    positional arguments; [emit_log] takes one. *)
Lemma dispatch_unparsable line c :
  json_loads line = None ->
  Indigo._dispatch json_loads py_str line c = (c, Py.Raise Py.TypeError).
Proof. intros H. unfold Indigo._dispatch. rewrite H. reflexivity. Qed.

(** A message whose kind has a registered callback goes to it. *)
Lemma dispatch_registered line msg kind cb c :
  json_loads line = Some msg ->
  Indigo.kind_of msg = Py.Ok (Json.Str kind) ->
  Indigo.callbacks c !! kind = Some cb ->
  Indigo._dispatch json_loads py_str line c = (Indigo.record (Indigo.Delivered cb msg) c, Py.Ok tt).
Proof.
  intros Hline Hkind Hcb. unfold Indigo._dispatch.
  rewrite Hline, Hkind. cbn. rewrite Hcb. reflexivity.
Qed.

Lemma split_never_empty sep s : Py.split sep s <> [].
Proof.
  destruct s as [|ch s]; cbn; [discriminate|].
  destruct (Ascii.eqb ch sep); [discriminate|].
  destruct (Py.split sep s); discriminate.
Qed.

Lemma split_first_line line tail :
  Py.contains Py.nl line = false ->
  Py.split Py.nl (line ++ String Py.nl tail) = line :: Py.split Py.nl tail.
Proof.
  induction line as [|ch line IH]; intros Hnl.
  - reflexivity.
  - cbn [Py.contains] in Hnl. apply orb_false_iff in Hnl as [Hch Hrest].
    change (String ch line ++ String Py.nl tail)%string
      with (String ch (line ++ String Py.nl tail)%string).
    cbn [Py.split]. rewrite Hch, (IH Hrest). reflexivity.
Qed.

Lemma take_lines_first line tail :
  Py.contains Py.nl line = false ->
  fst (Indigo.take_lines (line ++ String Py.nl tail))
  = line :: fst (Indigo.take_lines tail).
Proof.
  intros Hnl. unfold Indigo.take_lines. rewrite (split_first_line _ _ Hnl).
  cbn [fst]. pose proof (split_never_empty Py.nl tail).
  destruct (Py.split Py.nl tail); [congruence | reflexivity].
Qed.

Lemma delivered_on_listener_exit c :
  Indigo.delivered (Indigo.on_listener_exit c) = Indigo.delivered c.
Proof.
  unfold Indigo.delivered. cbn. rewrite flat_map_app. cbn.
  apply app_nil_r.
Qed.

(** C3, what the code does.  When the next complete line in the read
    buffer is not JSON, [_dispatch] raises [TypeError] out of its
    handler; no [except] clause of the read loop lists it, so the
    [finally] clause runs and the thread ends: [connected] is false,
    and nothing that follows the line, in the same chunk ([tail]) or in
    later ones ([evs]), is dispatched. *)
Theorem unparsable_line_ends_read_loop
  (c : Indigo.client) (buffer text line tail : string)
  (evs : list Indigo.sock_event) :
  Indigo.stop_flag c = false ->
  text <> "" ->
  (buffer ++ text)%string = (line ++ String Py.nl tail)%string ->
  Py.contains Py.nl line = false ->
  json_loads (Py.strip line) = None ->
  exists c',
    Indigo._listen_loop json_loads py_str (Indigo.Data text :: evs) buffer c
    = (c', Indigo.Exited (Some Py.TypeError))
    /\ Indigo.connected c' = false
    /\ Indigo.is_connected c' = false
    /\ Indigo.delivered c' = Indigo.delivered c
    /\ Indigo.log c'
       = Indigo.log (Indigo.on_listener_exit c).
Proof.
  intros Hstop Htext Hbuf Hnl Hbad.
  exists (Indigo.on_listener_exit c).
  split.
  - cbn [Indigo._listen_loop]. rewrite Hstop.
    destruct text as [|ch text]; [congruence|].
    rewrite Hbuf.
    destruct (Indigo.take_lines (line ++ String Py.nl tail))
      as [lines rest] eqn:E.
    pose proof (take_lines_first line tail Hnl) as Hfirst.
    rewrite E in Hfirst. cbn [fst] in Hfirst. subst lines.
    cbn [Indigo.dispatch_lines].
    rewrite (dispatch_unparsable _ _ Hbad). reflexivity.
  - split; [reflexivity|]. split; [reflexivity|].
    split; [apply delivered_on_listener_exit | reflexivity].
Qed.

End ReadLoop.

(** C3 on wire text: a stray line followed by a well-formed coordinate
    update in the same chunk. *)
Lemma unparsable_line_witness :
  exists c',
    Indigo._listen_loop Json.decode (fun _ => "")
      [Indigo.Data ("garbage" ++ lf ++ coordinate_update ++ lf)] ""
      listening_client
    = (c', Indigo.Exited (Some Py.TypeError))
    /\ Indigo.connected c' = false
    /\ Indigo.is_connected c' = false
    /\ Indigo.delivered c' = Indigo.delivered listening_client
    /\ Indigo.log c' = Indigo.log (Indigo.on_listener_exit listening_client).
Proof.
  apply (unparsable_line_ends_read_loop Json.decode (fun _ => "")
           listening_client "" _ "garbage" (coordinate_update ++ lf)).
  - reflexivity.
  - discriminate.
  - reflexivity.
  - reflexivity.
  - reflexivity.
Defined.

(** The same chunk without the stray line reaches the callback. *)
Example well_formed_line_dispatched :
  let '(c', l) :=
    Indigo._listen_loop Json.decode (fun _ => "")
      [Indigo.Data (coordinate_update ++ lf)] "" listening_client in
  l = Indigo.Listening ""
  /\ Indigo.connected c' = true
  /\ Indigo.delivered c'
     = [(1%nat, Json.Obj [("action", Json.Str "setNumberVector");
                          ("device", Json.Str "Mount Agent")])].
Proof. vm_compute. repeat split. Qed.

(* ===================================================================== *)
(** * Properties: containment of device I/O failures                      *)
(* ===================================================================== *)

Section Containment.

Lemma every_exn_is_Exception e : Py.isinstance e Py.Exception = true.
Proof. destruct e; reflexivity. Qed.

Lemma OSError_caught_by_send e :
  Py.isinstance e Py.OSError = true ->
  Py.caught_by [Py.BrokenPipeError; Py.OSError] e = true.
Proof. intros H. unfold Py.caught_by. cbn [existsb]. rewrite H. apply orb_true_iff. right. reflexivity. Qed.

(** [send(..., quiet=True)] returns normally whatever the socket does. *)
Lemma send_quiet_returns m io c :
  io_outcome io -> snd (Indigo.send m true io c) = Py.Ok tt.
Proof.
  intros Hio. unfold Indigo.send.
  destruct (negb (Indigo.connected c) || negb (Indigo.sock c));
    [reflexivity|].
  destruct io as [u|e]; [reflexivity|].
  cbn in Hio. rewrite (OSError_caught_by_send e Hio). reflexivity.
Qed.

(** A failed write on a live connection clears [connected]; with
    [quiet=True] nothing is logged. *)
Lemma send_quiet_failure m e c :
  Py.isinstance e Py.OSError = true ->
  Indigo.is_connected c = true ->
  Indigo.send m true (Py.Raise e) c
  = (Indigo.set_connected false c, Py.Ok tt).
Proof.
  intros He Hconn. unfold Indigo.is_connected in Hconn.
  apply andb_prop in Hconn as [Hc Hs].
  unfold Indigo.send. rewrite Hc, Hs. cbn [negb orb].
  rewrite (OSError_caught_by_send e He). reflexivity.
Qed.

(** With [quiet=False] the same failure is logged, clears [connected],
    and is raised again to the caller. *)
Lemma send_loud_failure m e c :
  Py.isinstance e Py.OSError = true ->
  Indigo.is_connected c = true ->
  Indigo.send m false (Py.Raise e) c
  = (Indigo.set_connected false
       (Indigo.emit_log ("[INDIGO] Send failed: " ++ Indigo.exn_text e) c),
     Py.Raise e).
Proof.
  intros He Hconn. unfold Indigo.is_connected in Hconn.
  apply andb_prop in Hconn as [Hc Hs].
  unfold Indigo.send. rewrite Hc, Hs. cbn [negb orb].
  rewrite (OSError_caught_by_send e He). reflexivity.
Qed.

(** A mount command is a sequence of quiet sends. *)
Lemma send_all_returns msgs : forall ios c,
  Forall io_outcome ios -> snd (Mount.send_all msgs ios c) = Py.Ok tt.
Proof.
  induction msgs as [|m rest IH]; intros ios c Hios; [reflexivity|].
  cbn [Mount.send_all].
  assert (Hhd : io_outcome (hd (Py.Ok tt) ios)).
  { destruct Hios; [exact I | assumption]. }
  assert (Htl : Forall io_outcome (tl ios)).
  { destruct Hios; [constructor | assumption]. }
  pose proof (send_quiet_returns m _ c Hhd) as Hsend.
  destruct (Indigo.send m true (hd (Py.Ok tt) ios) c) as [c' r].
  cbn [snd] in Hsend. subst r. apply IH, Htl.
Qed.

(** The actuator client: whatever [create_connection], [sendall] and
    [recv] do, [send] returns a string; after a failure inside the
    exchange it is the empty string and the board is marked
    disconnected. *)
Lemma arduino_send_returns message_ x w :
  exists response,
    snd (Arduino.send message_ x w) = Py.Ok response
    /\ (forall e, snd (Arduino.send_body message_ x w) = Py.Raise e ->
        response = ""
        /\ Arduino.state (fst (Arduino.send message_ x w)) !! "connected"
           = Some (Arduino.PBool false)
        /\ Arduino.sock (Arduino._client (fst (Arduino.send message_ x w)))
           = false).
Proof.
  unfold Arduino.send.
  destruct (Arduino.send_body message_ x w) as [w' [response|e]].
  - exists response. split; [reflexivity|]. intros e He. discriminate.
  - rewrite every_exn_is_Exception. exists "". split; [reflexivity|].
    intros _ _. split; [reflexivity|]. split; [|reflexivity].
    cbn. apply lookup_insert_eq.
Qed.

(** Connecting: every [OSError] is absorbed by the retry loop. *)
Lemma connect_returns peer max_retries c :
  (forall k e, peer k = Some e -> Py.isinstance e Py.OSError = true) ->
  snd (Indigo.connect peer max_retries c) = Py.Ok tt.
Proof.
  intros Hpeer. funelim (Indigo.connect peer max_retries c);
    try reflexivity.
  - match goal with IH : _ -> snd _ = _ |- _ => apply IH, Hpeer end.
  - exfalso.
    match goal with
    | E : peer _ = Some e |- _ => pose proof (Hpeer _ _ E) as HOS
    end.
    match goal with
    | E : Py.caught_by _ e = false |- _ =>
        unfold Py.caught_by in E; cbn [existsb] in E; rewrite HOS in E;
        rewrite !orb_true_r in E; discriminate
    end.
Qed.

(** The line a call of [emit_log] appends is the last of the buffer. *)
Lemma last_logged msg buf d : List.last (Logger.logged msg buf) d = msg.
Proof.
  unfold Logger.logged. destruct (300 <? length _)%nat eqn:E.
  - destruct buf as [|x buf]; [discriminate|]. cbn [app tl].
    apply last_last.
  - apply last_last.
Qed.

(** A quiet send writes nothing to the log, whatever the socket does. *)
Lemma send_quiet_log m io c :
  Indigo.log (fst (Indigo.send m true io c)) = Indigo.log c.
Proof.
  unfold Indigo.send.
  destruct (negb (Indigo.connected c) || negb (Indigo.sock c));
    [reflexivity|].
  destruct io as [u|e]; [reflexivity|].
  destruct (Py.caught_by _ e); reflexivity.
Qed.

(** On a client that is not connected a quiet send does nothing. *)
Lemma send_quiet_disconnected m io c :
  Indigo.is_connected c = false ->
  Indigo.send m true io c = (c, Py.Ok tt).
Proof.
  intros H. unfold Indigo.is_connected in H. unfold Indigo.send.
  destruct (Indigo.connected c), (Indigo.sock c); cbn in H |- *;
    try discriminate; reflexivity.
Qed.

Lemma send_all_disconnected msgs : forall ios c,
  Indigo.is_connected c = false ->
  Mount.send_all msgs ios c = (c, Py.Ok tt).
Proof.
  induction msgs as [|m rest IH]; intros ios c H; [reflexivity|].
  cbn [Mount.send_all]. rewrite (send_quiet_disconnected m _ c H).
  apply IH, H.
Qed.

Lemma send_all_log msgs : forall ios c,
  Indigo.log (fst (Mount.send_all msgs ios c)) = Indigo.log c.
Proof.
  induction msgs as [|m rest IH]; intros ios c; [reflexivity|].
  cbn [Mount.send_all].
  pose proof (send_quiet_log m (hd (Py.Ok tt) ios) c) as Hlog.
  destruct (Indigo.send m true (hd (Py.Ok tt) ios) c) as [c' [u|e]].
  - rewrite IH. exact Hlog.
  - exact Hlog.
Qed.

(** A command one of whose writes fails ends with [connected] cleared. *)
Lemma send_all_failure msgs : forall ios c (k : nat) e,
  Forall io_outcome ios ->
  Indigo.is_connected c = true ->
  (k < length msgs)%nat ->
  ios !! k = Some (Py.Raise e) ->
  Indigo.connected (fst (Mount.send_all msgs ios c)) = false.
Proof.
  induction msgs as [|m rest IH]; intros ios c k e Hios Hc Hk Hio;
    [cbn in Hk; lia|].
  destruct ios as [|io ios']; [discriminate|].
  apply Forall_cons in Hios as [Hio0 Hios'].
  cbn [Mount.send_all hd tl].
  assert (Hoff : forall e0, Py.isinstance e0 Py.OSError = true ->
            Indigo.connected
              (fst (Mount.send_all (m :: rest) (Py.Raise e0 :: ios') c))
            = false).
  { intros e0 He0. cbn [Mount.send_all hd tl].
    rewrite (send_quiet_failure m e0 c He0 Hc).
    rewrite send_all_disconnected; [reflexivity|].
    unfold Indigo.is_connected. reflexivity. }
  destruct io as [u|e0].
  - destruct k as [|k']; [discriminate|].
    unfold Indigo.is_connected in Hc. apply andb_prop in Hc as [Hc Hs].
    unfold Indigo.send. rewrite Hc, Hs. cbn [negb orb].
    apply (IH ios' _ k' e); [exact Hios' | | cbn in Hk; lia | exact Hio].
    unfold Indigo.is_connected. cbn. rewrite Hc, Hs. reflexivity.
  - apply (Hoff e0 Hio0).
Qed.

(** With [quiet=False] on a client that is not connected the send is
    skipped, and the skip is logged. *)
Lemma send_loud_disconnected m io c :
  Indigo.is_connected c = false ->
  Indigo.send m false io c
  = (Indigo.emit_log "[INDIGO] Not connected — skipping send." c, Py.Ok tt).
Proof.
  intros H. unfold Indigo.is_connected in H. unfold Indigo.send.
  destruct (Indigo.connected c), (Indigo.sock c); cbn in H |- *;
    try discriminate; reflexivity.
Qed.

(** The actuator client: a failure inside the exchange adds one line to
    the log. *)
Lemma arduino_send_failure_logged message_ x w e :
  snd (Arduino.send_body message_ x w) = Py.Raise e ->
  exists text,
    Arduino.log (fst (Arduino.send message_ x w))
    = Logger.logged ("[ARDUINO-TCP] Send failed: " ++ text)
        (Arduino.log (fst (Arduino.send_body message_ x w))).
Proof.
  unfold Arduino.send.
  destruct (Arduino.send_body message_ x w) as [w' [response|e']];
    [discriminate|].
  intros _. rewrite every_exn_is_Exception.
  exists (Indigo.exn_text e'). reflexivity.
Qed.

(** With the socket open no connection is made: the exchange starts
    from the log as it is. *)
Lemma arduino_send_body_log_open message_ x w :
  Arduino.sock (Arduino._client w) = true ->
  forall e, snd (Arduino.send_body message_ x w) = Py.Raise e ->
  Arduino.log (fst (Arduino.send_body message_ x w)) = Arduino.log w.
Proof.
  intros Hs e. unfold Arduino.send_body. rewrite Hs. cbn [negb].
  rewrite Hs. cbn [negb].
  destruct (Arduino.sendall x); [reflexivity|].
  destruct (Arduino.recv_line _ _); [discriminate | reflexivity].
Qed.

(** The actuator client: a refused connection. *)
Lemma arduino_send_refused message_ x w e :
  Arduino.sock (Arduino._client w) = false ->
  Arduino.fail_count (Arduino._client w) < Arduino.max_warns (Arduino._client w) ->
  Arduino.conn x = Some e ->
  Arduino.send message_ x w
  = (Arduino._connect (Some e) (Arduino.now x) w, Py.Ok "").
Proof.
  intros Hs Hlt Hconn. unfold Arduino.send, Arduino.send_body.
  rewrite Hs, Hconn.
  assert (Hoff : Arduino.sock
                   (Arduino._client
                      (Arduino._connect (Some e) (Arduino.now x) w))
                 = false).
  { unfold Arduino._connect.
    destruct (Z.leb_spec (Arduino.max_warns (Arduino._client w))
                         (Arduino.fail_count (Arduino._client w)));
      [lia | reflexivity]. }
  rewrite Hoff. reflexivity.
Qed.

Lemma arduino_connect_refused e now w :
  Arduino.fail_count (Arduino._client w) < Arduino.max_warns (Arduino._client w) ->
  let w' := Arduino._connect (Some e) now w in
  Arduino.state w' !! "connected" = Some (Arduino.PBool false)
  /\ Arduino.sock (Arduino._client w') = false
  /\ Arduino.fail_count (Arduino._client w')
     = Arduino.fail_count (Arduino._client w) + 1
  /\ ((Arduino.max_log_interval (Arduino._client w)
       < now - Arduino.last_fail_time (Arduino._client w))%Q ->
      Arduino.last_fail_time (Arduino._client w') = now
      /\ exists text,
           Arduino.log w'
           = Logger.logged
               ("[ARDUINO-TCP] ❌ Connection attempt "
                ++ Py.str_of_int (Arduino.fail_count (Arduino._client w) + 1)
                ++ ": " ++ text)
               (Arduino.log w))
  /\ (~ (Arduino.max_log_interval (Arduino._client w)
         < now - Arduino.last_fail_time (Arduino._client w))%Q ->
      Arduino.last_fail_time (Arduino._client w')
      = Arduino.last_fail_time (Arduino._client w)
      /\ Arduino.log w' = Arduino.log w).
Proof.
  intros Hlt. cbv zeta. unfold Arduino._connect.
  destruct (Z.leb_spec (Arduino.max_warns (Arduino._client w))
                       (Arduino.fail_count (Arduino._client w))); [lia|].
  destruct w as [cl st sio em lg]. destruct cl. cbn in *.
  destruct (Qlt_le_dec _ _) as [Hel|Hel]; cbn;
    destruct (sio && _ && _); cbn.
  all: split; [apply lookup_insert_eq|].
  all: split; [reflexivity|]. all: split; [reflexivity|].
  all: split; intros Hq.
  all: try (split; [reflexivity|]).
  all: try (eexists; reflexivity).
  all: try reflexivity.
  all: try (exfalso; apply Hq; exact Hel).
  all: try (exfalso; apply (Qlt_not_le _ _ Hq); exact Hel).
Qed.

(** The actuator client that has given up makes no attempt. *)
Lemma arduino_send_gave_up message_ x w :
  Arduino.sock (Arduino._client w) = false ->
  Arduino.max_warns (Arduino._client w) <= Arduino.fail_count (Arduino._client w) ->
  Arduino.send message_ x w = (w, Py.Ok "").
Proof.
  intros Hs Hge. unfold Arduino.send, Arduino.send_body. rewrite Hs.
  unfold Arduino._connect.
  destruct (Z.leb_spec (Arduino.max_warns (Arduino._client w))
                       (Arduino.fail_count (Arduino._client w))); [|lia].
  rewrite Hs. reflexivity.
Qed.

(** [connect] against a peer that refuses every attempt. *)
Lemma connect_all_refused peer max_retries c :
  (forall k, exists e,
      peer k = Some e /\ Py.isinstance e Py.OSError = true) ->
  Indigo.connected (fst (Indigo.connect peer max_retries c)) = false.
Proof.
  intros Hpeer. funelim (Indigo.connect peer max_retries c);
    try reflexivity.
  - exfalso. destruct (Hpeer (Indigo.attempts c)) as (e & He & _).
    congruence.
  - match goal with IH : _ -> Indigo.connected _ = _ |- _ =>
      apply IH, Hpeer end.
  - exfalso.
    destruct (Hpeer (Indigo.attempts c)) as (e' & He' & HOS).
    match goal with
    | E : _ = Some e |- _ => rewrite He' in E; injection E as ->
    end.
    match goal with
    | E : Py.caught_by _ e = false |- _ =>
        unfold Py.caught_by in E; cbn [existsb] in E; rewrite HOS in E;
        rewrite !orb_true_r in E; discriminate
    end.
Qed.

(** When [connect] has made an attempt and none was accepted, the last
    line of the log is the last refusal. *)
Lemma connect_refusal_logged peer max_retries c :
  (forall k, exists e,
      peer k = Some e /\ Py.isinstance e Py.OSError = true) ->
  Indigo.stop_flag c = false ->
  Indigo.retry_count c < max_retries ->
  exists text,
    List.last (Indigo.log (fst (Indigo.connect peer max_retries c))) ""
    = "[INDIGO] Connection failed: " ++ text.
Proof.
  intros Hpeer. funelim (Indigo.connect peer max_retries c);
    intros Hstop Hretry; try congruence; try lia.
  - exfalso. destruct (Hpeer (Indigo.attempts c)) as (e & He & _).
    congruence.
  - destruct (Z_lt_dec (Indigo.retry_count
                          (Indigo.on_refused e (Indigo.on_attempt c)))
                       max_retries) as [Hmore|Hlast].
    + match goal with IH : _ -> _ -> _ -> exists _, _ |- _ =>
        apply IH; [exact Hpeer | exact Hstop | exact Hmore] end.
    + rewrite connect_unfold.
      change (Indigo.stop_flag (Indigo.on_refused e (Indigo.on_attempt c)))
        with (Indigo.stop_flag c).
      rewrite Hstop.
      apply Z.ltb_nlt in Hlast. rewrite Hlast.
      eexists. cbn [fst]. unfold Indigo.on_give_up, Indigo.on_refused.
      cbn [Indigo.log Indigo.set_connected Indigo.record
           Indigo.set_retry_count Indigo.emit_log].
      rewrite last_logged. reflexivity.
  - exfalso.
    destruct (Hpeer (Indigo.attempts c)) as (e' & He' & HOS).
    match goal with
    | E : _ = Some e |- _ => rewrite He' in E; injection E as ->
    end.
    match goal with
    | E : Py.caught_by _ e = false |- _ =>
        unfold Py.caught_by in E; cbn [existsb] in E; rewrite HOS in E;
        rewrite !orb_true_r in E; discriminate
    end.
Qed.

(** C4, as the code has it.  Device I/O failures (an [OSError]: a
    disconnected socket, a broken pipe, a refused connection) never
    reach callers of the mount controller (all of whose sends are
    quiet), of the actuator client's [send], of [connect], or of the
    protocol client's [send] with [quiet=True]; they clear the
    connectivity flag, and are logged only as said here.

    - [send] with [quiet=True] returns normally and logs nothing; a
      failed write on a live connection clears [connected]; on a client
      that is not connected the send does nothing.
    - A mount command returns normally and logs nothing; when one of its
      writes fails it ends with [connected] cleared.
    - [connect] returns normally; when every attempt is refused it ends
      with [connected] cleared and, if it made an attempt, with the
      last refusal as the last line of the log.
    - The actuator client's [send] always returns a string.  A failure
      inside the exchange ([sendall] or [recv]) gives the empty string,
      marks the board disconnected, drops the socket and logs one
      ["Send failed"] line (the only line added when the socket was
      open).  A refused connection gives the empty string, marks the
      board disconnected and counts the failure; it logs one
      ["Connection attempt"] line and records the time when more than
      [max_log_interval] (15 s) have passed since the last logged
      failure, and logs nothing otherwise (the sink taking the warning
      pushed to it, if one is due).  Once [fail_count] has
      reached [max_warns] (3 in a row), [send] without a socket makes no
      attempt, changes nothing and gives the empty string.
    - [send] with [quiet=False], its default, on a live connection logs
      one ["Send failed"] line, clears [connected] and raises the socket
      error again to its caller; on a client that is not connected it
      logs that the send is skipped and returns normally. *)
Theorem device_io_failures_contained_when_quiet :
  (* ProtocolClient.send, quiet *)
  (forall m io c, io_outcome io ->
      snd (Indigo.send m true io c) = Py.Ok tt
      /\ Indigo.log (fst (Indigo.send m true io c)) = Indigo.log c)
  /\ (forall m e c,
        Py.isinstance e Py.OSError = true ->
        Indigo.is_connected c = true ->
        Indigo.connected (fst (Indigo.send m true (Py.Raise e) c)) = false)
  /\ (forall m io c,
        Indigo.is_connected c = false ->
        Indigo.send m true io c = (c, Py.Ok tt))
  (* MountController *)
  /\ (forall msgs ios c, Forall io_outcome ios ->
        snd (Mount.send_all msgs ios c) = Py.Ok tt
        /\ Indigo.log (fst (Mount.send_all msgs ios c)) = Indigo.log c)
  /\ (forall msgs ios c (k : nat) e,
        Forall io_outcome ios ->
        Indigo.is_connected c = true ->
        (k < length msgs)%nat ->
        ios !! k = Some (Py.Raise e) ->
        Indigo.connected (fst (Mount.send_all msgs ios c)) = false)
  (* ProtocolClient.connect *)
  /\ (forall peer max_retries c,
        (forall k e, peer k = Some e -> Py.isinstance e Py.OSError = true) ->
        snd (Indigo.connect peer max_retries c) = Py.Ok tt)
  /\ (forall peer max_retries c,
        (forall k, exists e,
            peer k = Some e /\ Py.isinstance e Py.OSError = true) ->
        Indigo.connected (fst (Indigo.connect peer max_retries c)) = false
        /\ (Indigo.stop_flag c = false ->
            Indigo.retry_count c < max_retries ->
            exists text,
              List.last
                (Indigo.log (fst (Indigo.connect peer max_retries c))) ""
              = "[INDIGO] Connection failed: " ++ text))
  (* ActuatorClient.send *)
  /\ (forall message_ x w, exists response,
        snd (Arduino.send message_ x w) = Py.Ok response
        /\ (forall e, snd (Arduino.send_body message_ x w) = Py.Raise e ->
            response = ""
            /\ Arduino.state (fst (Arduino.send message_ x w)) !! "connected"
               = Some (Arduino.PBool false)
            /\ Arduino.sock (Arduino._client (fst (Arduino.send message_ x w)))
               = false
            /\ exists text,
                 Arduino.log (fst (Arduino.send message_ x w))
                 = Logger.logged ("[ARDUINO-TCP] Send failed: " ++ text)
                     (Arduino.log (fst (Arduino.send_body message_ x w)))
                 /\ (Arduino.sock (Arduino._client w) = true ->
                     Arduino.log (fst (Arduino.send message_ x w))
                     = Logger.logged ("[ARDUINO-TCP] Send failed: " ++ text)
                         (Arduino.log w))))
  /\ (forall message_ x w e,
        Arduino.sock (Arduino._client w) = false ->
        Arduino.fail_count (Arduino._client w)
        < Arduino.max_warns (Arduino._client w) ->
        Arduino.conn x = Some e ->
        let w' := fst (Arduino.send message_ x w) in
        snd (Arduino.send message_ x w) = Py.Ok ""
        /\ Arduino.state w' !! "connected" = Some (Arduino.PBool false)
        /\ Arduino.sock (Arduino._client w') = false
        /\ Arduino.fail_count (Arduino._client w')
           = Arduino.fail_count (Arduino._client w) + 1
        /\ ((Arduino.max_log_interval (Arduino._client w)
             < Arduino.now x - Arduino.last_fail_time (Arduino._client w))%Q ->
            Arduino.last_fail_time (Arduino._client w') = Arduino.now x
            /\ exists text,
                 Arduino.log w'
                 = Logger.logged
                     ("[ARDUINO-TCP] ❌ Connection attempt "
                      ++ Py.str_of_int
                           (Arduino.fail_count (Arduino._client w) + 1)
                      ++ ": " ++ text)
                     (Arduino.log w))
        /\ (~ (Arduino.max_log_interval (Arduino._client w)
               < Arduino.now x
                 - Arduino.last_fail_time (Arduino._client w))%Q ->
            Arduino.last_fail_time (Arduino._client w')
            = Arduino.last_fail_time (Arduino._client w)
            /\ Arduino.log w' = Arduino.log w))
  /\ (forall message_ x w,
        Arduino.sock (Arduino._client w) = false ->
        Arduino.max_warns (Arduino._client w)
        <= Arduino.fail_count (Arduino._client w) ->
        Arduino.send message_ x w = (w, Py.Ok ""))
  (* ProtocolClient.send, quiet=False *)
  /\ (forall m e c,
        Py.isinstance e Py.OSError = true ->
        Indigo.is_connected c = true ->
        let c' := fst (Indigo.send m false (Py.Raise e) c) in
        snd (Indigo.send m false (Py.Raise e) c) = Py.Raise e
        /\ Indigo.connected c' = false
        /\ exists text,
             Indigo.log c'
             = Logger.logged ("[INDIGO] Send failed: " ++ text)
                 (Indigo.log c))
  /\ (forall m io c,
        Indigo.is_connected c = false ->
        Indigo.send m false io c
        = (Indigo.emit_log "[INDIGO] Not connected — skipping send." c,
           Py.Ok tt)).
Proof.
  split; [intros m io c Hio; split;
          [apply send_quiet_returns, Hio | apply send_quiet_log]|].
  split; [intros m e c He Hc; rewrite (send_quiet_failure m e c He Hc);
          reflexivity|].
  split; [exact send_quiet_disconnected|].
  split; [intros msgs ios c Hios; split;
          [apply send_all_returns, Hios | apply send_all_log]|].
  split; [intros msgs ios c k e; apply send_all_failure|].
  split; [exact connect_returns|].
  split; [intros peer max_retries c Hpeer; split;
          [apply connect_all_refused, Hpeer
          |apply connect_refusal_logged, Hpeer]|].
  split.
  { intros message_ x w.
    destruct (arduino_send_returns message_ x w) as (response & Hr & Hfail).
    exists response. split; [exact Hr|]. intros e He.
    destruct (Hfail e He) as (H1 & H2 & H3).
    split; [exact H1|]. split; [exact H2|]. split; [exact H3|].
    destruct (arduino_send_failure_logged message_ x w e He) as (text & Ht).
    exists text. split; [exact Ht|]. intros Hs.
    rewrite Ht, (arduino_send_body_log_open message_ x w Hs e He).
    reflexivity. }
  split.
  { intros message_ x w e Hs Hlt Hconn. cbv zeta.
    rewrite (arduino_send_refused message_ x w e Hs Hlt Hconn).
    cbn [fst snd]. split; [reflexivity|].
    apply (arduino_connect_refused e (Arduino.now x) w Hlt). }
  split; [exact arduino_send_gave_up|].
  split; [|exact send_loud_disconnected].
  intros m e c He Hc. cbv zeta. rewrite (send_loud_failure m e c He Hc).
  split; [reflexivity|]. split; [reflexivity|].
  exists (Indigo.exn_text e). reflexivity.
Qed.

End Containment.

(** C4 as stated fails: on a live connection, [send] with its default
    [quiet=False] (the focuser module calls it so) hands a broken pipe
    back to its caller. *)
Lemma send_raises_broken_pipe_to_caller :
  let c := Indigo.set_connected true (Indigo.set_sock true indigo_client) in
  let m := Indigo.getProperties "Mount Agent" "MOUNT_PARK" in
  io_outcome (Py.Raise Py.BrokenPipeError)
  /\ snd (Indigo.send m false (Py.Raise Py.BrokenPipeError) c)
     = Py.Raise Py.BrokenPipeError.
Proof. cbv zeta. split; reflexivity. Qed.

(* ===================================================================== *)
(** * Properties: the dome status of the actuator state                   *)
(* ===================================================================== *)

Section Dome.

Lemma dome_label_classify dome_pos :
  Arduino.dome_label dome_pos = dome_text (classify dome_pos).
Proof.
  unfold Arduino.dome_label, classify.
  destruct (170 <=? dome_pos); [reflexivity|].
  destruct (dome_pos <=? 10); reflexivity.
Qed.

Lemma initial_dome_status now :
  is_dome_status (Arduino.get_dome (Arduino.init now)).
Proof. exists Unknown. reflexivity. Qed.

(** Writes to other keys, and everything [send] does, leave
    [state["dome"]] alone. *)
Lemma get_dome_set_state_other key v w :
  key <> "dome" ->
  Arduino.get_dome (Arduino.set_state key v w) = Arduino.get_dome w.
Proof.
  intros Hne. unfold Arduino.get_dome. cbn.
  rewrite lookup_insert_ne; [reflexivity | exact Hne].
Qed.

Lemma get_dome_set_state_dome v w :
  Arduino.get_dome (Arduino.set_state "dome" v w) = v.
Proof. unfold Arduino.get_dome. cbn. rewrite lookup_insert_eq. reflexivity. Qed.

Lemma get_dome_connect conn now w :
  Arduino.get_dome (Arduino._connect conn now w) = Arduino.get_dome w.
Proof.
  unfold Arduino._connect.
  destruct (_ <=? _); [reflexivity|].
  destruct conn as [e|].
  - repeat match goal with
      | |- context [if ?b then _ else _] => destruct b
      end;
      unfold Arduino.get_dome; cbn;
      rewrite lookup_insert_ne; (reflexivity || discriminate).
  - unfold Arduino.get_dome. cbn.
    rewrite lookup_insert_ne; (reflexivity || discriminate).
Qed.

Lemma get_dome_send message_ x w :
  Arduino.get_dome (fst (Arduino.send message_ x w)) = Arduino.get_dome w.
Proof.
  unfold Arduino.send, Arduino.send_body.
  assert (H1 : Arduino.get_dome
                 (if Arduino.sock (Arduino._client w) then w
                  else Arduino._connect (Arduino.conn x) (Arduino.now x) w)
               = Arduino.get_dome w).
  { destruct (Arduino.sock (Arduino._client w));
      [reflexivity | apply get_dome_connect]. }
  set (w1 := if Arduino.sock (Arduino._client w) then w
             else Arduino._connect (Arduino.conn x) (Arduino.now x) w) in *.
  destruct (negb (Arduino.sock (Arduino._client w1))); [exact H1|].
  destruct (Arduino.sendall x) as [e|].
  - rewrite every_exn_is_Exception. cbn [fst].
    unfold Arduino.get_dome in *. cbn.
    rewrite lookup_insert_ne; [exact H1 | discriminate].
  - destruct (Arduino.recv_line (Arduino.recvs x) "") as [buffer|e].
    + cbn [fst]. unfold Arduino.get_dome in *. cbn.
      rewrite lookup_insert_ne; [exact H1 | discriminate].
    + rewrite every_exn_is_Exception. cbn [fst].
      unfold Arduino.get_dome in *. cbn.
      rewrite lookup_insert_ne; [exact H1 | discriminate].
Qed.

Lemma get_dome_update stamp w :
  Arduino.get_dome (Arduino._update stamp w) = Arduino.get_dome w.
Proof.
  unfold Arduino._update.
  destruct (Arduino._socketio _);
    unfold Arduino.get_dome; cbn;
    rewrite lookup_insert_ne; (reflexivity || discriminate).
Qed.

(** The status parse keeps the dome status inside the enum. *)
Lemma parse_status_line_dome line w :
  is_dome_status (Arduino.get_dome w) ->
  is_dome_status (Arduino.get_dome (fst (Arduino.parse_status_line line w))).
Proof.
  intros Hw. unfold Arduino.parse_status_line.
  destruct (Py.startswith line "dome:").
  - destruct (Arduino.field_int line) as [dome_pos|e]; [|exact Hw].
    cbn [fst]. rewrite get_dome_set_state_dome, dome_label_classify.
    eexists. reflexivity.
  - destruct (Py.startswith line "et1:").
    + destruct (Arduino.field_int line); [|exact Hw].
      cbn [fst]. rewrite get_dome_set_state_other; [exact Hw|discriminate].
    + destruct (Py.startswith line "et2:"); [|exact Hw].
      destruct (Arduino.field_int line); [|exact Hw].
      cbn [fst]. rewrite get_dome_set_state_other; [exact Hw|discriminate].
Qed.

Lemma parse_status_lines_dome lines : forall w,
  is_dome_status (Arduino.get_dome w) ->
  is_dome_status (Arduino.get_dome (fst (Arduino.parse_status_lines lines w))).
Proof.
  induction lines as [|line rest IH]; intros w Hw; [exact Hw|].
  cbn [Arduino.parse_status_lines].
  pose proof (parse_status_line_dome line w Hw) as H1.
  destruct (Arduino.parse_status_line line w) as [w' [u|e]];
    cbn [fst] in *; [apply IH, H1 | exact H1].
Qed.

(** The poll loop keeps the dome status inside the enum. *)
Lemma poll_status_dome x stamp w :
  is_dome_status (Arduino.get_dome w) ->
  is_dome_status (Arduino.get_dome (Arduino.poll_status x stamp w)).
Proof.
  intros Hw. unfold Arduino.poll_status.
  pose proof (get_dome_send "status" x w) as Hsend.
  destruct (Arduino.send "status" x w) as [w1 [dome|e]]; cbn [fst] in Hsend.
  - assert (H1 : is_dome_status (Arduino.get_dome w1))
      by (rewrite Hsend; exact Hw).
    pose proof (parse_status_lines_dome
                  (Py.split Py.nl (Py.strip dome)) w1 H1) as H2.
    destruct (Arduino.parse_status_lines _ w1) as [w2 [u|e]];
      cbn [fst] in H2.
    + rewrite get_dome_update. exact H2.
    + rewrite get_dome_set_state_other; [exact H2 | discriminate].
  - rewrite get_dome_set_state_other; [|discriminate].
    unfold Arduino.get_dome in *. cbn. rewrite <- Hsend in Hw. exact Hw.
Qed.

(** ["CLOSE"] is the text of no dome status. *)
Lemma CLOSE_is_no_dome_status : ~ is_dome_status (Arduino.PStr "CLOSE").
Proof. intros [[| |angleDeg|] H]; discriminate. Qed.

(** C6 fails on the success path of [set_dome("close")]: the board
    acknowledges with [dome:0], [set_dome] reports success and stores
    the upper-cased command, ["CLOSE"], which is none of the dome
    statuses (the poll loop stores ["CLOSED"] for the same position). *)
Theorem set_dome_close_stores_CLOSE :
  let reply := dome_reply "0" in
  let w := fst (Arduino.set_dome "close" reply "2025-01-01 00:00:00"
                  (Arduino.init 0)) in
  snd (Arduino.set_dome "close" reply "2025-01-01 00:00:00" (Arduino.init 0))
  = Py.Ok true
  /\ Arduino.get_dome w = Arduino.PStr "CLOSE"
  /\ ~ is_dome_status (Arduino.get_dome w)
  /\ Arduino.get_dome
       (Arduino.poll_status reply "2025-01-01 00:00:05" w)
     = Arduino.PStr "CLOSED".
Proof.
  cbv zeta. split; [vm_compute; reflexivity|].
  assert (H : Arduino.get_dome
                (fst (Arduino.set_dome "close"
                        (dome_reply "0") "2025-01-01 00:00:00"
                        (Arduino.init 0)))
              = Arduino.PStr "CLOSE") by (vm_compute; reflexivity).
  split; [exact H|]. split; [rewrite H; exact CLOSE_is_no_dome_status|].
  vm_compute. reflexivity.
Qed.

(** Opening stores a member of the enum. *)
Example set_dome_open_stores_OPEN :
  Arduino.get_dome
    (fst (Arduino.set_dome "open"
            (dome_reply "180") "2025-01-01 00:00:00" (Arduino.init 0)))
  = Arduino.PStr (dome_text Open).
Proof. vm_compute. reflexivity. Qed.

(** The boundaries of the classification. *)
Example classify_boundaries :
  classify 180 = Open /\ classify 170 = Open /\ classify 169 = Moving 169
  /\ classify 90 = Moving 90 /\ classify 11 = Moving 11
  /\ classify 10 = Closed /\ classify 0 = Closed.
Proof. repeat split. Qed.

End Dome.

(* ===================================================================== *)
(** * Properties: pulse sessions                                          *)
(* ===================================================================== *)

Section Pulses.

(** The [finally] clause: a pulse that turned a motion switch on turns
    it off and clears the flag, whichever way its loop ended. *)
Lemma release_turns_motion_off tid p a m :
  Mount.pulses m !! tid = Some p ->
  Mount.at_ p = Mount.Releasing ->
  Mount.axis_of (Mount.direction p) = Some a ->
  exists m',
    Mount.step (Mount.Run tid) m = Some m'
    /\ Mount.sent m' = (Mount.sent m ++ [(Some tid, Mount.motion_off a)])%list
    /\ Mount._pulse_active m' = false
    /\ Mount.pulses m' !! tid = Some (Mount.at_pc p Mount.Done).
Proof.
  intros Hp Hat Hax. cbn [Mount.step]. rewrite Hp.
  unfold Mount.run_pulse. rewrite Hat, Hax.
  eexists. split; [reflexivity|]. cbn.
  split; [reflexivity|]. split; [reflexivity|].
  apply list_lookup_insert_eq. eapply lookup_lt_Some; eauto.
Qed.

(** A cancelled pulse leaves its loop at its next poll. *)
Lemma cancelled_pulse_leaves_loop tid p m :
  Mount.pulses m !! tid = Some p ->
  Mount.at_ p = Mount.Holding ->
  Mount._pulse_active m = false ->
  (Mount.wake p <= Mount.clock m)%Q ->
  Mount.step (Mount.Run tid) m
  = Some (Mount.set_pulse tid (Mount.at_pc p Mount.Releasing) m).
Proof.
  intros Hp Hat Hact Hwake. cbn [Mount.step]. rewrite Hp.
  unfold Mount.run_pulse. rewrite Hat, Hact.
  apply Qle_bool_iff in Hwake. rewrite Hwake. reflexivity.
Qed.

(** Guaranteed release, over every schedule. *)
Lemma run_pulse_keeps_released t p0 m m' :
  Mount.pulses m !! t = Some p0 ->
  Mount.run_pulse t p0 m = Some m' ->
  released_when_done m -> released_when_done m'.
Proof.
  intros Hp0 Hrun Hinv tid p a Hp Hdone Hax.
  assert (Hlt : (t < length (Mount.pulses m))%nat)
    by (eapply lookup_lt_Some; eauto).
  assert (Hold : forall q extra,
             Mount.at_ q <> Mount.Done ->
             Mount.pulses m' = <[t := q]> (Mount.pulses m) ->
             Mount.sent m' = (Mount.sent m ++ extra)%list ->
             In (Some tid, Mount.motion_off a) (Mount.sent m')).
  { intros q extra Hq Hpulses Hsent. rewrite Hsent. apply in_or_app. left.
    rewrite Hpulses in Hp. destruct (decide (t = tid)) as [->|Hne].
    - rewrite list_lookup_insert_eq in Hp by exact Hlt.
      injection Hp as <-. contradiction.
    - rewrite list_lookup_insert_ne in Hp by exact Hne.
      eapply Hinv; eauto. }
  unfold Mount.run_pulse in Hrun. destruct (Mount.at_ p0) eqn:Hat.
  - destruct (Mount.axis_of (Mount.direction p0)); injection Hrun as <-.
    + eapply (Hold _ [_; _]); [|reflexivity|cbn; rewrite <- app_assoc;
                                             reflexivity].
      discriminate.
    + eapply (Hold _ [_]); [|reflexivity|reflexivity]. discriminate.
  - destruct (Qle_bool (Mount.wake p0) (Mount.clock m)); [|discriminate].
    destruct (negb (Mount._pulse_active m)).
    + injection Hrun as <-.
      eapply (Hold _ []); [|reflexivity|cbn; rewrite app_nil_r; reflexivity].
      discriminate.
    + destruct (Mount.elapsed (Mount.clock m) p0); injection Hrun as <-;
        (eapply (Hold _ []);
         [|reflexivity|cbn; rewrite app_nil_r; reflexivity]); discriminate.
  - injection Hrun as <-.
    destruct (decide (t = tid)) as [->|Hne].
    + cbn in Hp.
      assert (Hp' : p = Mount.at_pc p0 Mount.Done).
      { destruct (Mount.axis_of (Mount.direction p0)); cbn in Hp;
          rewrite list_lookup_insert_eq in Hp by exact Hlt; congruence. }
      subst p. cbn in Hax. rewrite Hax. cbn.
      apply in_or_app. right. left. reflexivity.
    + assert (Hp' : Mount.pulses m !! tid = Some p).
      { destruct (Mount.axis_of (Mount.direction p0)); cbn in Hp;
          rewrite list_lookup_insert_ne in Hp by exact Hne; exact Hp. }
      pose proof (Hinv tid p a Hp' Hdone Hax) as Hin.
      destruct (Mount.axis_of (Mount.direction p0)); cbn;
        [apply in_or_app; left|]; exact Hin.
  - discriminate.
Qed.

Lemma step_keeps_released a m m' :
  Mount.step a m = Some m' -> released_when_done m -> released_when_done m'.
Proof.
  intros Hstep Hinv. destruct a as [dt|d ms_ r| | |t]; cbn in Hstep.
  - destruct (Qle_bool 0 dt); [|discriminate]. injection Hstep as <-.
    exact Hinv.
  - destruct (Mount.pending m); [discriminate|]. injection Hstep as <-.
    exact Hinv.
  - destruct (Mount.pending m) as [[[[d ms_] r] awake]|]; [|discriminate].
    destruct (Qle_bool awake (Mount.clock m)); [|discriminate].
    injection Hstep as <-. intros tid p a Hp Hdone Hax. cbn in *.
    apply lookup_app_Some in Hp as [Hp|[_ Hp]].
    + eapply Hinv; eauto.
    + destruct (tid - length (Mount.pulses m))%nat; cbn in Hp;
        [injection Hp as <-|]; discriminate.
  - injection Hstep as <-. intros tid p a Hp Hdone Hax. cbn in *.
    repeat (apply in_or_app; left). eapply Hinv; eauto.
  - destruct (Mount.pulses m !! t) as [p0|] eqn:E; [|discriminate].
    eapply run_pulse_keeps_released; eauto.
Qed.

(** Whatever the schedule, and however a pulse left its loop (duration
    elapsed or cancellation seen), a pulse that has ended has switched
    its axis off. *)
Lemma every_ended_pulse_released schedule : forall m m',
  Mount.run schedule m = Some m' ->
  released_when_done m -> released_when_done m'.
Proof.
  induction schedule as [|a rest IH]; intros m m' Hrun Hinv; cbn in Hrun.
  - injection Hrun as <-. exact Hinv.
  - destruct (Mount.step a m) as [m1|] eqn:E; [|discriminate].
    eapply IH; [exact Hrun|]. eapply step_keeps_released; eauto.
Qed.

Lemma released_when_done_init : released_when_done Mount.init.
Proof. intros tid p a Hp. cbn in Hp. discriminate. Qed.

(** C1 fails on the code.  After the second [nudge] has returned (its
    grace period is over), both pulse threads are in their hold loops on
    the RA switch vector, one holding EAST and one holding WEST, and a
    second later they still are.  When the first pulse times out it
    turns the RA switches off under the second pulse and clears the
    shared flag, which ends the second pulse before its duration. *)
Theorem second_nudge_overlaps_first_pulse :
  exists m,
    Mount.run overlap_schedule Mount.init = Some m
    /\ Mount.pending m = None
    /\ Mount._pulse_active m = true
    /\ Mount.holding m = [0%nat; 1%nat]
    /\ map (fun p => Mount.axis_of (Mount.direction p)) (Mount.pulses m)
       = [Some Mount.RA; Some Mount.RA]
    /\ Mount.sent m
       = [(Some 0%nat, Mount.slew_rate_msg None);
          (Some 0%nat, Mount.motion_on Mount.RA "east");
          (Some 1%nat, Mount.slew_rate_msg None);
          (Some 1%nat, Mount.motion_on Mount.RA "west")]
    /\ (exists m1,
          Mount.run [Mount.Tick 1; Mount.Run 0; Mount.Run 1] m = Some m1
          /\ Mount.holding m1 = [0%nat; 1%nat])
    /\ (exists m2,
          Mount.run [Mount.Tick (4990 # 1000); Mount.Run 0; Mount.Run 0;
                     Mount.Run 1; Mount.Run 1] m = Some m2
          /\ Mount.holding m2 = []
          /\ Mount.sent m2
             = (Mount.sent m
                ++ [(Some 0%nat, Mount.motion_off Mount.RA);
                    (Some 1%nat, Mount.motion_off Mount.RA)])%list)
    /\ (exists m3,
          Mount.run early_overlap_schedule Mount.init = Some m3
          /\ Mount.pending m3 = None
          /\ Mount.holding m3 = [0%nat; 1%nat]).
Proof.
  eexists. split; [vm_compute; reflexivity|].
  split; [reflexivity|]. split; [reflexivity|]. split; [reflexivity|].
  split; [reflexivity|]. split; [reflexivity|].
  split; [eexists; split; [vm_compute; reflexivity | reflexivity]|].
  split; [eexists; split; [vm_compute; reflexivity |
                           split; reflexivity]|].
  eexists. split; [vm_compute; reflexivity|]. split; reflexivity.
Qed.

(** One [nudge] with nothing else running does give one pulse that
    holds for its duration and releases. *)
Example single_nudge_one_pulse :
  exists m,
    Mount.run (Mount.nudge (Some "north") 200 None (1 # 100)
               ++ [Mount.Run 0; Mount.Run 0;
                   Mount.Tick (2 # 10); Mount.Run 0; Mount.Run 0]) Mount.init
    = Some m
    /\ Mount.holding m = []
    /\ Mount._pulse_active m = false
    /\ Mount.sent m
       = [(Some 0%nat, Mount.slew_rate_msg None);
          (Some 0%nat, Mount.motion_on Mount.DEC "north");
          (Some 0%nat, Mount.motion_off Mount.DEC)].
Proof.
  eexists. split; [vm_compute; reflexivity|].
  split; [reflexivity|]. split; reflexivity.
Qed.

(** [stop()] during a pulse: the pulse sees the cleared flag at its next
    poll and switches its axis off, long before its duration. *)
Example stop_cancels_pulse :
  exists m,
    Mount.run (Mount.nudge (Some "west") 5000 None (1 # 100)
               ++ [Mount.Run 0; Mount.Run 0; Mount.Tick (1 # 100);
                   Mount.Stop; Mount.Run 0; Mount.Run 0]) Mount.init
    = Some m
    /\ Mount.holding m = []
    /\ Mount._pulse_active m = false
    /\ Mount.sent m
       = [(Some 0%nat, Mount.slew_rate_msg None);
          (Some 0%nat, Mount.motion_on Mount.RA "west");
          (None, Mount.motion_off Mount.DEC);
          (None, Mount.motion_off Mount.RA);
          (None, Mount.abort_motion);
          (Some 0%nat, Mount.motion_off Mount.RA)].
Proof.
  eexists. split; [vm_compute; reflexivity|].
  split; [reflexivity|]. split; reflexivity.
Qed.

(** ** Invalid directions *)

Lemma slew_rate_msg_not_motion rate_ :
  Mount.is_motion (Mount.slew_rate_msg rate_) = false.
Proof. reflexivity. Qed.

(** C10.  [nudge] with a direction that, once lower-cased as [nudge]
    does first, is none of north, south, east, west: the call clears the
    pulse-active flag before anything looks at the direction, then sets
    it and starts a pulse thread; that thread sends the slew-rate vector
    and no motion vector, logs the invalid direction, and ends with the
    flag cleared. *)
Theorem nudge_invalid_direction_not_a_noop
  (m : Mount.mount) (direction_ : option string) (ms_ : Z)
  (rate_ : option string) :
  Mount.pending m = None ->
  Mount.axis_of (Py.lower (Py.str_or direction_ "")) = None ->
  let tid := length (Mount.pulses m) in
  let dir := Py.lower (Py.str_or direction_ "") in
  exists m1 m2 m3,
    Mount.step (Mount.NudgeEnter direction_ ms_ rate_) m = Some m1
    /\ Mount._pulse_active m1 = false
    /\ Mount.pulses m1 = Mount.pulses m
    /\ Mount.run [Mount.Tick (1 # 100); Mount.NudgeArm] m1 = Some m2
    /\ Mount._pulse_active m2 = true
    /\ Mount.pulses m2 !! tid
       = Some (Mount.Pulse dir (Mount.clamp_ms ms_) rate_ Mount.Spawned 0 0)
    /\ Mount.run [Mount.Run tid; Mount.Run tid] m2 = Some m3
    /\ Mount.sent m3
       = (Mount.sent m ++ [(Some tid, Mount.slew_rate_msg rate_)])%list
    /\ Mount.is_motion (Mount.slew_rate_msg rate_) = false
    /\ Mount.log m3
       = Logger.logged ("[MOUNT] ERROR invalid nudge direction: " ++ dir)
                       (Mount.log m)
    /\ Mount._pulse_active m3 = false
    /\ Mount.pulses m3 !! tid
       = Some (Mount.Pulse dir (Mount.clamp_ms ms_) rate_ Mount.Done 0 0).
Proof.
  intros Hpend Hdir tid dir.
  set (p0 := Mount.Pulse dir (Mount.clamp_ms ms_) rate_ Mount.Spawned 0 0).
  assert (Hawake : Qle_bool (Mount.clock m + (1 # 100))
                            (Mount.clock m + (1 # 100)) = true)
    by (apply Qle_bool_iff, Qle_refl).
  assert (Htid : (Mount.pulses m ++ [p0])%list !! tid = Some p0)
    by (apply list_lookup_middle; reflexivity).
  exists (Mount.MountState false (Mount.pulses m)
            (Some (dir, Mount.clamp_ms ms_, rate_,
                   (Mount.clock m + (1 # 100))%Q))
            (Mount.sent m) (Mount.log m) (Mount.clock m)),
         (Mount.MountState true (Mount.pulses m ++ [p0]) None
            (Mount.sent m) (Mount.log m) (Mount.clock m + (1 # 100))%Q),
         (Mount.MountState false
            (<[tid := Mount.at_pc p0 Mount.Done]>
               (<[tid := Mount.at_pc p0 Mount.Releasing]>
                  (Mount.pulses m ++ [p0])%list))
            None
            (Mount.sent m ++ [(Some tid, Mount.slew_rate_msg rate_)])
            (Logger.logged ("[MOUNT] ERROR invalid nudge direction: " ++ dir)
                           (Mount.log m))
            (Mount.clock m + (1 # 100))%Q).
  split; [cbn [Mount.step]; rewrite Hpend; reflexivity|].
  split; [reflexivity|]. split; [reflexivity|].
  split.
  { cbn -[Qplus Qle_bool]. replace (Qle_bool 0 (1 # 100)) with true
      by reflexivity.
    cbn -[Qplus Qle_bool]. rewrite Hawake. reflexivity. }
  split; [reflexivity|]. split; [exact Htid|].
  split.
  { cbn [Mount.run Mount.step Mount.pulses]. rewrite Htid.
    unfold Mount.run_pulse at 1.
    cbn [p0 Mount.at_ Mount.direction Mount.rate Mount.ms].
    unfold dir at 1. rewrite Hdir.
    cbn [Mount.set_pulse Mount.emit_log Mount.send_as Mount.pulses].
    rewrite list_lookup_insert_eq
      by (rewrite length_app; cbn; lia).
    unfold Mount.run_pulse.
    cbn [p0 Mount.at_pc Mount.at_ Mount.direction]. unfold dir at 1.
    rewrite Hdir. reflexivity. }
  split; [reflexivity|]. split; [reflexivity|]. split; [reflexivity|].
  split; [reflexivity|].
  cbn [Mount.pulses]. apply list_lookup_insert_eq.
  rewrite length_insert, length_app. cbn. lia.
Qed.

End Pulses.

(** C10 on an idle controller with the direction ["up"]. *)
Lemma nudge_invalid_direction_witness :
  let m := Mount.init in
  let tid := length (Mount.pulses m) in
  let dir := Py.lower (Py.str_or (Some "up") "") in
  exists m1 m2 m3,
    Mount.step (Mount.NudgeEnter (Some "up") 200 None) m = Some m1
    /\ Mount._pulse_active m1 = false
    /\ Mount.pulses m1 = Mount.pulses m
    /\ Mount.run [Mount.Tick (1 # 100); Mount.NudgeArm] m1 = Some m2
    /\ Mount._pulse_active m2 = true
    /\ Mount.pulses m2 !! tid
       = Some (Mount.Pulse dir (Mount.clamp_ms 200) None Mount.Spawned 0 0)
    /\ Mount.run [Mount.Run tid; Mount.Run tid] m2 = Some m3
    /\ Mount.sent m3
       = (Mount.sent m ++ [(Some tid, Mount.slew_rate_msg None)])%list
    /\ Mount.is_motion (Mount.slew_rate_msg None) = false
    /\ Mount.log m3
       = Logger.logged ("[MOUNT] ERROR invalid nudge direction: " ++ dir)
                       (Mount.log m)
    /\ Mount._pulse_active m3 = false
    /\ Mount.pulses m3 !! tid
       = Some (Mount.Pulse dir (Mount.clamp_ms 200) None Mount.Done 0 0).
Proof.
  apply (nudge_invalid_direction_not_a_noop Mount.init (Some "up") 200 None).
  - reflexivity.
  - reflexivity.
Defined.

(** Upper-case spellings are valid directions: [nudge] lower-cases first. *)
Example nudge_direction_case_insensitive :
  Mount.axis_of (Py.lower (Py.str_or (Some "NORTH") "")) = Some Mount.DEC
  /\ Mount.axis_of (Py.lower (Py.str_or None "")) = None.
Proof. split; reflexivity. Qed.

(* ===================================================================== *)
(** * Further properties: the log buffer                                  *)
(* ===================================================================== *)

Section LogBuffer.

Lemma logged_as_drop (hist : list string) (msg : string) :
  Logger.logged msg (drop (length hist - 300) hist)
  = drop (length (hist ++ [msg]) - 300) (hist ++ [msg]).
Proof.
  unfold Logger.logged. rewrite !length_app, length_drop. cbn [length].
  destruct (Nat.ltb_spec 300 (length hist - (length hist - 300) + 1)) as [H|H].
  - (* the buffer was full: the oldest line goes *)
    replace (length hist + 1 - 300)%nat with (S (length hist - 300)) by lia.
    rewrite <- drop_app_le by lia.
    generalize (hist ++ [msg])%list. intros l.
    replace (S (length hist - 300)) with (length hist - 300 + 1)%nat by lia.
    rewrite <- (drop_drop l 1 (length hist - 300)).
    destruct (drop (length hist - 300) l); reflexivity.
  - replace (length hist + 1 - 300)%nat with 0%nat by lia.
    replace (length hist - 300)%nat with 0%nat by lia.
    reflexivity.
Qed.

Lemma emit_logs_as_drop (msgs : list string) : forall hist,
  Logger.emit_logs msgs (drop (length hist - 300) hist)
  = drop (length (hist ++ msgs) - 300) (hist ++ msgs).
Proof.
  induction msgs as [|msg rest IH]; intros hist.
  - cbn. rewrite app_nil_r. reflexivity.
  - cbn [Logger.emit_logs fold_left]. rewrite logged_as_drop.
    change (fold_left _ rest ?b) with (Logger.emit_logs rest b).
    rewrite IH, <- app_assoc. reflexivity.
Qed.

(** X1.  The log history is the last 300 lines emitted: after any run of
    [emit_log] calls on an empty buffer, [get_log_history()] is the run
    with all but its last 300 messages dropped, so it never holds more
    than 300 lines and always ends with the newest one. *)
Theorem log_history_is_last_300 (msgs : list string) :
  let history := Logger.get_log_history (Logger.emit_logs msgs []) in
  history = drop (length msgs - 300) msgs
  /\ (length history <= 300)%nat
  /\ (forall msg, msgs <> [] -> List.last msgs msg = List.last history msg).
Proof.
  cbv zeta. unfold Logger.get_log_history.
  pose proof (emit_logs_as_drop msgs []) as H. cbn [drop length app] in H.
  change (drop (0 - 300) []) with (@nil string) in H.
  rewrite H. split; [reflexivity|]. split.
  - rewrite length_drop. lia.
  - intros msg Hne. destruct msgs as [|m rest _] using rev_ind; [congruence|].
    rewrite length_app. cbn [length].
    rewrite drop_app_le by lia.
    replace (length rest + 1 - 300 - length rest)%nat with 0%nat by lia.
    rewrite !List.last_last. reflexivity.
Qed.

End LogBuffer.

(* ===================================================================== *)
(** * Further properties: the guider                                      *)
(* ===================================================================== *)

Section GuiderMore.

Variable int_of_product : Q -> Q -> Z.
Variable cfg : Guide.GuiderConfig.

Lemma guide_frames_cons f frames g :
  Guide.guide_frames int_of_product cfg (f :: frames) g
  = Guide.guide_frames int_of_product cfg frames (guide_frame int_of_product cfg f g).
Proof. reflexivity. Qed.

Lemma guide_frames_app frames1 frames2 g :
  Guide.guide_frames int_of_product cfg (frames1 ++ frames2) g
  = Guide.guide_frames int_of_product cfg frames2 (Guide.guide_frames int_of_product cfg frames1 g).
Proof. unfold Guide.guide_frames. apply fold_left_app. Qed.

Lemma guide_frame_lock_consistent f g :
  1 <= Guide.lock_hold_frames cfg ->
  0 <= Guide._lock_streak g <= Guide.lock_hold_frames cfg ->
  lock_consistent cfg (guide_frame int_of_product cfg f g).
Proof.
  intros Hhold Hs. unfold lock_consistent, guide_frame.
  rewrite guide_locked, guide_streak. unfold Guide.next_streak.
  destruct (Qle_bool _ _).
  - split; [lia|].
    destruct (Z.eqb_spec (Z.min (Guide._lock_streak g + 1)
                                (Guide.lock_hold_frames cfg))
                         (Guide.lock_hold_frames cfg));
      [apply Z.leb_le | apply Z.leb_gt]; lia.
  - split; [lia|].
    destruct (Z.eqb_spec (Z.max (Guide._lock_streak g - 1) 0)
                         (Guide.lock_hold_frames cfg));
      [apply Z.leb_le | apply Z.leb_gt]; lia.
Qed.

Lemma guide_frames_lock_consistent frames : forall g,
  1 <= Guide.lock_hold_frames cfg ->
  lock_consistent cfg g ->
  lock_consistent cfg (Guide.guide_frames int_of_product cfg frames g).
Proof.
  induction frames as [|f rest IH]; intros g Hhold Hg; [exact Hg|].
  rewrite guide_frames_cons. apply IH; [exact Hhold|].
  apply guide_frame_lock_consistent; [exact Hhold | apply Hg].
Qed.

(** X2.  With a hold count of at least one, whatever frames the guider
    sees, the lock streak stays between 0 and the hold count and [locked]
    is true exactly when the streak is at the hold count. *)
Theorem lock_streak_bounded_and_locked_at_cap (frames : list Guide.frame) :
  1 <= Guide.lock_hold_frames cfg ->
  let g := Guide.guide_frames int_of_product cfg frames Guide.init in
  0 <= Guide._lock_streak g <= Guide.lock_hold_frames cfg
  /\ (Guide._locked g = true
      <-> Guide._lock_streak g = Guide.lock_hold_frames cfg).
Proof.
  intros Hhold g.
  assert (Hinit : lock_consistent cfg Guide.init).
  { split; [cbn; lia|].
    change (false = (0 =? Guide.lock_hold_frames cfg)).
    symmetry. apply Z.eqb_neq. lia. }
  destruct (guide_frames_lock_consistent frames _ Hhold Hinit) as [Hs Hl].
  fold g in Hs, Hl. split; [exact Hs|]. rewrite Hl. apply Z.eqb_eq.
Qed.

(** The streak after a run of frames outside the lock radius: one less
    per frame, floored at 0. *)
Lemma streak_after_misses frames : forall g,
  Forall (off_centre cfg) frames ->
  0 <= Guide._lock_streak g ->
  Guide._lock_streak (Guide.guide_frames int_of_product cfg frames g)
  = Z.max (Guide._lock_streak g - Z.of_nat (length frames)) 0.
Proof.
  induction frames as [|f rest IH]; intros g Hall Hs.
  - cbn. lia.
  - inversion Hall as [|? ? Hf Hrest]; subst.
    rewrite guide_frames_cons. unfold guide_frame.
    rewrite IH; [|exact Hrest|];
      rewrite guide_streak, (next_streak_off cfg _ _ Hf).
    + cbn [length]. lia.
    + lia.
Qed.

(** X3.  Losing and regaining lock.  From a locked guider, [k] frames
    outside the lock radius followed by [j] frames inside it leave the
    guider locked exactly when [j] makes up for the misses, that is when
    [min k hold <= j]: a single miss costs one centred frame, and no run
    of misses costs more than the hold count. *)
Theorem relock_needs_as_many_centred_as_misses
  (g : Guide.guider) (misses centreds : list Guide.frame) :
  1 <= Guide.lock_hold_frames cfg ->
  Guide._lock_streak g = Guide.lock_hold_frames cfg ->
  Guide._locked g = true ->
  Forall (off_centre cfg) misses ->
  Forall (centred cfg) centreds ->
  Guide._locked (Guide.guide_frames int_of_product cfg (misses ++ centreds) g)
  = (Z.min (Z.of_nat (length misses)) (Guide.lock_hold_frames cfg)
     <=? Z.of_nat (length centreds)).
Proof.
  intros Hhold Hstreak Hlocked Hmiss Hcen.
  assert (Hg : lock_consistent cfg g).
  { split; [lia|]. rewrite Hlocked. symmetry. apply Z.eqb_eq, Hstreak. }
  pose proof (guide_frames_lock_consistent (misses ++ centreds) g Hhold Hg)
    as [_ Hl].
  rewrite Hl, guide_frames_app.
  rewrite (streak_after_centred int_of_product cfg centreds _ Hcen);
    rewrite (streak_after_misses misses g Hmiss) by lia.
  - rewrite Hstreak.
    destruct (Z.leb_spec (Z.min (Z.of_nat (length misses))
                                (Guide.lock_hold_frames cfg))
                         (Z.of_nat (length centreds)));
      [apply Z.eqb_eq | apply Z.eqb_neq]; lia.
  - lia.
Qed.

(** What one iteration adds to the calls made on the mount, and what it
    does to the two refractory timers. *)
Lemma guide_frame_nudges f g :
  Guide.nudges (guide_frame int_of_product cfg f g)
  = (Guide.nudges g ++ corrections int_of_product cfg f g)%list
  /\ (forall a, Guide.last_pulse a (guide_frame int_of_product cfg f g)
                = if fires cfg a f g then Guide.at_time f
                  else Guide.last_pulse a g).
Proof.
  split; [|intros a; destruct a];
    unfold guide_frame, Guide._guide, corrections, fires, correction,
      Guide.opportunity, Guide.last_pulse;
    (destruct (Qle_bool (Guide.r f) (inject_Z (Guide.deadband_px cfg)));
     [cbn; rewrite ?app_nil_r; reflexivity|]);
    cbn [negb andb Guide.last_pulse_ra Guide.last_pulse_dec Guide.nudges];
    destruct (Guide.off_axis cfg (Guide.dx f));
    destruct (Guide.rested cfg (Guide.at_time f) (Guide.last_pulse_ra g));
    cbn [andb Guide.last_pulse_dec];
    destruct (Guide.off_axis cfg (Guide.dy f));
    destruct (Guide.rested cfg (Guide.at_time f) (Guide.last_pulse_dec g));
    cbn [andb Guide.last_pulse_ra Guide.last_pulse_dec Guide.nudges
         Guide._locked Guide._lock_streak];
    rewrite ?app_nil_r, <- ?app_assoc; reflexivity.
Qed.

Lemma on_axis_correction a b f :
  Guide.on_axis a (correction int_of_product cfg b f)
  = match a, b with
    | Mount.RA, Mount.RA | Mount.DEC, Mount.DEC => true
    | _, _ => false
    end.
Proof.
  destruct a, b; unfold correction, Guide.on_axis; cbn;
    try destruct (Guide.Qlt_bool 0 (Guide.dx f));
    try destruct (Guide.Qlt_bool 0 (Guide.dy f)); reflexivity.
Qed.

(** X4.  One iteration of [_guide].  Inside the deadband it makes no call
    and moves no timer.  Otherwise it adds to the calls made on the
    mount, in this order, one call on RA and then one on DEC, each made
    exactly when the error along that axis is outside the deadband and
    the axis has rested for the refractory interval: towards east for
    dx > 0 (else west), south for dy > 0 (else north), both for the
    same duration, [int(kp * r)] clamped to the pulse range, at the
    solar rate.  It records the time on the axes it has corrected and on
    no other, and never makes more than two calls. *)
Theorem guide_corrects_each_rested_axis_once
  (f : Guide.frame) (g : Guide.guider) :
  let g' := guide_frame int_of_product cfg f g in
  let ms :=
    Z.max (Guide.min_pulse_ms cfg)
          (Z.min (int_of_product (Guide.kp_ms_per_px cfg) (Guide.r f))
                 (Guide.max_pulse_ms cfg)) in
  Guide.nudges g'
  = (Guide.nudges g
     ++ (if fires cfg Mount.RA f g
         then [Guide.Nudge (if Guide.Qlt_bool 0 (Guide.dx f)
                            then "east" else "west") ms "solar"]
         else [])
     ++ (if fires cfg Mount.DEC f g
         then [Guide.Nudge (if Guide.Qlt_bool 0 (Guide.dy f)
                            then "south" else "north") ms "solar"]
         else []))%list
  /\ (forall a,
        Guide.last_pulse a g'
        = if fires cfg a f g then Guide.at_time f
          else Guide.last_pulse a g)
  /\ ((Guide.r f <= inject_Z (Guide.deadband_px cfg))%Q ->
      Guide.nudges g' = Guide.nudges g
      /\ forall a, Guide.last_pulse a g' = Guide.last_pulse a g)
  /\ (length (Guide.nudges g') <= length (Guide.nudges g) + 2)%nat.
Proof.
  cbv zeta. destruct (guide_frame_nudges f g) as [Hn Ht].
  split; [exact Hn|]. split; [exact Ht|]. split.
  - intros Hr. apply Qle_bool_iff in Hr.
    assert (Hno : forall a, fires cfg a f g = false).
    { intros a. unfold fires, Guide.opportunity. rewrite Hr. reflexivity. }
    rewrite Hn. unfold corrections. rewrite !Hno, app_nil_r.
    split; [reflexivity|]. intros a. rewrite Ht, Hno. reflexivity.
  - rewrite Hn, length_app. unfold corrections.
    destruct (fires cfg Mount.RA f g); destruct (fires cfg Mount.DEC f g);
      cbn; lia.
Qed.

Lemma pulse_ms_range r :
  Guide.min_pulse_ms cfg <= Guide.max_pulse_ms cfg ->
  Guide.min_pulse_ms cfg <= Guide.pulse_ms int_of_product cfg r
  <= Guide.max_pulse_ms cfg.
Proof. unfold Guide.pulse_ms. lia. Qed.

Lemma correction_accepted a f :
  20 <= Guide.min_pulse_ms cfg ->
  Guide.min_pulse_ms cfg <= Guide.max_pulse_ms cfg ->
  Guide.max_pulse_ms cfg <= 5000 ->
  accepted_call cfg (correction int_of_product cfg a f).
Proof.
  intros Hmin Hle Hmax. unfold accepted_call, correction.
  cbn [Guide.ms Guide.rate Guide.direction].
  pose proof (pulse_ms_range (Guide.r f) Hle) as Hr.
  split; [exact Hr|]. split; [unfold Mount.clamp_ms; lia|].
  split; [reflexivity|].
  destruct a;
    [destruct (Guide.Qlt_bool 0 (Guide.dx f))
    |destruct (Guide.Qlt_bool 0 (Guide.dy f))]; discriminate.
Qed.

(** X5.  When the guider's pulse range sits inside the mount's
    (20 <= min_pulse_ms <= max_pulse_ms <= 5000, as the defaults 40 and
    600 do), every call the guider ever makes on the mount names one of
    the four directions, asks for the solar rate, and carries a duration
    inside the guider's range that [nudge]'s own clamp leaves unchanged. *)
Theorem guider_calls_accepted_by_mount (frames : list Guide.frame) :
  20 <= Guide.min_pulse_ms cfg ->
  Guide.min_pulse_ms cfg <= Guide.max_pulse_ms cfg ->
  Guide.max_pulse_ms cfg <= 5000 ->
  Forall (accepted_call cfg)
         (Guide.nudges (Guide.guide_frames int_of_product cfg frames Guide.init)).
Proof.
  intros Hmin Hle Hmax.
  assert (Hgen : forall g, Forall (accepted_call cfg) (Guide.nudges g) ->
                 Forall (accepted_call cfg)
                        (Guide.nudges (Guide.guide_frames int_of_product cfg frames g))).
  { induction frames as [|f rest IH]; intros g Hg; [exact Hg|].
    rewrite guide_frames_cons. apply IH.
    destruct (guide_frame_nudges f g) as [-> _].
    apply Forall_app. split; [exact Hg|]. unfold corrections.
    apply Forall_app. split.
    - destruct (fires cfg Mount.RA f g); constructor;
        [apply correction_accepted; assumption | constructor].
    - destruct (fires cfg Mount.DEC f g); constructor;
        [apply correction_accepted; assumption | constructor]. }
  apply Hgen. constructor.
Qed.

End GuiderMore.

(** X6.  The blur kernel size [_odd(n)] is odd, is [n] or [n + 1], leaves
    odd sizes alone, and applying it twice changes nothing more. *)
Theorem odd_kernel_size (n : Z) :
  Z.odd (Guide._odd n) = true
  /\ n <= Guide._odd n <= n + 1
  /\ (Z.odd n = true -> Guide._odd n = n)
  /\ Guide._odd (Guide._odd n) = Guide._odd n.
Proof.
  assert (Hodd : forall k, Z.odd (Guide._odd k) = true
                           /\ (Z.odd k = true -> Guide._odd k = k)
                           /\ k <= Guide._odd k <= k + 1).
  { intros k. unfold Guide._odd. rewrite (Zmod_odd k).
    destruct (Z.odd k) eqn:E; cbn.
    - split; [exact E|]. split; [reflexivity | lia].
    - split; [|split; [discriminate | lia]].
      rewrite Z.odd_add, E. reflexivity. }
  destruct (Hodd n) as (H1 & H2 & H3).
  split; [exact H1|]. split; [exact H3|]. split; [exact H2|].
  apply (Hodd (Guide._odd n)), H1.
Qed.

(** X2 at the defaults, on three frames. *)
Lemma lock_streak_witness :
  let g := Guide.guide_frames Guide.int_of_exact_product Guide.default_config
             [Guide.Frame 0 0 0 0; Guide.Frame 1 20 0 20; Guide.Frame 2 0 0 0]
             Guide.init in
  0 <= Guide._lock_streak g <= Guide.lock_hold_frames Guide.default_config
  /\ (Guide._locked g = true
      <-> Guide._lock_streak g = Guide.lock_hold_frames Guide.default_config).
Proof.
  apply (lock_streak_bounded_and_locked_at_cap Guide.int_of_exact_product
           Guide.default_config
           [Guide.Frame 0 0 0 0; Guide.Frame 1 20 0 20; Guide.Frame 2 0 0 0]).
  cbn. lia.
Defined.

(** X3 at the defaults: locked, two misses, then two centred frames. *)
Lemma relock_witness :
  Guide._locked
    (Guide.guide_frames Guide.int_of_exact_product Guide.default_config
       ([Guide.Frame 0 9 0 9; Guide.Frame 1 9 0 9]
        ++ [Guide.Frame 2 0 0 0; Guide.Frame 3 0 0 0])
       (Guide.Guider true 10 0 0 []))
  = (Z.min (Z.of_nat (length [Guide.Frame 0 9 0 9; Guide.Frame 1 9 0 9]))
           (Guide.lock_hold_frames Guide.default_config)
     <=? Z.of_nat (length [Guide.Frame 2 0 0 0; Guide.Frame 3 0 0 0])).
Proof.
  apply (relock_needs_as_many_centred_as_misses Guide.int_of_exact_product
           Guide.default_config
           (Guide.Guider true 10 0 0 [])).
  - cbn. lia.
  - reflexivity.
  - reflexivity.
  - repeat constructor; unfold off_centre; cbn; reflexivity.
  - repeat constructor; unfold centred; cbn; discriminate.
Defined.

(** X5 at the defaults. *)
Lemma guider_calls_witness :
  Forall (accepted_call Guide.default_config)
         (Guide.nudges
            (Guide.guide_frames Guide.int_of_exact_product Guide.default_config
               [Guide.Frame 1000 20 (-30) 36] Guide.init)).
Proof.
  apply (guider_calls_accepted_by_mount Guide.int_of_exact_product
           Guide.default_config
           [Guide.Frame 1000 20 (-30) 36]); cbn; lia.
Defined.

(* ===================================================================== *)
(** * Further properties: the contour choice                              *)
(* ===================================================================== *)

Section Contour.

Variable min_contour_area : Z.

Lemma Qlt_bool_iff (x y : Q) : Guide.Qlt_bool x y = true <-> (x < y)%Q.
Proof.
  unfold Guide.Qlt_bool. rewrite negb_true_iff. split.
  - intros H. apply Qnot_le_lt. intros Hle.
    apply Qle_bool_iff in Hle. congruence.
  - intros H. destruct (Qle_bool y x) eqn:E; [|reflexivity].
    apply Qle_bool_iff in E. exfalso. exact (Qlt_not_le _ _ H E).
Qed.

Lemma contour_test (best_area a : Q) :
  Guide.Qlt_bool best_area a && Qle_bool (inject_Z min_contour_area) a = true
  <-> (best_area < a)%Q /\ (inject_Z min_contour_area <= a)%Q.
Proof. rewrite andb_true_iff, Qlt_bool_iff, Qle_bool_iff. reflexivity. Qed.

(** The loop of the contour choice, from any point of the iteration:
    either no later contour replaces the best so far, or the result is
    the first of the largest qualifying later contours. *)
Lemma choose_contour_spec (areas : list Q) : forall i best best_area,
  (Guide.choose_contour min_contour_area areas i best best_area
   = (best, best_area)
   /\ Forall (fun b => ~ ((best_area < b)%Q
                          /\ (inject_Z min_contour_area <= b)%Q)) areas)
  \/ exists k a,
       Guide.choose_contour min_contour_area areas i best best_area
       = (Some (i + k)%nat, a)
       /\ areas !! k = Some a
       /\ (best_area < a)%Q
       /\ (inject_Z min_contour_area <= a)%Q
       /\ (forall j b, areas !! j = Some b ->
                       (inject_Z min_contour_area <= b)%Q -> (b <= a)%Q)
       /\ (forall j b, (j < k)%nat -> areas !! j = Some b ->
                       (inject_Z min_contour_area <= b)%Q -> (b < a)%Q).
Proof.
  induction areas as [|a0 rest IH]; intros i best best_area.
  - left. split; [reflexivity | constructor].
  - cbn [Guide.choose_contour].
    destruct (Guide.Qlt_bool best_area a0
              && Qle_bool (inject_Z min_contour_area) a0) eqn:Etest.
    + apply contour_test in Etest. destruct Etest as [Hlt Hmin].
      right.
      destruct (IH (S i) (Some i) a0)
        as [[Heq Hall] | (k & a & Heq & Hk & Hlt' & Hmin' & Hmax & Hfirst)].
      * exists 0%nat, a0. rewrite Heq, Nat.add_0_r.
        split; [reflexivity|]. split; [reflexivity|].
        split; [exact Hlt|]. split; [exact Hmin|]. split; [|intros; lia].
        intros [|j] b Hj Hb; cbn in Hj.
        -- injection Hj as <-. apply Qle_refl.
        -- apply Qnot_lt_le. intros Hab.
           rewrite Forall_lookup in Hall.
           apply (Hall j b Hj). split; assumption.
      * exists (S k), a. rewrite Heq, Nat.add_succ_r.
        split; [reflexivity|]. split; [exact Hk|].
        split; [exact (Qlt_trans _ _ _ Hlt Hlt')|]. split; [exact Hmin'|].
        split.
        -- intros [|j] b Hj Hb; cbn in Hj.
           ++ injection Hj as <-. apply Qlt_le_weak, Hlt'.
           ++ exact (Hmax j b Hj Hb).
        -- intros [|j] b Hjk Hj Hb; cbn in Hj.
           ++ injection Hj as <-. exact Hlt'.
           ++ apply (Hfirst j b); [lia | exact Hj | exact Hb].
    + assert (Hno : ~ ((best_area < a0)%Q
                       /\ (inject_Z min_contour_area <= a0)%Q)).
      { intros H. apply contour_test in H. congruence. }
      destruct (IH (S i) best best_area)
        as [[Heq Hall] | (k & a & Heq & Hk & Hlt' & Hmin' & Hmax & Hfirst)].
      * left. split; [exact Heq|]. constructor; assumption.
      * right. exists (S k), a. rewrite Heq, Nat.add_succ_r.
        split; [reflexivity|]. split; [exact Hk|].
        split; [exact Hlt'|]. split; [exact Hmin'|].
        assert (Hhead : (inject_Z min_contour_area <= a0)%Q -> (a0 < a)%Q).
        { intros Hb. apply Qle_lt_trans with best_area; [|exact Hlt'].
          apply Qnot_lt_le. intros Hab. apply Hno. split; assumption. }
        split.
        -- intros [|j] b Hj Hb; cbn in Hj.
           ++ injection Hj as <-. apply Qlt_le_weak, Hhead, Hb.
           ++ exact (Hmax j b Hj Hb).
        -- intros [|j] b Hjk Hj Hb; cbn in Hj.
           ++ injection Hj as <-. exact (Hhead Hb).
           ++ apply (Hfirst j b); [lia | exact Hj | exact Hb].
Qed.

(** X7.  The contour [_process_frame] takes for the sun.  When it takes
    one, its area is positive and at least [min_contour_area], no
    qualifying contour is larger, and every qualifying contour before it
    in the list is strictly smaller (of equal largest contours the first
    wins).  It takes none exactly when no contour has a positive area of
    at least [min_contour_area]; a contour of area 0 is never taken, also
    with [min_contour_area] 0 or negative. *)
Theorem best_contour_is_first_largest_qualifying (areas : list Q) :
  match Guide.best_contour min_contour_area areas with
  | Some i =>
      exists a, areas !! i = Some a
        /\ (0 < a)%Q /\ (inject_Z min_contour_area <= a)%Q
        /\ (forall j b, areas !! j = Some b ->
                        (inject_Z min_contour_area <= b)%Q -> (b <= a)%Q)
        /\ (forall j b, (j < i)%nat -> areas !! j = Some b ->
                        (inject_Z min_contour_area <= b)%Q -> (b < a)%Q)
  | None =>
      Forall (fun b => ~ ((0 < b)%Q /\ (inject_Z min_contour_area <= b)%Q))
             areas
  end.
Proof.
  unfold Guide.best_contour.
  destruct (choose_contour_spec areas 0 None 0)
    as [[-> Hall] | (k & a & -> & Hk & Hlt & Hmin & Hmax & Hfirst)]; cbn.
  - exact Hall.
  - exists a. repeat split; assumption.
Qed.

End Contour.

(* ===================================================================== *)
(** * Further properties: the INDIGO client                              *)
(* ===================================================================== *)

Section ClientMore.

Lemma attempts_on_connected c :
  Indigo.attempts (Indigo.on_connected (Indigo.on_attempt c))
  = S (Indigo.attempts c).
Proof.
  unfold Indigo.attempts. cbn.
  rewrite !List.filter_app, !length_app. cbn. lia.
Qed.

(** X8.  [connect] against a peer that refuses (or times out) [k] times
    and then accepts, with [k] below the retries left: it returns with
    the client connected and the retry counter back at 0, after exactly
    [k + 1] connection attempts, a sleep of [reconnect_interval] after
    each refused one, and one listener thread started. *)
Theorem connect_succeeds_after_refusals
  (peer : nat -> option Py.exn) (max_retries : Z) (k : nat)
  (c : Indigo.client) :
  Indigo.stop_flag c = false ->
  Indigo.retry_count c + Z.of_nat k < max_retries ->
  (forall j, (j < k)%nat ->
     exists e, peer (Indigo.attempts c + j)%nat = Some e
               /\ Py.caught_by [Py.socket_timeout; Py.ConnectionRefusedError;
                                Py.OSError] e = true) ->
  peer (Indigo.attempts c + k)%nat = None ->
  exists c',
    Indigo.connect peer max_retries c = (c', Py.Ok tt)
    /\ Indigo.is_connected c' = true
    /\ Indigo.retry_count c' = 0
    /\ Indigo.attempts c' = (Indigo.attempts c + k + 1)%nat
    /\ Indigo.trace c'
       = (Indigo.trace c
          ++ refused_attempts k (Indigo.reconnect_interval c)
          ++ [Indigo.ConnectAttempt; Indigo.ListenerStarted])%list.
Proof.
  revert c.
  induction k as [|k IH]; intros c Hstop Hlt Hrefused Haccept.
  - rewrite Nat.add_0_r in Haccept.
    rewrite connect_unfold, Hstop, Haccept.
    assert (Hltb : (Indigo.retry_count c <? max_retries) = true)
      by (apply Z.ltb_lt; lia).
    rewrite Hltb. eexists. split; [reflexivity|].
    split; [reflexivity|]. split; [reflexivity|].
    split; [rewrite attempts_on_connected; lia|].
    cbn. rewrite <- app_assoc. reflexivity.
  - destruct (Hrefused 0%nat) as (e & He & Hcaught); [lia|].
    rewrite Nat.add_0_r in He.
    rewrite connect_unfold, Hstop, He, Hcaught.
    assert (Hltb : (Indigo.retry_count c <? max_retries) = true)
      by (apply Z.ltb_lt; lia).
    rewrite Hltb.
    destruct (IH (Indigo.on_refused e (Indigo.on_attempt c)))
      as (c' & Hc' & Hconn & Hretry & Hatt & Htrace).
    + exact Hstop.
    + cbn. lia.
    + intros j Hj. rewrite attempts_on_refused.
      destruct (Hrefused (S j)) as (e' & He' & Hc); [lia|].
      exists e'. split; [|exact Hc]. rewrite <- He'. f_equal. lia.
    + rewrite attempts_on_refused. rewrite <- Haccept. f_equal. lia.
    + exists c'. split; [exact Hc'|]. split; [exact Hconn|].
      split; [exact Hretry|].
      split; [rewrite Hatt, attempts_on_refused; lia|].
      rewrite Htrace. cbn. rewrite <- !app_assoc. reflexivity.
Qed.

Variable json_loads : string -> option Json.value.
Variable py_str : Json.value -> string.

Ltac trace_facts :=
  unfold no_traffic, Indigo.attempts, written, Indigo.delivered; cbn;
  rewrite ?List.filter_app, ?flat_map_app; cbn; rewrite ?app_nil_r;
  try (split; reflexivity); try reflexivity.

Lemma no_traffic_refl c : no_traffic c c.
Proof. split; reflexivity. Qed.

Lemma no_traffic_trans c1 c2 c3 :
  no_traffic c1 c2 -> no_traffic c2 c3 -> no_traffic c1 c3.
Proof. intros [H1 H2] [H3 H4]. split; congruence. Qed.

(** What [_dispatch] leaves alone. *)
Lemma dispatch_frame line c :
  let c' := fst (Indigo._dispatch json_loads py_str line c) in
  Indigo.stop_flag c' = Indigo.stop_flag c
  /\ Indigo.connected c' = Indigo.connected c
  /\ Indigo.sock c' = Indigo.sock c
  /\ Indigo.callbacks c' = Indigo.callbacks c
  /\ no_traffic c c'.
Proof.
  cbv zeta. unfold Indigo._dispatch.
  repeat case_match; cbn [fst];
    (repeat split; try reflexivity); trace_facts.
Qed.

Lemma dispatch_lines_frame lines : forall c,
  let c' := fst (Indigo.dispatch_lines json_loads py_str lines c) in
  Indigo.stop_flag c' = Indigo.stop_flag c
  /\ Indigo.connected c' = Indigo.connected c
  /\ Indigo.sock c' = Indigo.sock c
  /\ Indigo.callbacks c' = Indigo.callbacks c
  /\ no_traffic c c'.
Proof.
  induction lines as [|line rest IH]; intros c; cbv zeta.
  - cbn. repeat split; reflexivity.
  - cbn [Indigo.dispatch_lines].
    pose proof (dispatch_frame line c) as Hd. cbv zeta in Hd.
    pose proof (dispatch_frame (Py.strip line) c) as Hs. cbv zeta in Hs.
    destruct (Indigo._dispatch json_loads py_str (Py.strip line) c)
      as [c1 [u|e]]; cbn [fst] in *.
    + specialize (IH c1). cbv zeta in IH.
      destruct Hs as (H1 & H2 & H3 & H4 & H5).
      destruct IH as (I1 & I2 & I3 & I4 & I5).
      repeat split; try congruence.
      * destruct H5, I5. congruence.
      * destruct H5, I5. congruence.
    + exact Hs.
Qed.

Lemma on_listener_exit_frame c :
  let c' := Indigo.on_listener_exit c in
  Indigo.stop_flag c' = Indigo.stop_flag c
  /\ Indigo.callbacks c' = Indigo.callbacks c
  /\ no_traffic c c'
  /\ Indigo.is_connected c' = false
  /\ List.last (Indigo.trace c') Indigo.ConnectAttempt = Indigo.SockClosed.
Proof.
  cbv zeta. repeat split; try reflexivity; trace_facts.
  cbn. apply last_last.
Qed.

Lemma on_listener_error_frame e c :
  let r := Indigo.on_listener_error e c in
  Indigo.stop_flag (fst r) = Indigo.stop_flag c
  /\ Indigo.callbacks (fst r) = Indigo.callbacks c
  /\ no_traffic c (fst r)
  /\ Indigo.is_connected (fst r) = false
  /\ List.last (Indigo.trace (fst r)) Indigo.ConnectAttempt
     = Indigo.SockClosed
  /\ exists uncaught, snd r = Indigo.Exited uncaught.
Proof.
  cbv zeta. unfold Indigo.on_listener_error.
  destruct (Py.caught_by _ e); cbn [fst snd];
    (repeat split; try reflexivity; trace_facts;
     try (cbn; apply last_last)); eexists; reflexivity.
Qed.

(** X9.  The read loop never reconnects and never writes.  Whatever the
    socket brings, [_listen_loop] makes no connection attempt, writes
    nothing, and leaves the callbacks and the stop flag alone.  While it
    is still looping it has not touched [connected]; once it has ended,
    for whatever reason, the client is disconnected, its last act on the
    socket was to close it, and the log ends with the two lines of the
    [finally] clause, the second saying that reconnection was skipped. *)
Theorem read_loop_never_reconnects
  (evs : list Indigo.sock_event) (buffer : string) (c : Indigo.client) :
  let r := Indigo._listen_loop json_loads py_str evs buffer c in
  no_traffic c (fst r)
  /\ Indigo.callbacks (fst r) = Indigo.callbacks c
  /\ Indigo.stop_flag (fst r) = Indigo.stop_flag c
  /\ match snd r with
     | Indigo.Listening _ =>
         Indigo.connected (fst r) = Indigo.connected c
         /\ Indigo.sock (fst r) = Indigo.sock c
     | Indigo.Exited _ =>
         Indigo.is_connected (fst r) = false
         /\ List.last (Indigo.trace (fst r)) Indigo.ConnectAttempt
            = Indigo.SockClosed
         /\ exists earlier,
              Indigo.log (fst r)
              = Logger.logged
                  "[INDIGO] Reconnection skipped after listener exit."
                  (Logger.logged
                     "[INDIGO] Disconnected. Attempting to reconnect..."
                     earlier)
     end.
Proof.
  cbv zeta. revert buffer c.
  assert (Hexit : forall c0 c1,
            no_traffic c0 c1 ->
            Indigo.callbacks c1 = Indigo.callbacks c0 ->
            Indigo.stop_flag c1 = Indigo.stop_flag c0 ->
            no_traffic c0 (Indigo.on_listener_exit c1)
            /\ Indigo.callbacks (Indigo.on_listener_exit c1)
               = Indigo.callbacks c0
            /\ Indigo.stop_flag (Indigo.on_listener_exit c1)
               = Indigo.stop_flag c0
            /\ Indigo.is_connected (Indigo.on_listener_exit c1) = false
            /\ List.last (Indigo.trace (Indigo.on_listener_exit c1))
                         Indigo.ConnectAttempt = Indigo.SockClosed
            /\ exists earlier,
                 Indigo.log (Indigo.on_listener_exit c1)
                 = Logger.logged
                     "[INDIGO] Reconnection skipped after listener exit."
                     (Logger.logged
                        "[INDIGO] Disconnected. Attempting to reconnect..."
                        earlier)).
  { intros c0 c1 Ht Hc Hs.
    destruct (on_listener_exit_frame c1) as (E1 & E2 & E3 & E4 & E5).
    split; [exact (no_traffic_trans _ _ _ Ht E3)|].
    split; [congruence|]. split; [congruence|].
    split; [exact E4|]. split; [exact E5|].
    eexists. reflexivity. }
  assert (Herror : forall e c0 c1,
            no_traffic c0 c1 ->
            Indigo.callbacks c1 = Indigo.callbacks c0 ->
            Indigo.stop_flag c1 = Indigo.stop_flag c0 ->
            let r := Indigo.on_listener_error e c1 in
            no_traffic c0 (fst r)
            /\ Indigo.callbacks (fst r) = Indigo.callbacks c0
            /\ Indigo.stop_flag (fst r) = Indigo.stop_flag c0
            /\ match snd r with
               | Indigo.Listening _ =>
                   Indigo.connected (fst r) = Indigo.connected c0
                   /\ Indigo.sock (fst r) = Indigo.sock c0
               | Indigo.Exited _ =>
                   Indigo.is_connected (fst r) = false
                   /\ List.last (Indigo.trace (fst r)) Indigo.ConnectAttempt
                      = Indigo.SockClosed
                   /\ exists earlier,
                        Indigo.log (fst r)
                        = Logger.logged
                            "[INDIGO] Reconnection skipped after listener exit."
                            (Logger.logged
                               "[INDIGO] Disconnected. Attempting to reconnect..."
                               earlier)
               end).
  { intros e c0 c1 Ht Hc Hs. cbv zeta. unfold Indigo.on_listener_error.
    destruct (Py.caught_by _ e); cbn [fst snd].
    - destruct (Hexit c0 (Indigo.emit_log ("[INDIGO] Listener error: "
                                            ++ Indigo.exn_text e) c1))
        as (E1 & E2 & E3 & E4); [|exact Hc|exact Hs|].
      + eapply no_traffic_trans; [exact Ht|]. trace_facts.
      + refine (conj E1 (conj E2 (conj _ E4))); first [exact E3 | congruence].
    - destruct (Hexit c0 c1 Ht Hc Hs) as (E1 & E2 & E3 & E4).
      refine (conj E1 (conj E2 (conj _ E4))); first [exact E3 | congruence]. }
  induction evs as [|ev rest IH]; intros buffer c.
  - cbn [Indigo._listen_loop]. destruct (Indigo.stop_flag c) eqn:Hstop;
      cbn [fst snd].
    + destruct (Hexit c c (no_traffic_refl c) eq_refl eq_refl)
        as (E1 & E2 & E3 & E4).
      rewrite Hstop in E3. refine (conj E1 (conj E2 (conj _ E4))); first [exact E3 | congruence].
    + split; [apply no_traffic_refl|].
      repeat split; first [reflexivity | exact Hstop].
  - cbn [Indigo._listen_loop]. destruct (Indigo.stop_flag c) eqn:Hstop.
    + cbn [fst snd].
      destruct (Hexit c c (no_traffic_refl c) eq_refl eq_refl)
        as (E1 & E2 & E3 & E4).
      rewrite Hstop in E3. refine (conj E1 (conj E2 (conj _ E4))); first [exact E3 | congruence].
    + destruct ev as [|text|e].
      * specialize (IH buffer c). rewrite Hstop in IH. exact IH.
      * destruct text as [|ch text].
        -- cbn [fst snd].
           destruct (Hexit c (Indigo.emit_log
                                "[INDIGO] Connection closed by remote." c))
             as (E1 & E2 & E3 & E4); [trace_facts|reflexivity|reflexivity|].
           rewrite Hstop in E3. refine (conj E1 (conj E2 (conj _ E4))); first [exact E3 | congruence].
        -- destruct (Indigo.take_lines (buffer ++ String ch text))
             as [lines rest_] eqn:Etake.
           pose proof (dispatch_lines_frame lines c) as Hd. cbv zeta in Hd.
           destruct (Indigo.dispatch_lines json_loads py_str lines c)
             as [c1 [u|e]]; cbn [fst] in Hd;
             destruct Hd as (D1 & D2 & D3 & D4 & D5).
           ++ specialize (IH rest_ c1).
              destruct IH as (I1 & I2 & I3 & I4).
              split; [exact (no_traffic_trans _ _ _ D5 I1)|].
              split; [congruence|]. split; [congruence|].
              destruct (snd (Indigo._listen_loop json_loads py_str rest
                               rest_ c1)); [|exact I4].
              destruct I4. split; congruence.
           ++ pose proof (Herror e c c1 D5 D4 D1) as He. cbv zeta in He.
              rewrite Hstop in He. exact He.
      * pose proof (Herror e c c (no_traffic_refl c) eq_refl eq_refl) as He.
        cbv zeta in He. rewrite Hstop in He. exact He.
Qed.

(** A client whose stop flag is set and that is marked disconnected
    stays so under every call, and the call adds no connection attempt,
    no write and no delivery. *)
Lemma call_on_closed k c :
  Indigo.stop_flag c = true ->
  Indigo.connected c = false ->
  let c' := call json_loads py_str k c in
  Indigo.stop_flag c' = true
  /\ Indigo.connected c' = false
  /\ Indigo.attempts c' = Indigo.attempts c
  /\ written c' = written c
  /\ Indigo.delivered c' = Indigo.delivered c.
Proof.
  intros Hstop Hconn. cbv zeta. destruct k as [peer n|m quiet io|kind cb| |evs buffer];
    cbn [call].
  - rewrite connect_unfold, Hstop. cbn [fst].
    repeat split; cbn; first [assumption | trace_facts].
  - unfold Indigo.send. rewrite Hconn. cbn [negb orb fst].
    destruct quiet; repeat split; cbn; first [assumption | trace_facts].
  - repeat split; cbn; first [assumption | trace_facts].
  - unfold Indigo.close. cbn [Indigo.sock Indigo.set_connected
                              Indigo.set_stop_flag].
    destruct (Indigo.sock c); repeat split; cbn; first [assumption | trace_facts].
  - assert (Hloop : Indigo._listen_loop json_loads py_str evs buffer c
                    = (Indigo.on_listener_exit c, Indigo.Exited None)).
    { destruct evs; cbn [Indigo._listen_loop]; rewrite Hstop; reflexivity. }
    rewrite Hloop. cbn [fst].
    repeat split; cbn; first [assumption | trace_facts].
Qed.

(** X10.  [close()] is final.  After it, whatever is called on the
    client, in any order ([connect] again, [send], [on], [close], the
    listener thread running on), the stop flag stays set, the client is
    not connected, and there is no further connection attempt, no write
    to the socket and no delivery to a callback. *)
Theorem closed_client_stays_silent
  (ks : list client_call) (c : Indigo.client) :
  let c' := calls json_loads py_str ks (Indigo.close c) in
  Indigo.stop_flag c' = true
  /\ Indigo.is_connected c' = false
  /\ Indigo.attempts c' = Indigo.attempts c
  /\ written c' = written c
  /\ Indigo.delivered c' = Indigo.delivered c.
Proof.
  cbv zeta.
  assert (Hgen : forall c0,
            Indigo.stop_flag c0 = true -> Indigo.connected c0 = false ->
            let c' := calls json_loads py_str ks c0 in
            Indigo.stop_flag c' = true
            /\ Indigo.connected c' = false
            /\ Indigo.attempts c' = Indigo.attempts c0
            /\ written c' = written c0
            /\ Indigo.delivered c' = Indigo.delivered c0).
  { induction ks as [|k rest IH]; intros c0 Hstop Hconn; cbv zeta.
    - cbn. repeat split; assumption || reflexivity.
    - destruct (call_on_closed k c0 Hstop Hconn) as (K1 & K2 & K3 & K4 & K5).
      destruct (IH _ K1 K2) as (I1 & I2 & I3 & I4 & I5).
      change (calls json_loads py_str (k :: rest) c0)
        with (calls json_loads py_str rest (call json_loads py_str k c0)).
      repeat split; congruence. }
  destruct (Hgen (Indigo.close c)) as (G1 & G2 & G3 & G4 & G5);
    [unfold Indigo.close; cbn [Indigo.sock Indigo.set_connected
                               Indigo.set_stop_flag];
     destruct (Indigo.sock c); reflexivity ..|].
  split; [exact G1|].
  split; [unfold Indigo.is_connected; rewrite G2; reflexivity|].
  rewrite G3, G4, G5.
  unfold Indigo.close. cbn [Indigo.sock Indigo.set_connected
                            Indigo.set_stop_flag].
  destruct (Indigo.sock c); repeat split; trace_facts.
Qed.

Lemma str_app_assoc (a b c : string) :
  ((a ++ b) ++ c)%string = (a ++ (b ++ c))%string.
Proof.
  induction a as [|ch a IH]; [reflexivity|].
  exact (f_equal (String ch) IH).
Qed.

Lemma last_app_nonempty {A} (l l' : list A) d :
  l' <> [] -> List.last (l ++ l') d = List.last l' d.
Proof.
  intros Hne. induction l as [|x l IH]; [reflexivity|].
  cbn [app List.last]. destruct (l ++ l')%list eqn:E; [|exact IH].
  apply app_eq_nil in E as [_ E]. contradiction.
Qed.

(** Splitting a text that arrives in two parts: the complete fields of
    the first part, then the split of its unfinished field followed by
    the second part. *)
Lemma split_app sep (s t : string) :
  Py.split sep (s ++ t)
  = (List.removelast (Py.split sep s)
     ++ Py.split sep (List.last (Py.split sep s) "" ++ t))%list.
Proof.
  induction s as [|ch s IH]; [reflexivity|].
  change (String ch s ++ t)%string with (String ch (s ++ t)%string).
  cbn [Py.split]. rewrite IH.
  pose proof (split_never_empty sep s) as Hne.
  destruct (Ascii.eqb ch sep) eqn:Hch.
  - destruct (Py.split sep s) as [|f fs] eqn:Es; [contradiction|].
    reflexivity.
  - destruct (Py.split sep s) as [|f fs] eqn:Es; [contradiction|].
    destruct fs as [|g gs].
    + cbn [List.removelast List.last app].
      change (String ch f ++ t)%string with (String ch (f ++ t)%string).
      cbn [Py.split]. rewrite Hch. reflexivity.
    + reflexivity.
Qed.

Lemma take_lines_app (buffer text : string) :
  Indigo.take_lines (buffer ++ text)
  = ((fst (Indigo.take_lines buffer)
      ++ fst (Indigo.take_lines (snd (Indigo.take_lines buffer) ++ text)))%list,
     snd (Indigo.take_lines (snd (Indigo.take_lines buffer) ++ text))).
Proof.
  unfold Indigo.take_lines. cbn [fst snd]. rewrite split_app.
  pose proof (split_never_empty Py.nl
                (List.last (Py.split Py.nl buffer) "" ++ text)) as Hne.
  rewrite removelast_app by exact Hne.
  rewrite last_app_nonempty by exact Hne. reflexivity.
Qed.

Lemma dispatch_lines_app lines1 lines2 : forall c,
  Indigo.dispatch_lines json_loads py_str (lines1 ++ lines2) c
  = match Indigo.dispatch_lines json_loads py_str lines1 c with
    | (c', Py.Ok _) => Indigo.dispatch_lines json_loads py_str lines2 c'
    | (c', Py.Raise e) => (c', Py.Raise e)
    end.
Proof.
  induction lines1 as [|line rest IH]; intros c; [reflexivity|].
  cbn [app Indigo.dispatch_lines].
  destruct (Indigo._dispatch json_loads py_str (Py.strip line) c)
    as [c1 [u|e]]; [apply IH | reflexivity].
Qed.

(** X11.  Message framing does not depend on how the stream is cut into
    chunks: the read loop ends in the same state, with the same
    deliveries, log and unfinished buffer, whether two pieces of text
    arrive in two reads or in one. *)
Theorem read_loop_ignores_chunk_boundaries
  (a b : string) (evs : list Indigo.sock_event) (buffer : string)
  (c : Indigo.client) :
  a <> "" -> b <> "" ->
  Indigo._listen_loop json_loads py_str
    (Indigo.Data a :: Indigo.Data b :: evs) buffer c
  = Indigo._listen_loop json_loads py_str
      (Indigo.Data (a ++ b) :: evs) buffer c.
Proof.
  intros Ha Hb.
  destruct a as [|cha a]; [contradiction|].
  destruct b as [|chb b]; [contradiction|].
  change (String cha a ++ String chb b)%string
    with (String cha (a ++ String chb b)%string).
  cbn [Indigo._listen_loop].
  destruct (Indigo.stop_flag c) eqn:Hstop; [reflexivity|].
  change (String cha (a ++ String chb b)%string)
    with (String cha a ++ String chb b)%string.
  rewrite <- str_app_assoc, (take_lines_app (buffer ++ String cha a)).
  destruct (Indigo.take_lines (buffer ++ String cha a)) as [lines1 rest1].
  cbn [fst snd].
  destruct (Indigo.take_lines (rest1 ++ String chb b)) as [lines2 rest2].
  cbn [fst snd]. rewrite dispatch_lines_app.
  pose proof (dispatch_lines_frame lines1 c) as Hframe. cbv zeta in Hframe.
  destruct (Indigo.dispatch_lines json_loads py_str lines1 c)
    as [c1 [u|e]]; [|reflexivity].
  cbn [fst] in Hframe. destruct Hframe as (Hs & _).
  rewrite Hs, Hstop. reflexivity.
Qed.

(** X12.  A message is routed by its top-level "action" (or, failing
    that, "name") entry and by nothing else.  A decoded object that has
    neither entry reaches no callback, whatever callbacks are registered:
    it is logged as unhandled and the loop goes on.  The dictionaries
    this program itself sends, whose only top-level key is the verb
    (newSwitchVector, newNumberVector, getProperties), are of that
    kind. *)
Theorem message_without_action_or_name_is_unhandled
  (line : string) (members : list (string * Json.value))
  (c : Indigo.client) :
  json_loads line = Some (Json.Obj members) ->
  Json.assoc "action" members = None ->
  Json.assoc "name" members = None ->
  Indigo._dispatch json_loads py_str line c
  = (Indigo.emit_log ("[INDIGO] Unhandled message: "
                      ++ py_str (Json.Obj members)) c, Py.Ok tt)
  /\ Indigo.delivered (fst (Indigo._dispatch json_loads py_str line c))
     = Indigo.delivered c
  /\ (forall m, exists members',
        wire m = Json.Obj members'
        /\ Json.assoc "action" members' = None
        /\ Json.assoc "name" members' = None).
Proof.
  intros Hloads Haction Hname.
  assert (Hd : Indigo._dispatch json_loads py_str line c
               = (Indigo.emit_log ("[INDIGO] Unhandled message: "
                                   ++ py_str (Json.Obj members)) c,
                  Py.Ok tt)).
  { unfold Indigo._dispatch, Indigo.kind_of. rewrite Hloads. cbn.
    rewrite Haction. cbn. rewrite Hname. reflexivity. }
  split; [exact Hd|]. split; [rewrite Hd; reflexivity|].
  intros [v|v|dev nm]; eexists; (split; [reflexivity|]); split; reflexivity.
Qed.

(** X13.  What a mount command puts on the wire.  On a disconnected
    client it writes nothing and says nothing.  On a connected one it
    writes its messages in order up to the first write that fails, drops
    the rest, and leaves the client connected exactly when every write
    succeeded; it logs nothing through the client and returns normally
    either way. *)
Theorem command_writes_until_first_failure
  (msgs : list Indigo.message) (ios : list (Py.result unit))
  (c : Indigo.client) :
  Forall io_outcome ios ->
  (Indigo.is_connected c = false ->
   Mount.send_all msgs ios c = (c, Py.Ok tt))
  /\ (Indigo.is_connected c = true ->
      let n := writes_before_failure (length msgs) ios in
      let r := Mount.send_all msgs ios c in
      snd r = Py.Ok tt
      /\ written (fst r) = (written c ++ take n msgs)%list
      /\ Indigo.connected (fst r) = (n =? length msgs)%nat
      /\ Indigo.log (fst r) = Indigo.log c).
Proof.
  intros Hios. split; [apply send_all_disconnected|].
  revert ios c Hios.
  induction msgs as [|m rest IH]; intros ios c Hios Hc; cbv zeta.
  - cbn. rewrite app_nil_r. unfold Indigo.is_connected in Hc.
    apply andb_prop in Hc as [Hc _]. repeat split; assumption.
  - pose proof Hc as Hc'. unfold Indigo.is_connected in Hc'.
    apply andb_prop in Hc' as [Hconn Hsock].
    assert (Hhd : io_outcome (hd (Py.Ok tt) ios)).
    { destruct Hios; [exact I | assumption]. }
    assert (Htl : Forall io_outcome (tl ios)).
    { destruct Hios; [constructor | assumption]. }
    cbn [Mount.send_all length writes_before_failure].
    unfold Indigo.send. rewrite Hconn, Hsock. cbn [negb orb].
    destruct (hd (Py.Ok tt) ios) as [u|e].
    + specialize (IH (tl ios) (Indigo.record (Indigo.Wrote m) c) Htl Hc).
      cbv zeta in IH. destruct IH as (I1 & I2 & I3 & I4).
      split; [exact I1|]. split; [|split; [exact I3 | exact I4]].
      rewrite I2. unfold written. cbn.
      rewrite flat_map_app. cbn. rewrite <- app_assoc. reflexivity.
    + cbn in Hhd. rewrite (OSError_caught_by_send e Hhd).
      rewrite send_all_disconnected by reflexivity.
      cbn. rewrite app_nil_r. repeat split; reflexivity.
Qed.

(** X14.  Registering a callback with [on] replaces the one registered
    before for that kind and touches no other kind: a message of kind
    [k] goes to the callback registered last for [k], as a whole and
    once. *)
Theorem on_replaces_callback_of_its_kind
  (kind k : string) (cb : nat) (line : string) (msg : Json.value)
  (c : Indigo.client) :
  json_loads line = Some msg ->
  Indigo.kind_of msg = Py.Ok (Json.Str k) ->
  let c1 := Indigo.on kind cb c in
  (k = kind ->
   Indigo._dispatch json_loads py_str line c1
   = (Indigo.record (Indigo.Delivered cb msg) c1, Py.Ok tt))
  /\ (k <> kind ->
      Indigo.delivered (fst (Indigo._dispatch json_loads py_str line c1))
      = (Indigo.delivered c
         ++ match Indigo.callbacks c !! k with
            | Some cb' => [(cb', msg)]
            | None => []
            end)%list).
Proof.
  intros Hloads Hkind. cbv zeta. split.
  - intros ->. unfold Indigo._dispatch. rewrite Hloads, Hkind. cbn.
    rewrite lookup_insert_eq. reflexivity.
  - intros Hne. unfold Indigo._dispatch. rewrite Hloads, Hkind. cbn.
    rewrite lookup_insert_ne by congruence.
    destruct (Indigo.callbacks c !! k); cbn [fst]; trace_facts.
Qed.

End ClientMore.

(** X8 on a new client: two refusals, then the server accepts. *)
Lemma connect_after_two_refusals_witness :
  exists c',
    Indigo.connect
      (fun j => if (j <? 2)%nat then Some Py.ConnectionRefusedError else None)
      10 indigo_client
    = (c', Py.Ok tt)
    /\ Indigo.is_connected c' = true
    /\ Indigo.retry_count c' = 0
    /\ Indigo.attempts c' = (Indigo.attempts indigo_client + 2 + 1)%nat
    /\ Indigo.trace c'
       = (Indigo.trace indigo_client
          ++ refused_attempts 2 (Indigo.reconnect_interval indigo_client)
          ++ [Indigo.ConnectAttempt; Indigo.ListenerStarted])%list.
Proof.
  apply (connect_succeeds_after_refusals
           (fun j => if (j <? 2)%nat then Some Py.ConnectionRefusedError
                     else None)
           10 2 indigo_client).
  - reflexivity.
  - cbn. lia.
  - intros j Hj. exists Py.ConnectionRefusedError. split; [|reflexivity].
    destruct j as [|[|j]]; [reflexivity | reflexivity | lia].
  - reflexivity.
Defined.

(** X11 on one update of the mount agent cut in the middle. *)
Lemma chunk_boundary_witness :
  Indigo._listen_loop Json.decode (fun _ => "")
    [Indigo.Data ("{" ++ quoted "action" ++ ": ");
     Indigo.Data (quoted "setNumberVector" ++ "}" ++ lf)] ""
    listening_client
  = Indigo._listen_loop Json.decode (fun _ => "")
      [Indigo.Data (("{" ++ quoted "action" ++ ": ")
                    ++ (quoted "setNumberVector" ++ "}" ++ lf))] ""
      listening_client.
Proof.
  apply (read_loop_ignores_chunk_boundaries Json.decode (fun _ => "")
           ("{" ++ quoted "action" ++ ": ")
           (quoted "setNumberVector" ++ "}" ++ lf) [] "" listening_client).
  - discriminate.
  - discriminate.
Defined.

(** X12 on the poll the monitor sends, fed back to the client. *)
Lemma unhandled_message_witness :
  let line := "{" ++ quoted "getProperties" ++ ": {" ++ quoted "device"
              ++ ": " ++ quoted "Mount Agent" ++ "}}" in
  let members := [("getProperties",
                   Json.Obj [("device", Json.Str "Mount Agent")])] in
  Indigo._dispatch Json.decode (fun _ => "") line listening_client
  = (Indigo.emit_log ("[INDIGO] Unhandled message: "
                      ++ (fun _ => "") (Json.Obj members)) listening_client,
     Py.Ok tt)
  /\ Indigo.delivered
       (fst (Indigo._dispatch Json.decode (fun _ => "") line
               listening_client))
     = Indigo.delivered listening_client
  /\ (forall m, exists members',
        wire m = Json.Obj members'
        /\ Json.assoc "action" members' = None
        /\ Json.assoc "name" members' = None).
Proof.
  cbv zeta.
  apply (message_without_action_or_name_is_unhandled Json.decode
           (fun _ => "")
           ("{" ++ quoted "getProperties" ++ ": {" ++ quoted "device"
            ++ ": " ++ quoted "Mount Agent" ++ "}}")
           [("getProperties", Json.Obj [("device", Json.Str "Mount Agent")])]
           listening_client).
  - vm_compute. reflexivity.
  - reflexivity.
  - reflexivity.
Defined.

(** X13 on [stop()] whose second write meets a broken pipe. *)
Lemma command_writes_witness :
  (Indigo.is_connected listening_client = false ->
   Mount.send_all Mount.stop_msgs [Py.Ok tt; Py.Raise Py.BrokenPipeError]
     listening_client
   = (listening_client, Py.Ok tt))
  /\ (Indigo.is_connected listening_client = true ->
      let n := writes_before_failure (length Mount.stop_msgs)
                 [Py.Ok tt; Py.Raise Py.BrokenPipeError] in
      let r := Mount.send_all Mount.stop_msgs
                 [Py.Ok tt; Py.Raise Py.BrokenPipeError] listening_client in
      snd r = Py.Ok tt
      /\ written (fst r) = (written listening_client
                            ++ take n Mount.stop_msgs)%list
      /\ Indigo.connected (fst r) = (n =? length Mount.stop_msgs)%nat
      /\ Indigo.log (fst r) = Indigo.log listening_client).
Proof.
  apply (command_writes_until_first_failure Mount.stop_msgs
           [Py.Ok tt; Py.Raise Py.BrokenPipeError] listening_client).
  repeat constructor.
Defined.

(** X14 on the mount's number-vector callback, registered twice. *)
Lemma on_replaces_witness :
  let msg := Json.Obj [("action", Json.Str "setNumberVector");
                       ("device", Json.Str "Mount Agent")] in
  let c1 := Indigo.on "setNumberVector" 2%nat listening_client in
  ("setNumberVector" = "setNumberVector" ->
   Indigo._dispatch Json.decode (fun _ => "") coordinate_update c1
   = (Indigo.record (Indigo.Delivered 2%nat msg) c1, Py.Ok tt))
  /\ ("setNumberVector" <> "setNumberVector" ->
      Indigo.delivered
        (fst (Indigo._dispatch Json.decode (fun _ => "") coordinate_update
                c1))
      = (Indigo.delivered listening_client
         ++ match Indigo.callbacks listening_client !! "setNumberVector" with
            | Some cb' => [(cb', msg)]
            | None => []
            end)%list).
Proof.
  cbv zeta.
  apply (on_replaces_callback_of_its_kind Json.decode (fun _ => "")
           "setNumberVector" "setNumberVector" 2%nat coordinate_update
           (Json.Obj [("action", Json.Str "setNumberVector");
                      ("device", Json.Str "Mount Agent")])
           listening_client).
  - vm_compute. reflexivity.
  - reflexivity.
Defined.

(* ===================================================================== *)
(** * Further properties: the actuator client                             *)
(* ===================================================================== *)

Section ActuatorMore.

Ltac ard_simpl :=
  cbn [Arduino._client Arduino.state Arduino._socketio Arduino.emitted
       Arduino.log Arduino.with_client Arduino.set_state Arduino.emit
       Arduino.emit_log Arduino.set_sock Arduino.set_last_used
       Arduino.set_last_fail_time Arduino.set_fail_count
       Arduino.set_warn_sent Arduino.host Arduino.port Arduino.sock
       Arduino.last_used Arduino.idle_timeout Arduino.last_fail_time
       Arduino.fail_count Arduino.max_log_interval Arduino.max_warns
       Arduino.warn_sent fst snd] in *.

Ltac break_ifs :=
  repeat match goal with
         | |- context [if ?b then _ else _] => destruct b; ard_simpl
         end.

Lemma consistent_set_state key v w :
  key <> "connected" ->
  client_consistent w -> client_consistent (Arduino.set_state key v w).
Proof.
  intros Hkey (H1 & H2 & H3). split; [exact H1|]. split; [exact H2|].
  destruct H3 as [H3|[H3 H4]]; [left; exact H3|right].
  split; [exact H3|]. unfold Arduino.state_truthy in *. cbn.
  rewrite lookup_insert_ne by exact Hkey. exact H4.
Qed.

Lemma consistent_disconnected w :
  client_consistent w ->
  client_consistent
    (Arduino.with_client (Arduino.set_sock false)
       (Arduino.set_state "connected" (Arduino.PBool false) w)).
Proof.
  intros (H1 & H2 & H3). split; [exact H1|]. split; [exact H2|].
  right. split; [reflexivity|]. unfold Arduino.state_truthy. cbn.
  rewrite lookup_insert_eq. reflexivity.
Qed.

Lemma consistent_emit_log msg w :
  client_consistent w -> client_consistent (Arduino.emit_log msg w).
Proof. intros H. exact H. Qed.

Lemma consistent_emit e w :
  client_consistent w -> client_consistent (Arduino.emit e w).
Proof. intros H. exact H. Qed.

Lemma consistent_update stamp w :
  client_consistent w -> client_consistent (Arduino._update stamp w).
Proof.
  intros H. unfold Arduino._update.
  destruct (Arduino._socketio _);
    [apply consistent_emit|]; apply consistent_set_state; (discriminate || exact H).
Qed.

Lemma consistent_connect conn now w :
  client_consistent w -> client_consistent (Arduino._connect conn now w).
Proof.
  intros (H1 & H2 & H3). unfold Arduino._connect.
  destruct (Z.leb_spec (Arduino.max_warns (Arduino._client w))
                       (Arduino.fail_count (Arduino._client w)));
    [repeat split; (lia || exact H3)|].
  destruct conn as [e|]; ard_simpl; break_ifs;
    unfold client_consistent, Arduino.state_truthy; ard_simpl;
    rewrite ?lookup_insert_eq;
    (split; [exact H1|]; split; [lia|]; auto).
Qed.

Ltac consistent_tac :=
  unfold client_consistent, Arduino.state_truthy in *; ard_simpl;
  rewrite ?lookup_insert_eq;
  repeat (rewrite lookup_insert_ne by discriminate);
  intuition (lia || congruence).

Lemma consistent_send message_ x w :
  client_consistent w -> client_consistent (fst (Arduino.send message_ x w)).
Proof.
  intros Hw. unfold Arduino.send, Arduino.send_body.
  assert (Hw1 : client_consistent
                  (if Arduino.sock (Arduino._client w) then w
                   else Arduino._connect (Arduino.conn x) (Arduino.now x) w)).
  { destruct (Arduino.sock (Arduino._client w));
      [exact Hw | apply consistent_connect, Hw]. }
  destruct (if Arduino.sock (Arduino._client w) then w
            else Arduino._connect (Arduino.conn x) (Arduino.now x) w)
    as [cl st so em lg] eqn:Ew1.
  cbn [Arduino._client]. destruct (Arduino.sock cl) eqn:Hsock;
    cbn [negb fst]; [|exact Hw1].
  destruct (Arduino.sendall x) as [e|].
  - rewrite every_exn_is_Exception. cbn [fst]. consistent_tac.
  - destruct (Arduino.recv_line (Arduino.recvs x) "") as [buffer|e].
    + cbn [fst]. consistent_tac.
    + rewrite every_exn_is_Exception. cbn [fst]. consistent_tac.
Qed.

Lemma etalon_key_not_connected s : ("etalon" ++ s)%string <> "connected".
Proof. discriminate. Qed.

Lemma consistent_set_dome state_cmd x stamp w :
  client_consistent w ->
  client_consistent (fst (Arduino.set_dome state_cmd x stamp w)).
Proof.
  intros Hw. unfold Arduino.set_dome.
  destruct (negb _); [exact Hw|].
  pose proof (consistent_send
                ("dome " ++ (if String.eqb state_cmd "open" then "180"
                             else "0")) x w Hw) as Hs.
  destruct (Arduino.send _ x w) as [w1 [res|e]]; cbn [fst] in *;
    [|exact Hs].
  destruct (Py.startswith res "dome:"); cbn [fst]; [|exact Hs].
  apply consistent_update, consistent_set_state; [discriminate | exact Hs].
Qed.

Lemma consistent_set_etalon index value x stamp w :
  client_consistent w ->
  client_consistent (fst (Arduino.set_etalon index value x stamp w)).
Proof.
  intros Hw. unfold Arduino.set_etalon.
  destruct (negb _ || negb _); [exact Hw|].
  pose proof (consistent_send
                ("et" ++ Py.str_of_int index ++ " " ++ Py.str_of_int value)
                x w Hw) as Hs.
  destruct (Arduino.send _ x w) as [w1 [res|e]]; cbn [fst] in *;
    [|exact Hs].
  destruct (Py.startswith res _); cbn [fst]; [|exact Hs].
  apply consistent_update, consistent_set_state;
    [apply etalon_key_not_connected | exact Hs].
Qed.

Lemma consistent_parse_status_line line w :
  client_consistent w ->
  client_consistent (fst (Arduino.parse_status_line line w)).
Proof.
  intros Hw. unfold Arduino.parse_status_line.
  repeat case_match; cbn [fst]; try exact Hw;
    repeat (apply consistent_set_state; [discriminate|]); exact Hw.
Qed.

Lemma consistent_parse_status_lines lines : forall w,
  client_consistent w ->
  client_consistent (fst (Arduino.parse_status_lines lines w)).
Proof.
  induction lines as [|line rest IH]; intros w Hw; [exact Hw|].
  cbn [Arduino.parse_status_lines].
  pose proof (consistent_parse_status_line line w Hw) as Hl.
  destruct (Arduino.parse_status_line line w) as [w1 [u|e]];
    cbn [fst] in *; [apply IH, Hl | exact Hl].
Qed.

Lemma consistent_poll_status x stamp w :
  client_consistent w -> client_consistent (Arduino.poll_status x stamp w).
Proof.
  intros Hw. unfold Arduino.poll_status.
  pose proof (consistent_send "status" x w Hw) as Hs.
  destruct (Arduino.send "status" x w) as [w1 [dome|e]]; cbn [fst] in Hs.
  - pose proof (consistent_parse_status_lines
                  (Py.split Py.nl (Py.strip dome)) w1 Hs) as Hp.
    destruct (Arduino.parse_status_lines _ w1) as [w2 [u|e]];
      cbn [fst] in Hp.
    + apply consistent_update, Hp.
    + consistent_tac.
  - consistent_tac.
Qed.

Lemma consistent_call k w :
  client_consistent w -> client_consistent (arduino_call_on k w).
Proof.
  intros Hw. destruct k as [m x|cmd x stamp|i v x stamp|r x stamp|t];
    cbn [arduino_call_on].
  - apply consistent_send, Hw.
  - apply consistent_set_dome, Hw.
  - apply consistent_set_etalon, Hw.
  - unfold Arduino.poll_once.
    destruct (negb _); [destruct (_ <? _)|]; cbn [default];
      try exact Hw; apply consistent_poll_status;
      [apply consistent_connect|]; exact Hw.
  - unfold Arduino.idle_watch. destruct (_ && _); [|exact Hw].
    consistent_tac.
Qed.

Lemma consistent_calls ks : forall w,
  client_consistent w -> client_consistent (arduino_calls ks w).
Proof.
  induction ks as [|k rest IH]; intros w Hw; [exact Hw|].
  apply (IH (arduino_call_on k w)), consistent_call, Hw.
Qed.

Lemma consistent_init sio now :
  client_consistent (Arduino.set_socketio sio (Arduino.init now)).
Proof. unfold client_consistent. cbn. lia. Qed.

(** Once the client has given up, every call leaves the module as it
    is. *)
Lemma frozen_when_gave_up w :
  client_consistent w -> gave_up w ->
  (forall message_ x, Arduino.send message_ x w = (w, Py.Ok ""))
  /\ (forall state_cmd x stamp,
        Arduino.set_dome state_cmd x stamp w = (w, Py.Ok false))
  /\ (forall index value x stamp,
        Arduino.set_etalon index value x stamp w = (w, Py.Ok false))
  /\ (forall reconnect x stamp,
        Arduino.poll_once reconnect x stamp w = None)
  /\ (forall t, Arduino.idle_watch t w = w).
Proof.
  intros (H1 & H2 & H3) Hgave. unfold gave_up in Hgave.
  destruct H3 as [H3|[Hsock Hconn]]; [lia|].
  assert (Hconnect : forall conn now, Arduino._connect conn now w = w).
  { intros conn now. unfold Arduino._connect.
    destruct (Z.leb_spec (Arduino.max_warns (Arduino._client w))
                         (Arduino.fail_count (Arduino._client w)));
      [reflexivity | lia]. }
  assert (Hsend : forall message_ x,
            Arduino.send message_ x w = (w, Py.Ok "")).
  { intros message_ x. unfold Arduino.send, Arduino.send_body.
    rewrite Hsock, Hconnect, Hsock. reflexivity. }
  split; [exact Hsend|]. split; [|split; [|split]].
  - intros state_cmd x stamp. unfold Arduino.set_dome.
    destruct (negb _); [reflexivity|]. rewrite Hsend. reflexivity.
  - intros index value x stamp. unfold Arduino.set_etalon.
    destruct (negb _ || negb _); [reflexivity|]. rewrite Hsend.
    reflexivity.
  - intros reconnect x stamp. unfold Arduino.poll_once. rewrite Hconn.
    cbn [negb].
    destruct (Z.ltb_spec (Arduino.fail_count (Arduino._client w))
                         (Arduino.max_warns (Arduino._client w)));
      [lia | reflexivity].
  - intros t. unfold Arduino.idle_watch. rewrite Hsock. reflexivity.
Qed.

(** X15.  The actuator client gives up for good.  Once the failed
    connection attempts have reached [max_warns] (three), in whatever
    way the module got there from start-up, with a sink attached or not,
    nothing brings the board back: [send]
    returns the empty string, [set_dome] and [set_etalon] return False,
    the poll loop only waits, and no call, in any number or order,
    changes anything: no connection attempt, no log line, no state
    update; the board stays marked disconnected. *)
Theorem arduino_gives_up_for_good
  (sio : bool) (now : Q) (before : list arduino_call) :
  let w := arduino_calls before
             (Arduino.set_socketio sio (Arduino.init now)) in
  gave_up w ->
  (forall message_ x, Arduino.send message_ x w = (w, Py.Ok ""))
  /\ (forall state_cmd x stamp,
        Arduino.set_dome state_cmd x stamp w = (w, Py.Ok false))
  /\ (forall index value x stamp,
        Arduino.set_etalon index value x stamp w = (w, Py.Ok false))
  /\ (forall reconnect x stamp,
        Arduino.poll_once reconnect x stamp w = None)
  /\ (forall after, arduino_calls after w = w)
  /\ Arduino.state_truthy (Arduino.state w) "connected" = false.
Proof.
  cbv zeta. intros Hgave.
  pose proof (consistent_calls before _ (consistent_init sio now)) as Hw.
  destruct (frozen_when_gave_up _ Hw Hgave) as (F1 & F2 & F3 & F4 & F5).
  split; [exact F1|]. split; [exact F2|]. split; [exact F3|].
  split; [exact F4|]. split.
  - induction after as [|k rest IH]; [reflexivity|].
    change (arduino_calls (k :: rest) ?w0)
      with (arduino_calls rest (arduino_call_on k w0)).
    assert (Hk : arduino_call_on k
                   (arduino_calls before
                      (Arduino.set_socketio sio (Arduino.init now)))
                 = arduino_calls before
                     (Arduino.set_socketio sio (Arduino.init now))).
    { destruct k as [m x|cmd x stamp|i v x stamp|r x stamp|t];
        cbn [arduino_call_on];
        rewrite ?F1, ?F2, ?F3, ?F4, ?F5; reflexivity. }
    rewrite Hk. exact IH.
  - destruct Hw as (H1 & H2 & [H3|[_ H3]]); [|exact H3].
    unfold gave_up in Hgave. lia.
Qed.

(** [_connect] and [send] write no entry of the state but
    ["connected"]. *)
Lemma connect_state_other conn now w key :
  key <> "connected" ->
  Arduino.state (Arduino._connect conn now w) !! key
  = Arduino.state w !! key.
Proof.
  intros Hkey. unfold Arduino._connect.
  destruct (_ <=? _); [reflexivity|].
  destruct conn as [e|]; ard_simpl; break_ifs;
    rewrite lookup_insert_ne by congruence; reflexivity.
Qed.

Lemma send_state_other message_ x w key :
  key <> "connected" ->
  Arduino.state (fst (Arduino.send message_ x w)) !! key
  = Arduino.state w !! key.
Proof.
  intros Hkey. unfold Arduino.send, Arduino.send_body.
  assert (Hw1 : Arduino.state
                  (if Arduino.sock (Arduino._client w) then w
                   else Arduino._connect (Arduino.conn x) (Arduino.now x) w)
                !! key = Arduino.state w !! key).
  { destruct (Arduino.sock (Arduino._client w));
      [reflexivity | apply connect_state_other, Hkey]. }
  destruct (if Arduino.sock (Arduino._client w) then w
            else Arduino._connect (Arduino.conn x) (Arduino.now x) w)
    as [cl st so em lg].
  cbn [Arduino._client]. destruct (Arduino.sock cl); cbn [negb fst];
    [|exact Hw1].
  destruct (Arduino.sendall x) as [e|].
  - rewrite every_exn_is_Exception. ard_simpl.
    rewrite lookup_insert_ne by congruence. exact Hw1.
  - destruct (Arduino.recv_line (Arduino.recvs x) "") as [buffer|e].
    + ard_simpl. rewrite lookup_insert_ne by congruence. exact Hw1.
    + rewrite every_exn_is_Exception. ard_simpl.
      rewrite lookup_insert_ne by congruence. exact Hw1.
Qed.

Lemma send_never_raises message_ x w :
  exists response, snd (Arduino.send message_ x w) = Py.Ok response.
Proof.
  unfold Arduino.send.
  destruct (Arduino.send_body message_ x w) as [w' [response|e]].
  - exists response. reflexivity.
  - rewrite every_exn_is_Exception. exists "". reflexivity.
Qed.

Lemma update_state stamp w :
  Arduino.state (Arduino._update stamp w)
  = <["last_updated" := Arduino.PStr stamp]> (Arduino.state w).
Proof. unfold Arduino._update. cbn. destruct (Arduino._socketio w); reflexivity. Qed.

(** A reply of [send] that is not empty was read from the board: the
    command was written and the receive loop ended on a line. *)
Lemma send_reply_read message_ x w reply :
  snd (Arduino.send message_ x w) = Py.Ok reply ->
  reply <> "" ->
  Arduino.sendall x = None
  /\ exists buffer,
       Arduino.recv_line (Arduino.recvs x) "" = Py.Ok buffer
       /\ reply = Py.strip buffer.
Proof.
  unfold Arduino.send, Arduino.send_body.
  destruct (Arduino.sock
              (Arduino._client
                 (if Arduino.sock (Arduino._client w) then w
                  else Arduino._connect (Arduino.conn x) (Arduino.now x) w)));
    cbn [negb snd].
  - destruct (Arduino.sendall x) as [e|].
    + rewrite every_exn_is_Exception. cbn [snd]. congruence.
    + destruct (Arduino.recv_line (Arduino.recvs x) "") as [buffer|e].
      * cbn [snd]. intros [= <-] _. split; [reflexivity|].
        exists buffer. split; reflexivity.
      * rewrite every_exn_is_Exception. cbn [snd]. congruence.
  - congruence.
Qed.

Lemma ack_nonempty s : ("et" ++ s)%string <> "".
Proof. discriminate. Qed.

Lemma startswith_nonempty s p :
  p <> "" -> Py.startswith s p = true -> s <> "".
Proof. intros Hp H ->. destruct p; [congruence | discriminate]. Qed.

(** X16.  [set_etalon] never raises.  It returns True exactly when the
    index is 1 or 2, the value is from 0 to 180, and the board's reply to
    the command [et<index> <value>] starts with [et<index>:]; that reply
    was read from the socket after the command was written.  The state
    then holds the value under the etalon's key and the time of the
    update.  When it returns False no entry of the state but
    ["connected"] has changed; arguments outside the ranges are turned
    down without touching the board or the state at all. *)
Theorem set_etalon_stores_only_acknowledged_values
  (index value : Z) (x : Arduino.io) (stamp : string) (w : Arduino.world) :
  let r := Arduino.set_etalon index value x stamp w in
  let command := "et" ++ Py.str_of_int index ++ " " ++ Py.str_of_int value in
  let ack := "et" ++ Py.str_of_int index ++ ":" in
  (exists b, snd r = Py.Ok b)
  /\ (snd r = Py.Ok true <->
      (index = 1 \/ index = 2) /\ 0 <= value <= 180
      /\ exists reply,
           snd (Arduino.send command x w) = Py.Ok reply
           /\ Py.startswith reply ack = true)
  /\ (snd r = Py.Ok true ->
      (Arduino.sendall x = None
       /\ exists buffer,
            Arduino.recv_line (Arduino.recvs x) "" = Py.Ok buffer
            /\ Py.startswith (Py.strip buffer) ack = true)
      /\ Arduino.state (fst r) !! ("etalon" ++ Py.str_of_int index)
         = Some (Arduino.PInt value)
      /\ Arduino.state (fst r) !! "last_updated"
         = Some (Arduino.PStr stamp))
  /\ (snd r = Py.Ok false ->
      forall key, key <> "connected" ->
        Arduino.state (fst r) !! key = Arduino.state w !! key)
  /\ (~ (index = 1 \/ index = 2) \/ ~ 0 <= value <= 180 ->
      r = (w, Py.Ok false)).
Proof.
  cbv zeta. unfold Arduino.set_etalon.
  destruct (Z.eqb_spec index 1) as [H1|H1];
    destruct (Z.eqb_spec index 2) as [H2|H2];
    destruct (Z.leb_spec 0 value); destruct (Z.leb_spec value 180);
    cbn [negb orb andb fst snd];
    try (split; [eexists; reflexivity|];
         split; [split; [discriminate | intros (Hi & Hv & _); lia]|];
         split; [discriminate|];
         split; [reflexivity|]; reflexivity);
    try lia.
  all: pose proof (send_never_raises
                     ("et" ++ Py.str_of_int index ++ " "
                      ++ Py.str_of_int value) x w) as [res Hres];
    pose proof (fun key Hk =>
                  send_state_other
                    ("et" ++ Py.str_of_int index ++ " "
                     ++ Py.str_of_int value) x w key Hk) as Hother;
    pose proof (send_reply_read
                  ("et" ++ Py.str_of_int index ++ " "
                   ++ Py.str_of_int value) x w res) as Hread;
    destruct (Arduino.send _ x w) as [w1 r1]; cbn [fst snd] in *;
    subst r1;
    destruct (Py.startswith res _) eqn:Hack; cbn [fst snd].
  all: split; [eexists; reflexivity|].
  all: split;
    [split;
     [first [discriminate
            | intros _; split; [lia|]; split; [lia|];
              exists res; split; [reflexivity | exact Hack]]
     | first [reflexivity
             | intros (_ & _ & reply & [= <-] & Hr); congruence]]|].
  all: split;
    [first [discriminate
           | intros _; split;
             [destruct (Hread eq_refl
                          (startswith_nonempty _ _ (ack_nonempty _) Hack))
                as (Hsend & buffer & Hrecv & ->);
              split; [exact Hsend|]; exists buffer;
              split; [exact Hrecv | exact Hack]
             | rewrite update_state; ard_simpl; split;
               [rewrite lookup_insert_ne
                  by (symmetry; apply etalon_key_not_connected
                      || discriminate);
                apply lookup_insert_eq
               | apply lookup_insert_eq]]]|].
  all: split; [first [discriminate | intros _; exact Hother]|].
  all: intros [Hi|Hv]; exfalso; [apply Hi; lia | apply Hv; lia].
Qed.

Lemma contains_app sep (a b : string) :
  Py.contains sep (a ++ b) = Py.contains sep a || Py.contains sep b.
Proof.
  induction a as [|ch a IH]; [reflexivity|].
  change (String ch a ++ b)%string with (String ch (a ++ b)%string).
  cbn [Py.contains]. rewrite IH, orb_assoc. reflexivity.
Qed.

(** X17.  The reply [send] reads.  The receive loop stops at the first
    chunk that brings a line feed into the buffer: the reply is
    everything received up to the end of that chunk, text after the line
    feed included, and nothing that arrives later is read.  If the board
    closes the stream before any line feed has come, the loop raises
    ConnectionError. *)
Theorem reply_ends_with_first_chunk_holding_a_newline
  (pre : list string) (final : string) (later : list Arduino.recv_event)
  (buffer : string) :
  Forall (fun s => s <> "") pre ->
  Py.contains Py.nl (buffer ++ joined pre) = false ->
  (final <> "" -> Py.contains Py.nl final = true ->
   Arduino.recv_line (map Arduino.Chunk pre ++ Arduino.Chunk final :: later)
     buffer
   = Py.Ok (buffer ++ joined pre ++ final))
  /\ Arduino.recv_line (map Arduino.Chunk pre ++ Arduino.Chunk "" :: later)
       buffer
     = Py.Raise Py.ConnectionError.
Proof.
  revert buffer.
  induction pre as [|p ps IH]; intros buffer Hpre Hnl.
  - split; [|reflexivity]. intros Hfinal Hhas.
    destruct final as [|ch final]; [contradiction|].
    cbn [map app Arduino.recv_line].
    rewrite contains_app, Hhas, orb_true_r. reflexivity.
  - inversion Hpre as [|? ? Hp Hps]; subst.
    destruct p as [|ch p]; [contradiction|].
    change (joined (String ch p :: ps))
      with (String ch p ++ joined ps)%string in *.
    rewrite <- str_app_assoc in Hnl.
    assert (Hfirst : Py.contains Py.nl (buffer ++ String ch p) = false).
    { rewrite contains_app in Hnl. apply orb_false_iff in Hnl as [Hnl _].
      exact Hnl. }
    destruct (IH (buffer ++ String ch p)%string Hps Hnl) as [IH1 IH2].
    cbn [map app Arduino.recv_line]. rewrite Hfirst. split.
    + intros Hfinal Hhas. rewrite (IH1 Hfinal Hhas).
      rewrite !str_app_assoc. reflexivity.
    + exact IH2.
Qed.

Lemma send_socketio message_ x w :
  Arduino._socketio (fst (Arduino.send message_ x w)) = Arduino._socketio w.
Proof.
  unfold Arduino.send, Arduino.send_body.
  assert (Hw1 : Arduino._socketio
                  (if Arduino.sock (Arduino._client w) then w
                   else Arduino._connect (Arduino.conn x) (Arduino.now x) w)
                = Arduino._socketio w).
  { destruct (Arduino.sock (Arduino._client w)); [reflexivity|].
    unfold Arduino._connect. destruct (_ <=? _); [reflexivity|].
    destruct (Arduino.conn x) as [e|]; ard_simpl; break_ifs; reflexivity. }
  destruct (if Arduino.sock (Arduino._client w) then w
            else Arduino._connect (Arduino.conn x) (Arduino.now x) w)
    as [cl st so em lg].
  cbn [Arduino._client]. destruct (Arduino.sock cl); cbn [negb fst];
    [|exact Hw1].
  destruct (Arduino.sendall x) as [e|].
  - rewrite every_exn_is_Exception. exact Hw1.
  - destruct (Arduino.recv_line (Arduino.recvs x) "") as [buffer|e].
    + exact Hw1.
    + rewrite every_exn_is_Exception. exact Hw1.
Qed.

(** X18.  A poll whose status query brought nothing back (the exchange
    failed, or the board could not be reached, so that [send] returned
    the empty string) still ends in [_update()]: the state gets a new
    ["last_updated"] time and, with a sink attached, is published, though
    no entry of it but ["connected"] was written. *)
Theorem poll_without_reply_still_stamps_state
  (x : Arduino.io) (stamp : string) (w : Arduino.world) :
  snd (Arduino.send "status" x w) = Py.Ok "" ->
  let w' := Arduino.poll_status x stamp w in
  w' = Arduino._update stamp (fst (Arduino.send "status" x w))
  /\ Arduino.state w' !! "last_updated" = Some (Arduino.PStr stamp)
  /\ (forall key, key <> "connected" -> key <> "last_updated" ->
        Arduino.state w' !! key = Arduino.state w !! key)
  /\ (Arduino._socketio w = true ->
      List.last (Arduino.emitted w') (Arduino.ServerLog "")
      = Arduino.ArduinoState (Arduino.state w')).
Proof.
  intros Hsend. cbv zeta.
  assert (Hpoll : Arduino.poll_status x stamp w
                  = Arduino._update stamp (fst (Arduino.send "status" x w))).
  { unfold Arduino.poll_status.
    destruct (Arduino.send "status" x w) as [w1 [dome|e]];
      cbn [snd] in Hsend; [|discriminate].
    injection Hsend as ->. reflexivity. }
  rewrite Hpoll. split; [reflexivity|]. rewrite update_state.
  split; [apply lookup_insert_eq|]. split.
  - intros key Hc Hl. rewrite lookup_insert_ne by congruence.
    apply send_state_other, Hc.
  - intros Hsink. unfold Arduino._update. ard_simpl.
    rewrite send_socketio, Hsink. ard_simpl. apply last_last.
Qed.

End ActuatorMore.

(** X15 after three sends that found the board unreachable. *)
Lemma arduino_gives_up_witness :
  let refused := Arduino.IO 0 (Some Py.ConnectionRefusedError) None [] in
  let w := arduino_calls [ASend "status" refused; ASend "status" refused;
                          ASend "status" refused]
             (Arduino.set_socketio true (Arduino.init 0)) in
  (forall message_ x, Arduino.send message_ x w = (w, Py.Ok ""))
  /\ (forall state_cmd x stamp,
        Arduino.set_dome state_cmd x stamp w = (w, Py.Ok false))
  /\ (forall index value x stamp,
        Arduino.set_etalon index value x stamp w = (w, Py.Ok false))
  /\ (forall reconnect x stamp,
        Arduino.poll_once reconnect x stamp w = None)
  /\ (forall after, arduino_calls after w = w)
  /\ Arduino.state_truthy (Arduino.state w) "connected" = false.
Proof.
  cbv zeta.
  apply (arduino_gives_up_for_good true 0
           [ASend "status" (Arduino.IO 0 (Some Py.ConnectionRefusedError)
                              None []);
            ASend "status" (Arduino.IO 0 (Some Py.ConnectionRefusedError)
                              None []);
            ASend "status" (Arduino.IO 0 (Some Py.ConnectionRefusedError)
                              None [])]).
  unfold gave_up. vm_compute. discriminate.
Defined.

(** X17 on a reply that arrives in three chunks, with more behind. *)
Lemma reply_chunks_witness :
  ("0" ++ lf ++ "et1:90" <> "" ->
   Py.contains Py.nl ("0" ++ lf ++ "et1:90") = true ->
   Arduino.recv_line
     (map Arduino.Chunk ["do"; "me:"]
      ++ Arduino.Chunk ("0" ++ lf ++ "et1:90")
         :: [Arduino.Chunk ("et2:90" ++ lf)]) ""
   = Py.Ok ("" ++ joined ["do"; "me:"] ++ "0" ++ lf ++ "et1:90"))
  /\ Arduino.recv_line
       (map Arduino.Chunk ["do"; "me:"]
        ++ Arduino.Chunk "" :: [Arduino.Chunk ("et2:90" ++ lf)]) ""
     = Py.Raise Py.ConnectionError.
Proof.
  apply (reply_ends_with_first_chunk_holding_a_newline
           ["do"; "me:"] ("0" ++ lf ++ "et1:90")
           [Arduino.Chunk ("et2:90" ++ lf)] "").
  - repeat constructor; discriminate.
  - reflexivity.
Defined.

(** X18 on a first poll that finds the board unreachable. *)
Lemma poll_without_reply_witness :
  let x := Arduino.IO 0 (Some Py.ConnectionRefusedError) None [] in
  let w := Arduino.init 0 in
  let w' := Arduino.poll_status x "2025-01-01 12:00:00" w in
  w' = Arduino._update "2025-01-01 12:00:00"
         (fst (Arduino.send "status" x w))
  /\ Arduino.state w' !! "last_updated"
     = Some (Arduino.PStr "2025-01-01 12:00:00")
  /\ (forall key, key <> "connected" -> key <> "last_updated" ->
        Arduino.state w' !! key = Arduino.state w !! key)
  /\ (Arduino._socketio w = true ->
      List.last (Arduino.emitted w') (Arduino.ServerLog "")
      = Arduino.ArduinoState (Arduino.state w')).
Proof.
  cbv zeta.
  apply (poll_without_reply_still_stamps_state
           (Arduino.IO 0 (Some Py.ConnectionRefusedError) None [])
           "2025-01-01 12:00:00" (Arduino.init 0)).
  vm_compute. reflexivity.
Defined.

(* ===================================================================== *)
(** * Further properties: pulse threads                                   *)
(* ===================================================================== *)

Section PulsesMore.

Lemma sent_by_send_as who msg tid m :
  sent_by tid (Mount.send_as who msg m)
  = (sent_by tid m
     ++ match who with
        | Some t => if Nat.eqb t tid then [msg] else []
        | None => []
        end)%list.
Proof.
  unfold sent_by. cbn. rewrite List.filter_app, map_app. cbn.
  destruct who as [t|]; [destruct (Nat.eqb t tid)|]; reflexivity.
Qed.

Lemma sent_by_set_pulse tid t p m :
  sent_by tid (Mount.set_pulse t p m) = sent_by tid m.
Proof. reflexivity. Qed.

Lemma sent_by_set_active tid b m :
  sent_by tid (Mount.set_active b m) = sent_by tid m.
Proof. reflexivity. Qed.

Lemma sent_by_emit_log tid msg m :
  sent_by tid (Mount.emit_log msg m) = sent_by tid m.
Proof. reflexivity. Qed.

Lemma protocol_init : pulses_follow_protocol Mount.init.
Proof. intros tid. reflexivity. Qed.

Lemma run_pulse_keeps_protocol t p0 m m' :
  Mount.pulses m !! t = Some p0 ->
  Mount.run_pulse t p0 m = Some m' ->
  pulses_follow_protocol m -> pulses_follow_protocol m'.
Proof.
  intros Hp0 Hrun Hinv tid.
  assert (Hlt : (t < length (Mount.pulses m))%nat)
    by (eapply lookup_lt_Some; eauto).
  pose proof (Hinv tid) as Htid. pose proof (Hinv t) as Ht.
  rewrite Hp0 in Ht. destruct Ht as [Hsent0 Haxis0].
  unfold Mount.run_pulse in Hrun.
  destruct (Nat.eqb_spec t tid) as [->|Hne].
  - (* the thread that ran *)
    rewrite Hp0 in Htid. clear Htid.
    destruct (Mount.at_ p0) eqn:Hat.
    + unfold pulse_sends in Hsent0. rewrite Hat in Hsent0.
      destruct (Mount.axis_of (Mount.direction p0)) as [a|] eqn:Hax;
        injection Hrun as <-; cbn [Mount.pulses Mount.set_pulse];
        rewrite list_lookup_insert_eq by exact Hlt.
      * split; [|intros _; cbn; congruence].
        rewrite sent_by_set_pulse, !sent_by_send_as, Nat.eqb_refl, Hsent0.
        unfold pulse_sends. cbn. rewrite Hax. reflexivity.
      * split; [|discriminate].
        rewrite sent_by_set_pulse, sent_by_emit_log, sent_by_send_as,
          Nat.eqb_refl, Hsent0.
        unfold pulse_sends. cbn. rewrite Hax. reflexivity.
    + destruct (Qle_bool (Mount.wake p0) (Mount.clock m)); [|discriminate].
      unfold pulse_sends in Hsent0. rewrite Hat in Hsent0.
      destruct (negb (Mount._pulse_active m));
        [|destruct (Mount.elapsed (Mount.clock m) p0)];
        injection Hrun as <-; cbn [Mount.pulses Mount.set_pulse];
        rewrite list_lookup_insert_eq by exact Hlt;
        (split; [exact Hsent0 | first [discriminate | intros _; auto]]).
    + injection Hrun as <-.
      unfold pulse_sends in Hsent0. rewrite Hat in Hsent0.
      destruct (Mount.axis_of (Mount.direction p0)) as [a|] eqn:Hax;
        cbn [Mount.pulses Mount.set_pulse Mount.set_active Mount.send_as];
        rewrite list_lookup_insert_eq by exact Hlt;
        (split; [|discriminate]).
      * change (sent_by tid (Mount.send_as (Some tid) (Mount.motion_off a) m)
                = pulse_sends (Mount.at_pc p0 Mount.Done)).
        rewrite sent_by_send_as, Nat.eqb_refl, Hsent0.
        unfold pulse_sends. cbn. rewrite Hax. reflexivity.
      * change (sent_by tid m = pulse_sends (Mount.at_pc p0 Mount.Done)).
        rewrite Hsent0. unfold pulse_sends. cbn. rewrite Hax. reflexivity.
    + discriminate.
  - (* another thread *)
    assert (Hother : forall m1 q extra,
              Mount.pulses m1 = <[t := q]> (Mount.pulses m) ->
              Mount.sent m1
              = (Mount.sent m ++ map (fun msg => (Some t, msg)) extra)%list ->
              match Mount.pulses m1 !! tid with
              | Some p =>
                  sent_by tid m1 = pulse_sends p
                  /\ (Mount.at_ p = Mount.Holding ->
                      Mount.axis_of (Mount.direction p) <> None)
              | None => sent_by tid m1 = []
              end).
    { intros m1 q extra Hpulses Hsent. rewrite Hpulses.
      rewrite list_lookup_insert_ne by exact Hne.
      assert (Hsame : sent_by tid m1 = sent_by tid m).
      { unfold sent_by. rewrite Hsent, List.filter_app, map_app.
        assert (Hnone : List.filter
                          (fun wm : option nat * Indigo.message =>
                             match fst wm with
                             | Some t0 => Nat.eqb t0 tid
                             | None => false
                             end)
                          (map (fun msg => (Some t, msg)) extra) = []).
        { clear - Hne. induction extra as [|x xs IH]; [reflexivity|]. cbn.
          destruct (Nat.eqb_spec t tid); [contradiction | exact IH]. }
        rewrite Hnone. cbn. apply app_nil_r. }
      rewrite Hsame. exact Htid. }
    destruct (Mount.at_ p0) eqn:Hat.
    + destruct (Mount.axis_of (Mount.direction p0)) as [a|];
        injection Hrun as <-.
      * eapply (Hother _ _ [_; _]); [reflexivity|].
        cbn. rewrite <- app_assoc. reflexivity.
      * eapply (Hother _ _ [_]); reflexivity.
    + destruct (Qle_bool (Mount.wake p0) (Mount.clock m)); [|discriminate].
      destruct (negb (Mount._pulse_active m));
        [|destruct (Mount.elapsed (Mount.clock m) p0)];
        injection Hrun as <-;
        (eapply (Hother _ _ []); [reflexivity|];
         cbn; rewrite app_nil_r; reflexivity).
    + injection Hrun as <-.
      destruct (Mount.axis_of (Mount.direction p0)) as [a|].
      * eapply (Hother _ _ [_]); reflexivity.
      * eapply (Hother _ _ []); [reflexivity|].
        cbn. rewrite app_nil_r. reflexivity.
    + discriminate.
Qed.

Lemma step_keeps_protocol a m m' :
  Mount.step a m = Some m' ->
  pulses_follow_protocol m -> pulses_follow_protocol m'.
Proof.
  intros Hstep Hinv. destruct a as [dt|d ms_ r| | |t]; cbn in Hstep.
  - destruct (Qle_bool 0 dt); [|discriminate]. injection Hstep as <-.
    exact Hinv.
  - destruct (Mount.pending m); [discriminate|]. injection Hstep as <-.
    exact Hinv.
  - destruct (Mount.pending m) as [[[[d ms_] r] awake]|]; [|discriminate].
    destruct (Qle_bool awake (Mount.clock m)); [|discriminate].
    injection Hstep as <-. intros tid. pose proof (Hinv tid) as Htid.
    cbn [Mount.pulses].
    change (sent_by tid (Mount.MountState true
                           (Mount.pulses m
                            ++ [Mount.Pulse d ms_ r Mount.Spawned 0 0])
                           None (Mount.sent m) (Mount.log m) (Mount.clock m)))
      with (sent_by tid m).
    destruct (Mount.pulses m !! tid) as [p|] eqn:Hp.
    + rewrite (lookup_app_l_Some _ _ _ _ Hp). exact Htid.
    + apply lookup_ge_None in Hp.
      destruct (decide (tid = length (Mount.pulses m))) as [->|Hne].
      * rewrite list_lookup_middle by reflexivity.
        split; [exact Htid | discriminate].
      * rewrite lookup_ge_None_2; [exact Htid|].
        rewrite length_app. cbn. lia.
  - injection Hstep as <-. intros tid. pose proof (Hinv tid) as Htid.
    rewrite !sent_by_send_as, !app_nil_r, sent_by_set_active,
      sent_by_emit_log.
    exact Htid.
  - destruct (Mount.pulses m !! t) as [p0|] eqn:E; [|discriminate].
    eapply run_pulse_keeps_protocol; eauto.
Qed.

(** X19.  Whatever the interleaving of [nudge], [stop] and the pulse
    threads, every pulse thread has sent exactly what its program point
    says, in this order and each once: nothing before it ran; then the
    slew rate and, for a direction the mount knows, the motion switch
    on; and once it has ended the same switch off, by its own hand.  A
    thread with an unknown direction sends the slew rate only, and no
    thread is in the hold loop without a known direction. *)
Theorem pulse_threads_follow_protocol
  (schedule : list Mount.action) (m : Mount.mount) :
  Mount.run schedule Mount.init = Some m ->
  forall tid p,
    Mount.pulses m !! tid = Some p ->
    sent_by tid m = pulse_sends p
    /\ (Mount.at_ p = Mount.Holding ->
        Mount.axis_of (Mount.direction p) <> None).
Proof.
  intros Hrun.
  assert (Hgen : forall m0, pulses_follow_protocol m0 ->
                 Mount.run schedule m0 = Some m ->
                 pulses_follow_protocol m).
  { clear Hrun. induction schedule as [|a rest IH]; intros m0 Hinv Hrun;
      cbn in Hrun.
    - injection Hrun as <-. exact Hinv.
    - destruct (Mount.step a m0) as [m1|] eqn:E; [|discriminate].
      eapply IH; [|exact Hrun]. eapply step_keeps_protocol; eauto. }
  intros tid p Hp. pose proof (Hgen _ protocol_init Hrun tid) as H.
  rewrite Hp in H. exact H.
Qed.

(** X20.  Cancellation works at the pulse's next poll.  After [stop()],
    or after a new [nudge] has cleared the shared flag and before it
    sets it again, a pulse in its hold loop that wakes up ([dt] later,
    however long it slept) leaves the loop without looking at its
    duration, switches its own axis off and ends, leaving the flag
    cleared. *)
Theorem cancelled_pulse_switches_off_at_next_poll
  (m : Mount.mount) (tid : nat) (p : Mount.pulse) (a : Mount.axis)
  (cancel : Mount.action) (dt : Q) :
  Mount.pulses m !! tid = Some p ->
  Mount.at_ p = Mount.Holding ->
  Mount.axis_of (Mount.direction p) = Some a ->
  cancel = Mount.Stop
  \/ (exists d ms_ r, cancel = Mount.NudgeEnter d ms_ r
                      /\ Mount.pending m = None) ->
  (0 <= dt)%Q ->
  (Mount.wake p <= Mount.clock m + dt)%Q ->
  exists m',
    Mount.run [cancel; Mount.Tick dt; Mount.Run tid; Mount.Run tid] m
    = Some m'
    /\ Mount.pulses m' !! tid = Some (Mount.at_pc p Mount.Done)
    /\ List.last (Mount.sent m') (None, Mount.abort_motion)
       = (Some tid, Mount.motion_off a)
    /\ Mount._pulse_active m' = false.
Proof.
  intros Hp Hat Hax Hcancel Hdt Hwake.
  assert (Hlt : (tid < length (Mount.pulses m))%nat)
    by (eapply lookup_lt_Some; eauto).
  assert (Hcleared : exists m1,
            Mount.step cancel m = Some m1
            /\ Mount.pulses m1 = Mount.pulses m
            /\ Mount.clock m1 = Mount.clock m
            /\ Mount._pulse_active m1 = false).
  { destruct Hcancel as [->|(d & ms_ & r & -> & Hpending)].
    - eexists. split; [reflexivity|]. repeat split.
    - cbn [Mount.step]. rewrite Hpending. eexists.
      split; [reflexivity|]. repeat split. }
  destruct Hcleared as (m1 & Hstep1 & Hpulses1 & Hclock1 & Hflag1).
  apply Qle_bool_iff in Hdt.
  pose (m2 := Mount.MountState (Mount._pulse_active m1) (Mount.pulses m1)
                (Mount.pending m1) (Mount.sent m1) (Mount.log m1)
                (Mount.clock m1 + dt)%Q).
  assert (Hstep2 : Mount.step (Mount.Tick dt) m1 = Some m2).
  { cbn [Mount.step]. rewrite Hdt. reflexivity. }
  assert (Hstep3 : Mount.step (Mount.Run tid) m2
                   = Some (Mount.set_pulse tid
                             (Mount.at_pc p Mount.Releasing) m2)).
  { apply cancelled_pulse_leaves_loop.
    - cbn. rewrite Hpulses1. exact Hp.
    - exact Hat.
    - exact Hflag1.
    - cbn. rewrite Hclock1. exact Hwake. }
  destruct (release_turns_motion_off tid (Mount.at_pc p Mount.Releasing) a
              (Mount.set_pulse tid (Mount.at_pc p Mount.Releasing) m2))
    as (m4 & Hstep4 & Hsent4 & Hflag4 & Hp4).
  { cbn. rewrite Hpulses1. apply list_lookup_insert_eq. exact Hlt. }
  { reflexivity. }
  { exact Hax. }
  exists m4. cbn [Mount.run].
  rewrite Hstep1, Hstep2, Hstep3, Hstep4.
  split; [reflexivity|]. split; [exact Hp4|]. split; [|exact Hflag4].
  rewrite Hsent4. apply last_last.
Qed.

End PulsesMore.

(** X19 on one nudge whose thread has switched its axis on. *)
Lemma pulse_protocol_witness :
  let p := Mount.Pulse "north" 200 None Mount.Holding (1 # 100) (1 # 100) in
  let m := Mount.MountState true [p] None
             [(Some 0%nat, Mount.slew_rate_msg None);
              (Some 0%nat, Mount.motion_on Mount.DEC "north")]
             [] (1 # 100) in
  sent_by 0 m = pulse_sends p
  /\ (Mount.at_ p = Mount.Holding ->
      Mount.axis_of (Mount.direction p) <> None).
Proof.
  cbv zeta.
  refine (pulse_threads_follow_protocol
            (Mount.nudge (Some "north") 200 None (1 # 100) ++ [Mount.Run 0])
            _ _ 0%nat _ _); vm_compute; reflexivity.
Defined.

(** X20 on [stop()] ten milliseconds into that pulse. *)
Lemma cancelled_pulse_witness :
  let p := Mount.Pulse "north" 200 None Mount.Holding (1 # 100) (1 # 100) in
  let m := Mount.MountState true [p] None
             [(Some 0%nat, Mount.slew_rate_msg None);
              (Some 0%nat, Mount.motion_on Mount.DEC "north")]
             [] (1 # 100) in
  exists m',
    Mount.run [Mount.Stop; Mount.Tick (1 # 100); Mount.Run 0; Mount.Run 0] m
    = Some m'
    /\ Mount.pulses m' !! 0%nat = Some (Mount.at_pc p Mount.Done)
    /\ List.last (Mount.sent m') (None, Mount.abort_motion)
       = (Some 0%nat, Mount.motion_off Mount.DEC)
    /\ Mount._pulse_active m' = false.
Proof.
  cbv zeta.
  apply (cancelled_pulse_switches_off_at_next_poll
           (Mount.MountState true
              [Mount.Pulse "north" 200 None Mount.Holding (1 # 100) (1 # 100)]
              None
              [(Some 0%nat, Mount.slew_rate_msg None);
               (Some 0%nat, Mount.motion_on Mount.DEC "north")]
              [] (1 # 100))
           0%nat
           (Mount.Pulse "north" 200 None Mount.Holding (1 # 100) (1 # 100))
           Mount.DEC Mount.Stop (1 # 100)).
  - reflexivity.
  - reflexivity.
  - reflexivity.
  - left. reflexivity.
  - discriminate.
  - discriminate.
Defined.

(* ===================================================================== *)
(** * Further properties: the cached mount state                          *)
(* ===================================================================== *)

Section Cache.

(** [_emit_status] never writes the cached state. *)
Lemma emit_status_state emit_ v :
  MountCache._state (fst (MountCache._emit_status emit_ v))
  = MountCache._state v.
Proof.
  unfold MountCache._emit_status.
  destruct (MountCache._socketio v); [destruct emit_|]; reflexivity.
Qed.

(** When it returns, [_emit_status] has logged the status [get_status]
    gives, and emitted it if a sink is attached; when it raises, the
    sink has raised and nothing was emitted or logged. *)
Lemma emit_status_reports emit_ v :
  let r := MountCache._emit_status emit_ v in
  MountCache._socketio (fst r) = MountCache._socketio v
  /\ (snd r = Py.Ok tt ->
      List.last (MountCache.log (fst r)) ""
      = ("[MOUNT] Status: " ++ MountCache.get_status (fst r))%string
      /\ MountCache.emitted (fst r)
         = (MountCache.emitted v
            ++ if MountCache._socketio v
               then [MountCache.get_status (fst r)] else [])%list)
  /\ (forall e, snd r = Py.Raise e ->
      fst r = v /\ MountCache._socketio v = true /\ emit_ = Py.Raise e)
  /\ (MountCache._socketio v = false \/ emit_ = Py.Ok tt ->
      snd r = Py.Ok tt).
Proof.
  cbv zeta. unfold MountCache._emit_status, MountCache.get_status.
  destruct (MountCache._socketio v) eqn:Hs; [destruct emit_ as [[]|e]|];
    cbn; rewrite ?Hs, ?app_nil_r.
  - split; [reflexivity|]. split; [|split; [discriminate | reflexivity]].
    intros _. split; [apply last_logged | reflexivity].
  - split; [reflexivity|]. split; [discriminate|].
    split; [intros e' [= <-]; repeat split; reflexivity|].
    intros [H|H]; discriminate.
  - split; [reflexivity|]. split; [|split; [discriminate | reflexivity]].
    intros _. split; [apply last_logged | reflexivity].
Qed.

(** The two ways through the handler: it returns or raises before it
    writes anything (a vector of another device, a message it cannot
    read), whatever the sink would do; or it writes one flag at most and
    goes on to [_emit_status]. *)
Lemma switch_handler_cases msg v :
  (exists res, forall emit_,
      MountCache._handle_switch_vector msg emit_ v = (v, res))
  \/ (exists s',
        one_flag_apart (MountCache._state v) s'
        /\ forall emit_,
             MountCache._handle_switch_vector msg emit_ v
             = MountCache._emit_status emit_ (MountCache.with_state s' v)).
Proof.
  unfold MountCache._handle_switch_vector.
  destruct (Json.get "device" msg) as [dev|e].
  2:{ left. eexists. reflexivity. }
  destruct (MountCache.ne_str dev Mount.device) eqn:Hdev.
  { left. eexists. reflexivity. }
  destruct (_ ← Json.get "name" msg; _) as [[name items]|e].
  2:{ left. eexists. reflexivity. }
  right.
  match goal with
  | |- context [MountCache.with_state ?s v] => exists s
  end.
  split; [|reflexivity].
  unfold one_flag_apart.
  destruct (MountCache.eq_str name "MOUNT_SLEW_RATE").
  { destruct (List.find _ _) as [rate|] eqn:Ef; [|left; reflexivity].
    apply find_some in Ef as [Hin _].
    right. left. exists rate. split; [exact Hin | reflexivity]. }
  destruct (MountCache.eq_str name "MOUNT_MOTION_RA").
  { right. right. left. eexists. reflexivity. }
  destruct (MountCache.eq_str name "MOUNT_MOTION_DEC").
  { right. right. right. left. eexists. reflexivity. }
  destruct (MountCache.eq_str name "MOUNT_PARK").
  { right. right. right. right. eexists. reflexivity. }
  left. reflexivity.
Qed.

(** X21.  What [_handle_switch_vector] can do.  A vector of another
    device is ignored before its items are looked at: nothing changes
    and nothing can go wrong.  Whatever happens, the cached state
    differs from the one before in one flag at most (the slew rate, set
    to one of the four INDIGO rates, or one of moving_ra, moving_dec,
    parked; never a coordinate), and the sink stays as it is.  The state
    is written before the status is pushed to the sink: it is the same
    whether the sink then takes the status or raises.  When the handler
    returns, it has left everything untouched (a vector of another
    device) or it has logged, and with a sink attached emitted, the very
    status [get_status] gives for the new state.  When it raises,
    nothing has been emitted or logged, and either nothing at all has
    changed (the message could not be read) or the sink has raised, the
    exception is the sink's, and the state keeps the change.  Without a
    sink, or with one that takes the status, the handler raises only on
    a message it cannot read, and then whatever the sink does. *)
Theorem switch_handler_changes_one_flag_and_reports
  (msg : Json.value) (emit_ : Py.result unit) (v : MountCache.view) :
  let r := MountCache._handle_switch_vector msg emit_ v in
  (forall dev, Json.get "device" msg = Py.Ok dev ->
               MountCache.ne_str dev Mount.device = true ->
               r = (v, Py.Ok tt))
  /\ one_flag_apart (MountCache._state v) (MountCache._state (fst r))
  /\ MountCache._socketio (fst r) = MountCache._socketio v
  /\ (forall emit',
        MountCache._state
          (fst (MountCache._handle_switch_vector msg emit' v))
        = MountCache._state (fst r))
  /\ (snd r = Py.Ok tt ->
      fst r = v
      \/ (List.last (MountCache.log (fst r)) ""
          = ("[MOUNT] Status: " ++ MountCache.get_status (fst r))%string
          /\ MountCache.emitted (fst r)
             = (MountCache.emitted v
                ++ if MountCache._socketio v
                   then [MountCache.get_status (fst r)] else [])%list))
  /\ (forall e, snd r = Py.Raise e ->
      MountCache.emitted (fst r) = MountCache.emitted v
      /\ MountCache.log (fst r) = MountCache.log v
      /\ (fst r = v
          \/ (MountCache._socketio v = true /\ emit_ = Py.Raise e)))
  /\ (forall e, snd r = Py.Raise e ->
      MountCache._socketio v = false \/ emit_ = Py.Ok tt ->
      forall emit',
        MountCache._handle_switch_vector msg emit' v = (v, Py.Raise e)).
Proof.
  cbv zeta.
  split.
  { intros dev Hdev Hne. unfold MountCache._handle_switch_vector.
    rewrite Hdev, Hne. reflexivity. }
  destruct (switch_handler_cases msg v) as [[res Hres]|(s' & Hflag & Hs')].
  - (* nothing was written *)
    rewrite (Hres emit_). cbn [fst snd].
    split; [left; reflexivity|]. split; [reflexivity|].
    split; [intros emit'; rewrite (Hres emit'); reflexivity|].
    split; [intros _; left; reflexivity|].
    split; [intros e _; repeat split; left; reflexivity|].
    intros e -> _ emit'. apply Hres.
  - (* one flag written, then the status *)
    rewrite (Hs' emit_).
    destruct (emit_status_reports emit_ (MountCache.with_state s' v))
      as (Hsio & Hok & Hraise & Hquiet).
    rewrite emit_status_state.
    split; [exact Hflag|]. split; [exact Hsio|].
    split; [intros emit'; rewrite (Hs' emit'), emit_status_state;
            reflexivity|].
    split; [intros H; right; exact (Hok H)|].
    split.
    + intros e He. destruct (Hraise e He) as (Hv & Hs & Hemit).
      rewrite Hv. cbn [MountCache.emitted MountCache.log
                       MountCache.with_state].
      split; [reflexivity|]. split; [reflexivity|].
      right. split; [exact Hs | exact Hemit].
    + intros e He Hq. rewrite (Hquiet Hq) in He. discriminate.
Qed.

(** The handler reads a message through its device, its name and its
    items only. *)
Lemma handler_reads_the_vector m msg msg' emit_ v :
  carries m msg -> carries m msg' ->
  MountCache._handle_switch_vector msg emit_ v
  = MountCache._handle_switch_vector msg' emit_ v.
Proof.
  destruct m as [vec|vec|dev nm]; cbn [carries]; try tauto.
  all: intros (Hd & Hn & Hi) (Hd' & Hn' & Hi');
    unfold MountCache._handle_switch_vector;
    rewrite Hd, Hd', Hn, Hn'; cbn [mbind result_bind];
    rewrite ?Hi, ?Hi'; reflexivity.
Qed.

Lemma payload_carries m :
  (forall dev nm, m <> Indigo.getProperties dev nm) ->
  carries m (payload m).
Proof.
  destruct m as [vec|vec|dev nm]; intros Hm;
    [| |exfalso; exact (Hm dev nm eq_refl)];
    cbn; repeat split; reflexivity.
Qed.

Lemma handled_reads_the_vectors msgs : forall reports v,
  Forall2 carries msgs reports ->
  handled reports v = handled (map payload msgs) v.
Proof.
  induction msgs as [|m rest IH]; intros reports v H;
    inversion H as [|m0 msg ms0 rest' Hm Hrest]; subst; [reflexivity|].
  cbn [map handled].
  assert (Hpay : carries m (payload m)).
  { apply payload_carries. intros dev nm ->. exact Hm. }
  rewrite (handler_reads_the_vector m msg (payload m) _ v Hm Hpay).
  destruct (MountCache._handle_switch_vector (payload m) (Py.Ok tt) v)
    as [v' [u|e]]; [apply IH, Hrest | reflexivity].
Qed.

(** The cached state after the handler has taken the vectors of each
    command, computed on the dictionaries the command builds. *)
Lemma handled_slew (direction rate : option string) v :
  let d := Py.lower (Py.str_or direction "") in
  let r := handled (map payload (Mount.slew_msgs direction rate)) v in
  snd r = Py.Ok tt
  /\ MountCache._state (fst r)
     = match Mount.axis_of d with
       | Some a =>
           set_moving a true
             (MountCache.set_slew_rate (Mount._map_ui_rate rate)
                (MountCache._state v))
       | None =>
           MountCache.set_slew_rate (Mount._map_ui_rate rate)
             (MountCache._state v)
       end.
Proof.
  cbv zeta. unfold Mount.slew_msgs, Mount.axis_of.
  set (d := Py.lower (Py.str_or direction "")).
  unfold Mount.slew_rate_msg, Mount._map_ui_rate.
  destruct v as [s [|] em lg].
  all: destruct (String.eqb_spec d "east") as [->|He];
    [|destruct (String.eqb_spec d "west") as [->|Hw];
      [|destruct (String.eqb_spec d "north") as [->|Hn];
        [|destruct (String.eqb_spec d "south") as [->|Hs]]]];
    cbn [orb];
    (destruct (String.eqb (Py.lower (Py.str_or rate "solar")) "slow");
     [|destruct (String.eqb (Py.lower (Py.str_or rate "solar")) "fast")]);
    split; reflexivity.
Qed.

Lemma handled_fixed_commands v :
  (snd (handled (map payload Mount.stop_msgs) v) = Py.Ok tt
   /\ MountCache._state (fst (handled (map payload Mount.stop_msgs) v))
      = MountCache.set_moving_ra false
          (MountCache.set_moving_dec false (MountCache._state v)))
  /\ (snd (handled (map payload Mount.park_msgs) v) = Py.Ok tt
      /\ MountCache._state (fst (handled (map payload Mount.park_msgs) v))
         = MountCache.set_parked true (MountCache._state v)
      /\ MountCache.get_status (fst (handled (map payload Mount.park_msgs) v))
         = "PARKED")
  /\ (snd (handled (map payload Mount.unpark_msgs) v) = Py.Ok tt
      /\ MountCache._state (fst (handled (map payload Mount.unpark_msgs) v))
         = MountCache.set_parked false (MountCache._state v)).
Proof.
  destruct v as [s [|] em lg]; repeat split; reflexivity.
Qed.

(** X22.  The cache follows the commands.  Let the switch handler be
    called, in turn, on decoded messages that carry the vectors a
    command wrote: for each vector a message whose device, name and
    items are the ones the command put on the wire, whatever else the
    message holds, each status emit returning.  The handler takes every
    one without raising and leaves the cached state as the command
    meant it: after [slew] in a direction that, lower-cased, is one of
    the four the mount knows, the slew rate is the one chosen for the UI
    rate and the direction's axis is moving; after [slew] in any other
    direction only the slew rate is set; after [stop] neither axis is
    moving (the abort vector changes nothing); after [park] the mount is
    parked and the status is PARKED whatever else is cached; after
    [unpark] it is not parked. *)
Theorem reported_commands_update_cached_state
  (command : list Indigo.message) (reports : list Json.value)
  (v : MountCache.view) :
  Forall2 carries command reports ->
  let r := handled reports v in
  (forall direction rate,
     command = Mount.slew_msgs direction rate ->
     snd r = Py.Ok tt
     /\ MountCache._state (fst r)
        = match Mount.axis_of (Py.lower (Py.str_or direction "")) with
          | Some a =>
              set_moving a true
                (MountCache.set_slew_rate (Mount._map_ui_rate rate)
                   (MountCache._state v))
          | None =>
              MountCache.set_slew_rate (Mount._map_ui_rate rate)
                (MountCache._state v)
          end)
  /\ (command = Mount.stop_msgs ->
      snd r = Py.Ok tt
      /\ MountCache._state (fst r)
         = MountCache.set_moving_ra false
             (MountCache.set_moving_dec false (MountCache._state v)))
  /\ (command = Mount.park_msgs ->
      snd r = Py.Ok tt
      /\ MountCache._state (fst r)
         = MountCache.set_parked true (MountCache._state v)
      /\ MountCache.get_status (fst r) = "PARKED")
  /\ (command = Mount.unpark_msgs ->
      snd r = Py.Ok tt
      /\ MountCache._state (fst r)
         = MountCache.set_parked false (MountCache._state v)).
Proof.
  intros Hcarries. cbv zeta.
  rewrite (handled_reads_the_vectors command reports v Hcarries).
  destruct (handled_fixed_commands v) as (Hstop & Hpark & Hunpark).
  split; [intros direction rate ->; apply handled_slew|].
  split; [intros ->; exact Hstop|].
  split; [intros ->; exact Hpark | intros ->; exact Hunpark].
Qed.

End Cache.

(** X22 on a slew to the east at the fast rate, the handler reading the
    dictionaries [slew] itself built, from the state at start-up. *)
Lemma reported_commands_witness :
  let command := Mount.slew_msgs (Some "East") (Some "fast") in
  let reports := map payload command in
  Forall2 carries command reports
  /\ snd (handled reports MountCache.init) = Py.Ok tt
  /\ MountCache._state (fst (handled reports MountCache.init))
     = MountCache.set_moving_ra true
         (MountCache.set_slew_rate "MAX" MountCache.initial).
Proof.
  cbv zeta.
  assert (H : Forall2 carries (Mount.slew_msgs (Some "East") (Some "fast"))
                (map payload (Mount.slew_msgs (Some "East") (Some "fast")))).
  { repeat constructor. }
  split; [exact H|].
  destruct (reported_commands_update_cached_state _ _ MountCache.init H)
    as (Hslew & _).
  exact (Hslew (Some "East") (Some "fast") eq_refl).
Defined.

(* ===================================================================== *)
(** * Further properties: the idle watcher                                *)
(* ===================================================================== *)

Section Idle.

(** X23.  Closing the idle socket is invisible to callers.  On a client
    that holds a socket, a wake-up of the idle watcher (whether or not
    it closes the socket) followed by a [send] that the board accepts a
    connection for gives the same reply, the same state dictionary and
    the same socket as the [send] alone: the lazy connect of [send]
    makes up for the close. *)
Theorem idle_close_is_transparent
  (message_ : string) (x : Arduino.io) (t : Q) (w : Arduino.world) :
  client_consistent w ->
  Arduino.sock (Arduino._client w) = true ->
  Arduino.conn x = None ->
  let direct := Arduino.send message_ x w in
  let after_idle := Arduino.send message_ x (Arduino.idle_watch t w) in
  snd after_idle = snd direct
  /\ Arduino.state (fst after_idle) = Arduino.state (fst direct)
  /\ Arduino.sock (Arduino._client (fst after_idle))
     = Arduino.sock (Arduino._client (fst direct)).
Proof.
  intros (Hmax & Hcount & Hzero) Hsock Hconn. cbv zeta.
  destruct Hzero as [Hzero|[Hno _]]; [|congruence].
  unfold Arduino.idle_watch. rewrite Hsock. cbn [andb].
  destruct (Qlt_le_dec _ _); [|repeat split; reflexivity].
  unfold Arduino.send, Arduino.send_body. rewrite Hsock, Hconn.
  cbn [Arduino._client Arduino.with_client Arduino.emit_log Arduino.sock
       Arduino.set_sock].
  unfold Arduino._connect.
  cbn [Arduino._client Arduino.with_client Arduino.emit_log
       Arduino.max_warns Arduino.fail_count Arduino.set_sock].
  assert (Hguard : (Arduino.max_warns (Arduino._client w)
                    <=? Arduino.fail_count (Arduino._client w)) = false)
    by (apply Z.leb_gt; lia).
  rewrite Hguard.
  cbn [Arduino._client Arduino.with_client Arduino.emit_log Arduino.sock
       Arduino.set_sock Arduino.set_warn_sent Arduino.set_fail_count
       Arduino.set_state negb].
  rewrite ?Hsock. cbn [negb].
  destruct (Arduino.sendall x) as [e|].
  - rewrite every_exn_is_Exception. cbn.
    rewrite insert_insert_eq. repeat split; reflexivity.
  - destruct (Arduino.recv_line (Arduino.recvs x) "") as [buffer|e].
    + cbn. rewrite insert_insert_eq, ?Hsock. repeat split; reflexivity.
    + rewrite every_exn_is_Exception. cbn.
      rewrite insert_insert_eq. repeat split; reflexivity.
Qed.

End Idle.

(** X23 on a board that answered a status query and then sat idle for
    half a minute. *)
Lemma idle_close_witness :
  let x := Arduino.IO 30 None None [Arduino.Chunk ("dome:0" ++ lf)] in
  let w := fst (Arduino.send "status" x (Arduino.init 0)) in
  let direct := Arduino.send "dome 180" x w in
  let after_idle := Arduino.send "dome 180" x (Arduino.idle_watch 60 w) in
  snd after_idle = snd direct
  /\ Arduino.state (fst after_idle) = Arduino.state (fst direct)
  /\ Arduino.sock (Arduino._client (fst after_idle))
     = Arduino.sock (Arduino._client (fst direct)).
Proof.
  cbv zeta.
  apply (idle_close_is_transparent "dome 180"
           (Arduino.IO 30 None None [Arduino.Chunk ("dome:0" ++ lf)]) 60
           (fst (Arduino.send "status"
                   (Arduino.IO 30 None None [Arduino.Chunk ("dome:0" ++ lf)])
                   (Arduino.init 0)))).
  - unfold client_consistent. vm_compute. repeat split; discriminate || auto.
  - reflexivity.
  - reflexivity.
Defined.

(* ===================================================================== *)
(** * Further properties: the retry counter of the INDIGO client          *)
(* ===================================================================== *)

Section Retries.

Variable json_loads : string -> option Json.value.
Variable py_str : Json.value -> string.

Lemma dispatch_retry_count line c :
  Indigo.retry_count (fst (Indigo._dispatch json_loads py_str line c))
  = Indigo.retry_count c.
Proof. unfold Indigo._dispatch. repeat case_match; reflexivity. Qed.

Lemma dispatch_lines_retry_count lines : forall c,
  Indigo.retry_count (fst (Indigo.dispatch_lines json_loads py_str lines c))
  = Indigo.retry_count c.
Proof.
  induction lines as [|line rest IH]; intros c; [reflexivity|].
  cbn [Indigo.dispatch_lines].
  pose proof (dispatch_retry_count (Py.strip line) c) as Hd.
  destruct (Indigo._dispatch json_loads py_str (Py.strip line) c)
    as [c1 [u|e]]; cbn [fst] in *; [rewrite IH|]; exact Hd.
Qed.

(** The read loop leaves the retry counter alone, makes no connection
    attempt, and never marks the client connected. *)
Lemma listen_loop_keeps_retries evs : forall buffer c,
  let c' := fst (Indigo._listen_loop json_loads py_str evs buffer c) in
  Indigo.retry_count c' = Indigo.retry_count c
  /\ Indigo.attempts c' = Indigo.attempts c
  /\ (Indigo.connected c = false -> Indigo.connected c' = false).
Proof.
  assert (Herror : forall e c,
            let c' := fst (Indigo.on_listener_error e c) in
            Indigo.retry_count c' = Indigo.retry_count c
            /\ Indigo.attempts c' = Indigo.attempts c
            /\ (Indigo.connected c = false -> Indigo.connected c' = false)).
  { intros e c. cbv zeta.
    destruct (on_listener_error_frame e c) as (_ & _ & [Hatt _] & _).
    split; [|split; [exact Hatt|]];
      unfold Indigo.on_listener_error; destruct (Py.caught_by _ e);
      reflexivity. }
  induction evs as [|ev rest IH]; intros buffer c; cbv zeta;
    cbn [Indigo._listen_loop]; destruct (Indigo.stop_flag c) eqn:Hstop;
    cbn [fst].
  - destruct (on_listener_exit_frame c) as (_ & _ & [Hatt _] & _).
    split; [reflexivity|]. split; [exact Hatt | reflexivity].
  - repeat split; auto.
  - destruct (on_listener_exit_frame c) as (_ & _ & [Hatt _] & _).
    split; [reflexivity|]. split; [exact Hatt | reflexivity].
  - destruct ev as [|text|e].
    + specialize (IH buffer c). cbv zeta in IH. exact IH.
    + destruct text as [|ch text].
      * cbn [fst].
        destruct (on_listener_exit_frame
                    (Indigo.emit_log
                       "[INDIGO] Connection closed by remote." c))
          as (_ & _ & [Hatt _] & _).
        split; [reflexivity|]. split; [exact Hatt | reflexivity].
      * destruct (Indigo.take_lines (buffer ++ String ch text))
          as [lines rest_].
        pose proof (dispatch_lines_retry_count lines c) as Hr.
        pose proof (dispatch_lines_frame json_loads py_str lines c) as Hd.
        cbv zeta in Hd. destruct Hd as (_ & Hconn & _ & _ & [Hatt _]).
        destruct (Indigo.dispatch_lines json_loads py_str lines c)
          as [c1 [u|e]]; cbn [fst] in *.
        -- specialize (IH rest_ c1). cbv zeta in IH.
           destruct IH as (I1 & I2 & I3).
           split; [congruence|]. split; [congruence|].
           intros Hc. apply I3. congruence.
        -- destruct (Herror e c1) as (E1 & E2 & E3).
           split; [congruence|]. split; [congruence|].
           intros Hc. apply E3. congruence.
    + apply Herror.
Qed.

(** X24.  A client that has used up its retries never connects again.
    With the retry counter at [N] or above and the client disconnected,
    whatever is called on it ([connect] with a limit up to [N], [send],
    [on], [close], the listener loop), and whatever the server would
    answer, no connection attempt is made, the counter keeps its value
    and the client stays disconnected: only a successful [connect]
    resets the counter, and [connect] no longer tries. *)
Theorem exhausted_client_never_reconnects
  (N : Z) (ks : list client_call) (c : Indigo.client) :
  N <= Indigo.retry_count c ->
  Indigo.connected c = false ->
  Forall (within_retries N) ks ->
  let c' := calls json_loads py_str ks c in
  Indigo.attempts c' = Indigo.attempts c
  /\ Indigo.retry_count c' = Indigo.retry_count c
  /\ Indigo.is_connected c' = false.
Proof.
  intros HN Hconn Hks. cbv zeta.
  assert (Hgen : Indigo.attempts (calls json_loads py_str ks c)
                 = Indigo.attempts c
                 /\ Indigo.retry_count (calls json_loads py_str ks c)
                    = Indigo.retry_count c
                 /\ Indigo.connected (calls json_loads py_str ks c) = false).
  { revert c HN Hconn.
    induction Hks as [|k rest Hk Hrest IH]; intros c HN Hconn.
    - repeat split; assumption || reflexivity.
    - change (calls json_loads py_str (k :: rest) c)
        with (calls json_loads py_str rest (call json_loads py_str k c)).
      assert (Hstep : Indigo.attempts (call json_loads py_str k c)
                      = Indigo.attempts c
                      /\ Indigo.retry_count (call json_loads py_str k c)
                         = Indigo.retry_count c
                      /\ Indigo.connected (call json_loads py_str k c)
                         = false).
      { destruct k as [peer n|m quiet io|kind cb| |evs buffer];
          cbn [call within_retries] in *.
        - rewrite connect_unfold.
          assert (Hltb : (Indigo.retry_count c <? n) = false)
            by (apply Z.ltb_ge; lia).
          rewrite Hltb.
          destruct (Indigo.stop_flag c); cbn [fst];
            (split; [apply attempts_on_give_up|]; split; reflexivity).
        - unfold Indigo.send. rewrite Hconn. cbn [negb orb fst].
          destruct quiet; repeat split; assumption.
        - repeat split; assumption.
        - unfold Indigo.close.
          cbn [Indigo.sock Indigo.set_connected Indigo.set_stop_flag].
          destruct (Indigo.sock c); cbn; repeat split;
            unfold Indigo.attempts; cbn;
            rewrite ?List.filter_app; cbn; rewrite ?app_nil_r;
            reflexivity.
        - destruct (listen_loop_keeps_retries evs buffer c)
            as (L1 & L2 & L3).
          split; [exact L2|]. split; [exact L1 | exact (L3 Hconn)]. }
      destruct Hstep as (S1 & S2 & S3).
      destruct (IH (call json_loads py_str k c)) as (I1 & I2 & I3);
        [lia | exact S3 |].
      split; [congruence|]. split; [congruence | exact I3]. }
  destruct Hgen as (G1 & G2 & G3).
  split; [exact G1|]. split; [exact G2|].
  unfold Indigo.is_connected. rewrite G3. reflexivity.
Qed.

End Retries.

(** X24 on a client whose counter stands at ten, with a server that
    would now accept. *)
Lemma exhausted_client_witness :
  let c := Indigo.set_retry_count 10 indigo_client in
  let c' := calls Json.decode (fun _ => "")
              [CallConnect (fun _ => None) 10;
               CallSend Mount.abort_motion true (Py.Ok tt);
               CallConnect (fun _ => None) 10] c in
  Indigo.attempts c' = Indigo.attempts c
  /\ Indigo.retry_count c' = Indigo.retry_count c
  /\ Indigo.is_connected c' = false.
Proof.
  cbv zeta.
  apply (exhausted_client_never_reconnects Json.decode (fun _ => "") 10
           [CallConnect (fun _ => None) 10;
            CallSend Mount.abort_motion true (Py.Ok tt);
            CallConnect (fun _ => None) 10]
           (Indigo.set_retry_count 10 indigo_client)).
  - cbn. lia.
  - reflexivity.
  - repeat constructor; cbn; lia.
Defined.

(* ===================================================================== *)
(** * Further properties: a status reply the poll loop cannot read        *)
(* ===================================================================== *)

Section StatusReply.

(** Parsing leaves the client, the emissions and the log alone, and
    writes no entry of the state but the dome and etalon ones. *)
Lemma parse_status_line_frame line w :
  let w' := fst (Arduino.parse_status_line line w) in
  Arduino._client w' = Arduino._client w
  /\ Arduino.emitted w' = Arduino.emitted w
  /\ Arduino.log w' = Arduino.log w
  /\ Arduino.state w' !! "last_updated" = Arduino.state w !! "last_updated".
Proof.
  cbv zeta. unfold Arduino.parse_status_line.
  repeat case_match; cbn [fst]; repeat split; try reflexivity;
    cbn; repeat (rewrite lookup_insert_ne by discriminate); reflexivity.
Qed.

Lemma parse_status_lines_frame lines : forall w,
  let w' := fst (Arduino.parse_status_lines lines w) in
  Arduino._client w' = Arduino._client w
  /\ Arduino.emitted w' = Arduino.emitted w
  /\ Arduino.log w' = Arduino.log w
  /\ Arduino.state w' !! "last_updated" = Arduino.state w !! "last_updated".
Proof.
  induction lines as [|line rest IH]; intros w; cbv zeta.
  - repeat split; reflexivity.
  - cbn [Arduino.parse_status_lines].
    pose proof (parse_status_line_frame line w) as Hl. cbv zeta in Hl.
    destruct (Arduino.parse_status_line line w) as [w1 [u|e]];
      cbn [fst] in *; [|exact Hl].
    specialize (IH w1). cbv zeta in IH.
    destruct Hl as (L1 & L2 & L3 & L4), IH as (I1 & I2 & I3 & I4).
    repeat split; congruence.
Qed.

Lemma parse_status_lines_app good rest : forall w,
  Arduino.parse_status_lines (good ++ rest) w
  = match Arduino.parse_status_lines good w with
    | (w', Py.Ok _) => Arduino.parse_status_lines rest w'
    | (w', Py.Raise e) => (w', Py.Raise e)
    end.
Proof.
  induction good as [|line good IH]; intros w; [reflexivity|].
  cbn [app Arduino.parse_status_lines].
  destruct (Arduino.parse_status_line line w) as [w1 [u|e]];
    [apply IH | reflexivity].
Qed.

(** X26.  A status reply with a line the poll loop cannot read (a dome
    or etalon line whose field [int] does not take).  The lines before
    it have been applied and stay applied, the lines after it are
    dropped, the state gets no new [last_updated] time and is not
    published; one line is added to the log, an
    ["[Arduino Monitor Error] "] followed by the text of the exception,
    and the board is marked disconnected, although the exchange
    succeeded and the client keeps its socket as [send] left it. *)
Theorem unreadable_status_line_aborts_poll
  (x : Arduino.io) (stamp : string) (w w1 : Arduino.world)
  (reply : string) (good : list string) (bad : string)
  (rest : list string) (e : Py.exn) :
  Arduino.send "status" x w = (w1, Py.Ok reply) ->
  Py.split Py.nl (Py.strip reply) = (good ++ bad :: rest)%list ->
  snd (Arduino.parse_status_lines good w1) = Py.Ok tt ->
  snd (Arduino.parse_status_line bad
         (fst (Arduino.parse_status_lines good w1))) = Py.Raise e ->
  let w2 := fst (Arduino.parse_status_lines good w1) in
  let w' := Arduino.poll_status x stamp w in
  Arduino.state w'
  = <["connected" := Arduino.PBool false]> (Arduino.state w2)
  /\ Arduino.state w' !! "last_updated" = Arduino.state w !! "last_updated"
  /\ Arduino._client w' = Arduino._client w1
  /\ Arduino.emitted w' = Arduino.emitted w1
  /\ exists text,
       Arduino.log w'
       = Logger.logged ("[Arduino Monitor Error] " ++ text) (Arduino.log w1).
Proof.
  intros Hsend Hsplit Hgood Hbad. cbv zeta.
  pose proof (parse_status_lines_frame good w1) as Hframe.
  cbv zeta in Hframe. destruct Hframe as (F1 & F2 & F3 & F4).
  assert (Hsent : Arduino.state w1 !! "last_updated"
                  = Arduino.state w !! "last_updated").
  { pose proof (send_state_other "status" x w "last_updated") as H.
    rewrite Hsend in H. apply H. discriminate. }
  assert (Hparse : Arduino.parse_status_lines (good ++ bad :: rest) w1
                   = (fst (Arduino.parse_status_lines good w1),
                      Py.Raise e)).
  { rewrite parse_status_lines_app.
    destruct (Arduino.parse_status_lines good w1) as [w2 [u|e0]];
      cbn [fst snd] in *; [|discriminate].
    cbn [Arduino.parse_status_lines].
    assert (Hline : fst (Arduino.parse_status_line bad w2) = w2).
    { unfold Arduino.parse_status_line in *.
      repeat case_match; cbn [fst snd] in *; congruence. }
    destruct (Arduino.parse_status_line bad w2) as [w3 [u'|e1]];
      cbn [fst snd] in *; [discriminate|].
    congruence. }
  unfold Arduino.poll_status. rewrite Hsend, Hsplit, Hparse.
  cbn [Arduino.state Arduino.set_state Arduino.emit_log Arduino._client
       Arduino.emitted Arduino.log].
  split; [reflexivity|].
  split; [rewrite lookup_insert_ne by discriminate; congruence|].
  split; [exact F1|]. split; [exact F2|].
  exists (Indigo.exn_text e). rewrite F3. reflexivity.
Qed.

End StatusReply.

(** X26 on a reply whose second line is no integer. *)
Lemma unreadable_status_line_witness :
  let x := Arduino.IO 5 None None
             [Arduino.Chunk ("dome:0" ++ lf ++ "et1:abc" ++ lf ++ "et2:5"
                             ++ lf)] in
  let w := Arduino.init 0 in
  let w1 := fst (Arduino.send "status" x w) in
  let w2 := fst (Arduino.parse_status_lines ["dome:0"] w1) in
  let w' := Arduino.poll_status x "2025-01-01 12:00:00" w in
  Arduino.state w'
  = <["connected" := Arduino.PBool false]> (Arduino.state w2)
  /\ Arduino.state w' !! "last_updated" = Arduino.state w !! "last_updated"
  /\ Arduino._client w' = Arduino._client w1
  /\ Arduino.emitted w' = Arduino.emitted w1
  /\ exists text,
       Arduino.log w'
       = Logger.logged ("[Arduino Monitor Error] " ++ text) (Arduino.log w1).
Proof.
  cbv zeta.
  apply (unreadable_status_line_aborts_poll
           (Arduino.IO 5 None None
              [Arduino.Chunk ("dome:0" ++ lf ++ "et1:abc" ++ lf ++ "et2:5"
                              ++ lf)])
           "2025-01-01 12:00:00" (Arduino.init 0)
           (fst (Arduino.send "status"
                   (Arduino.IO 5 None None
                      [Arduino.Chunk ("dome:0" ++ lf ++ "et1:abc" ++ lf
                                      ++ "et2:5" ++ lf)])
                   (Arduino.init 0)))
           ("dome:0" ++ lf ++ "et1:abc" ++ lf ++ "et2:5")
           ["dome:0"] "et1:abc" ["et2:5"] Py.ValueError).
  - vm_compute. reflexivity.
  - vm_compute. reflexivity.
  - vm_compute. reflexivity.
  - vm_compute. reflexivity.
Defined.
